(** * Calibration manager: session lifecycle, per-device solve, quality scoring

    Shallow embedding of [PythonApp/src/calibration/calibration_manager.py]
    (class [CalibrationManager]) and the properties of its operations.

    Layout: the value model (Python floats, arrays), the quality assessor,
    the manager state with its state-and-exception monad, the operations of
    the class in source order, and then the theorems. *)

From Stdlib Require Import QArith.
From stdpp Require Import gmap strings pretty list fin_maps.

Set Default Proof Using "Type".

(** ** Python floats

    A Python [float] is an IEEE binary64 value.  Every such value is a NaN,
    an infinity or a finite rational, and the only float operations the
    manager performs on RMS errors are comparisons, [max] and truth tests,
    all of which are exact.  The finite values are therefore modelled by
    [Q] (a superset of the finite doubles; both signed zeros are the
    rational zero, which no operation here distinguishes). *)
Module PyFloat.
Local Open Scope Z_scope.

Inductive pyfloat : Type :=
| FNaN
| FNegInf
| FFin (q : Q)
| FPosInf.

Definition Qltb (x y : Q) : bool :=
  Qnum x * QDen y <? Qnum y * QDen x.

(** [a < b] on floats: false as soon as one side is NaN. *)
Definition float_lt (a b : pyfloat) : bool :=
  match a, b with
  | FNaN, _ | _, FNaN => false
  | FNegInf, FNegInf => false
  | FNegInf, _ => true
  | FFin _, FNegInf => false
  | FFin x, FFin y => Qltb x y
  | FFin _, FPosInf => true
  | FPosInf, _ => false
  end.

(** [a > b] is [b < a]. *)
Definition float_gt (a b : pyfloat) : bool := float_lt b a.

(** [bool(a)]: a float is falsy exactly when it equals zero; NaN and the
    infinities are truthy. *)
Definition float_bool (a : pyfloat) : bool :=
  match a with
  | FFin q => negb (Qnum q =? 0)
  | _ => true
  end.

(** The builtin [max(a, b)]: the running maximum is replaced only when the
    next item compares strictly greater. *)
Definition py_max (a b : pyfloat) : pyfloat :=
  if float_gt b a then b else a.

(** [max(a, b, c)] scans its arguments left to right. *)
Definition py_max3 (a b c : pyfloat) : pyfloat :=
  py_max (py_max a b) c.

(** [float("inf")] *)
Definition float_inf : pyfloat := FPosInf.

(** *** The order of the extended reals, as propositions *)

Definition is_nan (a : pyfloat) : Prop := a = FNaN.

Definition fle (a b : pyfloat) : Prop :=
  match a, b with
  | FNaN, _ | _, FNaN => False
  | FNegInf, _ => True
  | FFin _, FNegInf => False
  | FFin x, FFin y => (x <= y)%Q
  | FFin _, FPosInf => True
  | FPosInf, FPosInf => True
  | FPosInf, _ => False
  end.

Definition flt (a b : pyfloat) : Prop :=
  match a, b with
  | FNaN, _ | _, FNaN => False
  | FNegInf, FNegInf => False
  | FNegInf, _ => True
  | FFin _, FNegInf => False
  | FFin x, FFin y => (x < y)%Q
  | FFin _, FPosInf => True
  | FPosInf, _ => False
  end.

(** [m] is the greatest of [a], [b], [c]. *)
Definition is_max3 (m a b c : pyfloat) : Prop :=
  (m = a ∨ m = b ∨ m = c) ∧ fle a m ∧ fle b m ∧ fle c m.

(** A float that is an exact zero. *)
Definition is_zero (a : pyfloat) : Prop :=
  match a with
  | FFin q => (q == 0)%Q
  | _ => False
  end.

End PyFloat.
Export PyFloat.

(** ** Arrays and calibration results *)

(** A NumPy array: its [shape] and its elements in row-major order.  The
    numerical content is only ever handed to OpenCV. *)
Record ndarray (A : Type) : Type := mk_ndarray {
  shape : list nat;
  data : list A;
}.
Arguments mk_ndarray {A} _ _.
Arguments shape {A} _.
Arguments data {A} _.

(** Images hold 8-bit samples, matrices and point sets hold floats. *)
Definition image : Type := ndarray N.
Definition matrix : Type := ndarray pyfloat.

(** The labels written to ["quality_score"]. *)
Inductive quality : Type :=
| UNKNOWN
| EXCELLENT
| GOOD
| ACCEPTABLE
| POOR.

#[global] Instance quality_eq_dec : EqDecision quality.
Proof. solve_decision. Defined.

(** The dictionary built by [_assess_calibration_quality]. *)
Record assessment : Type := mk_assessment {
  quality_score : quality;
  recommendations : list string;
  rgb_error : pyfloat;
  thermal_error : pyfloat;
  stereo_error : pyfloat;
}.

(** Modelled from the spec: the class [CalibrationResult], which the
    manager imports from [calibration_result.py].  Its attributes are the
    ones the manager reads and writes; section 3 of the specification lists
    the same fields.  An attribute that holds [None] is [None] here. *)
Record CalibrationResult : Type := mk_CalibrationResult {
  device_id : string;
  rgb_camera_matrix : option matrix;
  rgb_distortion_coeffs : option matrix;
  rgb_rms_error : option pyfloat;
  thermal_camera_matrix : option matrix;
  thermal_distortion_coeffs : option matrix;
  thermal_rms_error : option pyfloat;
  rotation_matrix : option matrix;
  translation_vector : option matrix;
  essential_matrix : option matrix;
  fundamental_matrix : option matrix;
  stereo_rms_error : option pyfloat;
  homography_matrix : option matrix;
  quality_assessment : option assessment;
  calibration_timestamp : option string;
}.

(** Modelled from the spec: [CalibrationResult(device_id)], the constructor
    of that class; a fresh result has every field empty. *)
Definition CalibrationResult_init (dev : string) : CalibrationResult :=
  {| device_id := dev;
     rgb_camera_matrix := None; rgb_distortion_coeffs := None;
     rgb_rms_error := None;
     thermal_camera_matrix := None; thermal_distortion_coeffs := None;
     thermal_rms_error := None;
     rotation_matrix := None; translation_vector := None;
     essential_matrix := None; fundamental_matrix := None;
     stereo_rms_error := None;
     homography_matrix := None;
     quality_assessment := None;
     calibration_timestamp := None |}.

(** Modelled from the spec: [CalibrationResult.is_valid], a method of that
    class: a result is valid only if intrinsic calibration succeeded for
    both modalities, that is, both intrinsic parameter sets are present.
    (The properties below use one direction only: a result that lacks an
    intrinsic matrix is not valid.) *)
Definition is_valid (r : CalibrationResult) : bool :=
  bool_decide (is_Some (rgb_camera_matrix r))
  && bool_decide (is_Some (rgb_distortion_coeffs r))
  && bool_decide (is_Some (thermal_camera_matrix r))
  && bool_decide (is_Some (thermal_distortion_coeffs r)).

(** ** Quality assessment *)

(** [x or float("inf")]: the right operand replaces every falsy left
    operand, that is [None] and a float equal to zero. *)
Definition or_inf (x : option pyfloat) : pyfloat :=
  match x with
  | Some v => if float_bool v then v else float_inf
  | None => float_inf
  end.

Definition rec_acceptable : list string :=
  ["Consider recapturing some images for better accuracy"%string].

Definition rec_poor : list string :=
  ["Recapture calibration images"%string;
   "Ensure calibration pattern is clearly visible"%string;
   "Use better lighting conditions"%string].

Definition _assess_calibration_quality (r : CalibrationResult) : assessment :=
  let rgb_error := or_inf (rgb_rms_error r) in
  let thermal_error := or_inf (thermal_rms_error r) in
  let stereo_error := or_inf (stereo_rms_error r) in
  let max_error := py_max3 rgb_error thermal_error stereo_error in
  let '(score, recs) :=
    if float_lt max_error (FFin (1 # 2)) then (EXCELLENT, [])
    else if float_lt max_error (FFin 1) then (GOOD, [])
    else if float_lt max_error (FFin 2) then (ACCEPTABLE, [] ++ rec_acceptable)
    else (POOR, [] ++ rec_poor) in
  {| quality_score := score;
     recommendations := recs;
     rgb_error := rgb_error;
     thermal_error := thermal_error;
     stereo_error := stereo_error |}.

(** ** Exceptions and the state-and-exception monad *)

Local Open Scope string_scope.
Local Open Scope list_scope.
Local Open Scope nat_scope.

(** The exceptions that occur; all derive from [Exception], so a handler
    [except Exception] catches each of them.  [ExternalError] stands for
    whatever a collaborator raises ([cv2.error], [OSError], ...). *)
Inductive exn : Type :=
| RuntimeError (msg : string)
| KeyError (key : string)
| IndexError (msg : string)
| AttributeError (msg : string)
| TypeError (msg : string)
| ExternalError (msg : string).

(** A call that returns a value or raises. *)
Definition exc (A : Type) : Type := exn + A.

#[global] Instance exc_ret : MRet exc := λ A x, inr x.
#[global] Instance exc_bind : MBind exc := λ A B f m,
  match m with
  | inl e => inl e
  | inr x => f x
  end.

(** A method body over a mutable store [Σ]: it runs to a new store and
    either a value or a raised exception.  Mutations made before a [raise]
    stay in the store, as they do on a Python object. *)
Definition M (Σ A : Type) : Type := Σ → Σ * exc A.

#[global] Instance M_ret {Σ} : MRet (M Σ) := λ A x s, (s, inr x).
#[global] Instance M_bind {Σ} : MBind (M Σ) := λ A B f m s,
  match m s with
  | (s', inl e) => (s', inl e)
  | (s', inr x) => f x s'
  end.

Definition raise {Σ A} (e : exn) : M Σ A := λ s, (s, inl e).
Definition get {Σ} : M Σ Σ := λ s, (s, inr s).
Definition modify {Σ} (f : Σ → Σ) : M Σ unit := λ s, (f s, inr tt).
Definition lift_exc {Σ A} (x : exc A) : M Σ A := λ s, (s, x).

(** [try: body  except Exception as e: handler(e)] *)
Definition try_except {Σ A} (body : M Σ A) (handler : exn → M Σ A) : M Σ A :=
  λ s, match body s with
       | (s', inl e) => handler e s'
       | (s', inr x) => (s', inr x)
       end.

(** [try: body  finally: fin], for a [fin] that cannot raise. *)
Definition try_finally {Σ A} (body : M Σ A) (fin : Σ → Σ) : M Σ A :=
  λ s, let '(s', r) := body s in (fin s', r).

(** [for x in l: body(x)] *)
Fixpoint for_each {Σ A} (l : list A) (body : A → M Σ unit) : M Σ unit :=
  match l with
  | [] => mret tt
  | x :: l' => body x ≫= λ _, for_each l' body
  end.

(** A method body with a local variable of type [L] that both the body and
    its exception handler see: the store is the object and the local. *)
Definition with_local {Σ L A} (l0 : L) (m : M (Σ * L) A) : M Σ A :=
  λ s, let '((s', _), r) := m (s, l0) in (s', r).
Definition lift_self {Σ L A} (m : M Σ A) : M (Σ * L) A :=
  λ '(s, l), let '(s', r) := m s in ((s', l), r).
Definition get_local {Σ L} : M (Σ * L) L := λ '(s, l), ((s, l), inr l).
Definition modify_local {Σ L} (f : L → L) : M (Σ * L) unit :=
  λ '(s, l), ((s, f l), inr tt).

(** [d[k]] on a dictionary with string keys. *)
Definition getitem {V} (d : gmap string V) (k : string) : exc V :=
  match d !! k with
  | Some v => inr v
  | None => inl (KeyError k)
  end.

(** [l[i]] on a list or a shape tuple, for [i ≥ 0]. *)
Definition index {A} (l : list A) (i : nat) : exc A :=
  match l !! i with
  | Some v => inr v
  | None => inl (IndexError "index out of range")
  end.

(** ** The manager and its collaborators *)

Module Session.
(** The dictionary [current_session].  The last three keys are added by
    [end_calibration_session]; before that they are absent. *)
Record t : Type := mk {
  session_name : string;
  session_folder : string;
  device_ids : list string;
  start_time : string;
  pattern_type : string;
  pattern_size : nat * nat;
  square_size : pyfloat;
  status : string;
  end_time : option string;
  total_captures : option (gmap string nat);
  calibrated_devices : option (gset string);
}.
End Session.

(** [datetime.now()], through the two renderings the manager uses. *)
Record datetime : Type := mk_datetime {
  isoformat : string;
  strftime_Ymd_HMS : string;
}.

(** The command broadcast to the devices at each capture cycle. *)
Record capture_command : Type := mk_capture_command {
  cmd : string;
  session_id : string;
  cmd_pattern_type : string;
  cmd_pattern_size : nat * nat;
}.

(** What the manager has done to the world outside of it, oldest first:
    the history every collaborator with side effects may depend on. *)
Inductive io_event : Type :=
| EvMkdir (path : string)
| EvJsonDump (path : string) (content : Session.t)
| EvSaveResult (path : string) (r : CalibrationResult)
| EvSaveFailed (path : string) (r : CalibrationResult) (e : exn)
| EvLoadResult (path : string) (r : option CalibrationResult)
| EvImwrite (path : string) (img : image) (ok : bool)
| EvRandom (img : image)
| EvBroadcast (c : capture_command) (device_count : nat)
| EvRaised (e : exn).

(** The object behind the parameter [device_server]. *)
Record device_server : Type := mk_device_server {
  broadcast_command : list io_event → capture_command → exc nat;
}.

(** The collaborators of the manager.  None of them is defined in
    [calibration_manager.py]: [CalibrationProcessor] and the persistence
    methods of [CalibrationResult] are imported from sibling modules, the
    rest is OpenCV, NumPy and the operating system.  Each is a parameter; a
    call returns or raises.  The numerical routines are functions of their
    arguments, the routines with side effects also see the history of
    effects. *)
Class Collaborators : Type := {
  (* CalibrationProcessor *)
  create_object_points : nat * nat → pyfloat → exc matrix;
  (* [(True, corners)] is [Some corners], [(False, _)] is [None] *)
  detect_chessboard_corners : image → nat * nat → exc (option matrix);
  compute_homography : matrix → matrix → exc (option matrix);
  (* cv2 *)
  cv2_calibrateCamera :
    list matrix → list matrix → nat * nat → exc (pyfloat * matrix * matrix);
  cv2_stereoCalibrate :
    list matrix → list matrix → list matrix →
    matrix → matrix → matrix → matrix → nat * nat →
    exc (pyfloat * (matrix * matrix * matrix * matrix));
  cv2_warpPerspective : image → matrix → nat * nat → exc image;
  cv2_applyColorMap : image → exc image;
  cv2_addWeighted : image → pyfloat → image → pyfloat → exc image;
  cv2_imwrite : list io_event → string → image → exc bool;
  (* IEEE subtraction, the one rounding operation the manager performs *)
  float_sub : pyfloat → pyfloat → pyfloat;
  np_random_randint : list io_event → list nat → image;
  datetime_now : list io_event → datetime;
  path_mkdir : list io_event → string → exc unit;
  json_dump : list io_event → string → Session.t → exc unit;
  (* CalibrationResult *)
  save_to_file : list io_event → CalibrationResult → string → exc unit;
  load_from_file : list io_event → string → exc (option CalibrationResult);
}.

(** The attributes of a [CalibrationManager] instance, and [io_log], the
    history of its effects on the collaborators. *)
Record CalibrationManager : Type := mk_CalibrationManager {
  output_dir : string;
  current_session : option Session.t;
  captured_images : gmap string (list image * list image);
  captured_frames : list image;
  calibration_results : gmap string CalibrationResult;
  pattern_type : string;
  chessboard_size : nat * nat;
  square_size : pyfloat;
  min_images : nat;
  is_capturing : bool;
  capture_count : gmap string nat;
  io_log : list io_event;
}.

Definition set_current_session (v : option Session.t) (st : CalibrationManager) :=
  mk_CalibrationManager (output_dir st) v (captured_images st)
    (captured_frames st) (calibration_results st) (pattern_type st)
    (chessboard_size st) (square_size st) (min_images st) (is_capturing st)
    (capture_count st) (io_log st).

Definition set_captured_images (v : gmap string (list image * list image))
    (st : CalibrationManager) :=
  mk_CalibrationManager (output_dir st) (current_session st) v
    (captured_frames st) (calibration_results st) (pattern_type st)
    (chessboard_size st) (square_size st) (min_images st) (is_capturing st)
    (capture_count st) (io_log st).

Definition set_calibration_results (v : gmap string CalibrationResult)
    (st : CalibrationManager) :=
  mk_CalibrationManager (output_dir st) (current_session st)
    (captured_images st) (captured_frames st) v (pattern_type st)
    (chessboard_size st) (square_size st) (min_images st) (is_capturing st)
    (capture_count st) (io_log st).

Definition set_is_capturing (v : bool) (st : CalibrationManager) :=
  mk_CalibrationManager (output_dir st) (current_session st)
    (captured_images st) (captured_frames st) (calibration_results st)
    (pattern_type st) (chessboard_size st) (square_size st) (min_images st) v
    (capture_count st) (io_log st).

Definition set_capture_count (v : gmap string nat) (st : CalibrationManager) :=
  mk_CalibrationManager (output_dir st) (current_session st)
    (captured_images st) (captured_frames st) (calibration_results st)
    (pattern_type st) (chessboard_size st) (square_size st) (min_images st)
    (is_capturing st) v (io_log st).

Definition log_event (ev : io_event) (st : CalibrationManager) :=
  mk_CalibrationManager (output_dir st) (current_session st)
    (captured_images st) (captured_frames st) (calibration_results st)
    (pattern_type st) (chessboard_size st) (square_size st) (min_images st)
    (is_capturing st) (capture_count st) (io_log st ++ [ev]).

(** A call to a collaborator with side effects: the outcome is recorded,
    a raised exception as [failed e]. *)
Definition io_with {A} (oracle : list io_event → exc A) (ev : A → io_event)
    (failed : exn → io_event) : M CalibrationManager A :=
  λ st, match oracle (io_log st) with
        | inr x => (log_event (ev x) st, inr x)
        | inl e => (log_event (failed e) st, inl e)
        end.

Definition io {A} (oracle : list io_event → exc A) (ev : A → io_event)
    : M CalibrationManager A :=
  io_with oracle ev EvRaised.

(** [Path / name] and [str(Path)]: paths are kept as their strings, joined
    with a separator.  (No property below depends on how paths are
    spelled.) *)
Definition path_join (dir name : string) : string := dir +:+ "/" +:+ name.

(** The ["message"] entries.  Formatted messages keep their arguments. *)
Inductive msg : Type :=
| Msg (s : string)
| MsgInsufficientImages (count : nat) (min : nat)
    (* f"Insufficient images: {count}/{min}" *)
| MsgCalibrationError (e : exn)
    (* f"Calibration error: {str(e)}" *)
| MsgCaptureFailed (e : exn).
    (* f"Capture failed: {str(e)}" *)

Module DeviceResult.
(** An entry of ["device_results"]; the last four keys exist only in the
    entry of a successful calibration. *)
Record t : Type := mk {
  success : bool;
  message : msg;
  rgb_error : option (option pyfloat);
  thermal_error : option (option pyfloat);
  stereo_error : option (option pyfloat);
  quality_score : option quality;
}.
Definition plain (ok : bool) (m : msg) : t :=
  mk ok m None None None None.
End DeviceResult.

Module CaptureResults.
(** The dictionary returned by [capture_calibration_frame]; the guard for
    a capture in flight returns one without the last two keys. *)
Record t : Type := mk {
  success : bool;
  message : msg;
  device_results : option (gmap string DeviceResult.t);
  total_frames : option (gmap string nat);
}.
End CaptureResults.

Module ComputationResults.
(** The dictionary returned by [compute_calibration]. *)
Record t : Type := mk {
  success : bool;
  message : msg;
  device_results : gmap string DeviceResult.t;
}.
End ComputationResults.

Module SessionSummary.
(** The dictionary returned by [end_calibration_session]; without a
    session only ["success"] and ["message"] are present. *)
Record t : Type := mk {
  success : bool;
  message : option msg;
  session_name : option string;
  total_captures : option (gmap string nat);
  calibrated_devices : option (gset string);
  session_folder : option string;
}.
End SessionSummary.

Module SessionStatus.
(** The dictionary returned by [get_session_status]; without a session
    only ["active"] is present. *)
Record t : Type := mk {
  active : bool;
  session_name : option string;
  device_ids : option (list string);
  capture_counts : option (gmap string nat);
  can_compute : option (gmap string bool);
  calibrated_devices : option (gset string);
  is_capturing : option bool;
}.
End SessionStatus.

(** [f"{n:03d}"] *)
Definition format_03d (n : nat) : string :=
  if decide (n < 10) then "00" +:+ pretty n
  else if decide (n < 100) then "0" +:+ pretty n
  else pretty n.

Section manager.
Context `{C : Collaborators}.

Abbreviation Mgr := (M CalibrationManager).

Definition now : Mgr datetime :=
  λ st, (st, inr (datetime_now (io_log st))).

(** [CalibrationManager(output_dir)], started from the history [log]. *)
Definition __init__ (output_dir : string) (log : list io_event)
    : exc CalibrationManager :=
  let st :=
    {| output_dir := output_dir; current_session := None;
       captured_images := ∅; captured_frames := [];
       calibration_results := ∅;
       pattern_type := "chessboard"; chessboard_size := (9, 6);
       square_size := FFin 25; min_images := 10;
       is_capturing := false; capture_count := ∅; io_log := log |} in
  match path_mkdir log output_dir with
  | inr _ => inr (log_event (EvMkdir output_dir) st)
  | inl e => inl e
  end.

Definition start_calibration_session
    (device_ids : list string) (session_name : option string)
    : Mgr Session.t :=
  st ← get;
  if is_capturing st then
    raise (RuntimeError "Calibration session already in progress")
  else
    timestamp ← now;
    let session_name :=
      match session_name with
      | None => "calibration_" +:+ strftime_Ymd_HMS timestamp
      | Some n => n
      end in
    let session_folder := path_join (output_dir st) session_name in
    io (λ h, path_mkdir h session_folder) (λ _, EvMkdir session_folder);;
    let sess :=
      {| Session.session_name := session_name;
         Session.session_folder := session_folder;
         Session.device_ids := device_ids;
         Session.start_time := isoformat timestamp;
         Session.pattern_type := pattern_type st;
         Session.pattern_size := chessboard_size st;
         Session.square_size := square_size st;
         Session.status := "active";
         Session.end_time := None;
         Session.total_captures := None;
         Session.calibrated_devices := None |} in
    modify (set_current_session (Some sess));;
    for_each device_ids (λ device_id,
      modify (λ st, set_captured_images
                      (<[device_id := ([], [])]> (captured_images st)) st);;
      modify (λ st, set_capture_count
                      (<[device_id := 0]> (capture_count st)) st));;
    let session_file := path_join session_folder "session_info.json" in
    io (λ h, json_dump h session_file sess) (λ _, EvJsonDump session_file sess);;
    mret sess.

Definition random_image (shape : list nat) : Mgr image :=
  λ st, let img := np_random_randint (io_log st) shape in
        (log_event (EvRandom img) st, inr img).

(** [self.current_session[...]]: subscripting [None] raises. *)
Definition the_session : Mgr Session.t :=
  st ← get;
  match current_session st with
  | Some s => mret s
  | None => raise (TypeError "'NoneType' object is not subscriptable")
  end.

Definition _simulate_image_capture (device_id : string) : Mgr bool :=
  rgb_image ← random_image [480; 640; 3];
  thermal_image ← random_image [240; 320];
  (* self.captured_images[device_id]["rgb"].append(rgb_image) *)
  st ← get;
  frames ← lift_exc (getitem (captured_images st) device_id);
  modify (set_captured_images
            (<[device_id := (frames.1 ++ [rgb_image], frames.2)]>
               (captured_images st)));;
  (* self.captured_images[device_id]["thermal"].append(thermal_image) *)
  st ← get;
  frames ← lift_exc (getitem (captured_images st) device_id);
  modify (set_captured_images
            (<[device_id := (frames.1, frames.2 ++ [thermal_image])]>
               (captured_images st)));;
  sess ← the_session;
  let session_folder := Session.session_folder sess in
  let device_folder := path_join session_folder device_id in
  io (λ h, path_mkdir h device_folder) (λ _, EvMkdir device_folder);;
  st ← get;
  frame_num ← lift_exc (getitem (capture_count st) device_id);
  let rgb_path := path_join device_folder ("rgb_" +:+ format_03d frame_num +:+ ".png") in
  let thermal_path :=
    path_join device_folder ("thermal_" +:+ format_03d frame_num +:+ ".png") in
  io (λ h, cv2_imwrite h rgb_path rgb_image) (EvImwrite rgb_path rgb_image);;
  io (λ h, cv2_imwrite h thermal_path thermal_image)
     (EvImwrite thermal_path thermal_image);;
  mret true.

Definition set_device_result (dev : string) (r : DeviceResult.t)
    (c : CaptureResults.t) : CaptureResults.t :=
  CaptureResults.mk (CaptureResults.success c) (CaptureResults.message c)
    (Some (<[dev := r]> (default ∅ (CaptureResults.device_results c))))
    (CaptureResults.total_frames c).

Definition set_total_frames (dev : string) (n : nat)
    (c : CaptureResults.t) : CaptureResults.t :=
  CaptureResults.mk (CaptureResults.success c) (CaptureResults.message c)
    (CaptureResults.device_results c)
    (Some (<[dev := n]> (default ∅ (CaptureResults.total_frames c)))).

Definition set_failed (m : msg) (c : CaptureResults.t) : CaptureResults.t :=
  CaptureResults.mk false m
    (CaptureResults.device_results c) (CaptureResults.total_frames c).

Definition capture_calibration_frame (server : option device_server)
    : Mgr CaptureResults.t :=
  st ← get;
  match current_session st with
  | None => raise (RuntimeError "No active calibration session")
  | Some _ =>
    if is_capturing st then
      mret (CaptureResults.mk false (Msg "Capture already in progress")
              None None)
    else
      modify (set_is_capturing true);;
      let capture_results :=
        CaptureResults.mk true (Msg "Calibration frames captured successfully")
          (Some ∅) (Some ∅) in
      try_finally
        (with_local capture_results
           (try_except
              (sess ← lift_self the_session;
               st ← lift_self get;
               let capture_command :=
                 {| cmd := "capture_calibration";
                    session_id := Session.session_name sess;
                    cmd_pattern_type := pattern_type st;
                    cmd_pattern_size := chessboard_size st |} in
               device_count ← lift_self
                 match server with
                 | Some srv =>
                     io (λ h, broadcast_command srv h capture_command)
                        (EvBroadcast capture_command)
                 | None =>
                     raise (AttributeError
                       "'NoneType' object has no attribute 'broadcast_command'")
                 end;
               sess ← lift_self the_session;
               for_each (Session.device_ids sess) (λ device_id,
                 success ← lift_self (_simulate_image_capture device_id);
                 (if success : bool then
                    (* self.capture_count[device_id] += 1 *)
                    st ← lift_self get;
                    n ← lift_exc (getitem (capture_count st) device_id);
                    lift_self (modify (set_capture_count
                                 (<[device_id := n + 1]> (capture_count st))));;
                    modify_local (set_device_result device_id
                      (DeviceResult.plain true (Msg "Frame captured successfully")))
                  else
                    modify_local (set_device_result device_id
                      (DeviceResult.plain false
                         (Msg "Pattern not detected in frame"))));;
                 st ← lift_self get;
                 n ← lift_exc (getitem (capture_count st) device_id);
                 modify_local (set_total_frames device_id n));;
               get_local)
              (λ e,
                 modify_local (set_failed (MsgCaptureFailed e));;
                 get_local)))
        (set_is_capturing false)
  end.

(** [[device_id] if device_id else self.current_session["device_ids"]]:
    [None] and the empty string are falsy. *)
Definition devices_for (device_id : option string) (sess : Session.t)
    : list string :=
  match device_id with
  | Some d => if decide (d = "") then Session.device_ids sess else [d]
  | None => Session.device_ids sess
  end.

Definition can_compute_calibration (st : CalibrationManager)
    (device_id : option string) : gmap string bool :=
  match current_session st with
  | None => ∅
  | Some sess =>
    foldl (λ readiness dev_id,
             let frame_count := default 0 (capture_count st !! dev_id) in
             <[dev_id := bool_decide (min_images st ≤ frame_count)]> readiness)
          ∅ (devices_for device_id sess)
  end.

(** The detection loop of [_compute_device_calibration]; the accumulator is
    [(rgb_image_points, thermal_image_points, valid_object_points)]. *)
Fixpoint detect_patterns (object_points : matrix) (size : nat * nat)
    (frames : list (image * image))
    (acc : list matrix * list matrix * list matrix)
    : exc (list matrix * list matrix * list matrix) :=
  match frames with
  | [] => mret acc
  | (rgb_img, thermal_img) :: frames' =>
    rgb ← detect_chessboard_corners rgb_img size;
    thermal ← detect_chessboard_corners thermal_img size;
    match rgb, thermal with
    | Some rgb_corners, Some thermal_corners =>
        (* only frames where both cameras detected the pattern *)
        detect_patterns object_points size frames'
          (acc.1.1 ++ [rgb_corners], acc.1.2 ++ [thermal_corners],
           acc.2 ++ [object_points])
    | _, _ => detect_patterns object_points size frames' acc
    end
  end.

Definition set_rgb_intrinsics (k d : matrix) (e : pyfloat)
    (r : CalibrationResult) : CalibrationResult :=
  {| device_id := device_id r;
     rgb_camera_matrix := Some k; rgb_distortion_coeffs := Some d;
     rgb_rms_error := Some e;
     thermal_camera_matrix := thermal_camera_matrix r;
     thermal_distortion_coeffs := thermal_distortion_coeffs r;
     thermal_rms_error := thermal_rms_error r;
     rotation_matrix := rotation_matrix r;
     translation_vector := translation_vector r;
     essential_matrix := essential_matrix r;
     fundamental_matrix := fundamental_matrix r;
     stereo_rms_error := stereo_rms_error r;
     homography_matrix := homography_matrix r;
     quality_assessment := quality_assessment r;
     calibration_timestamp := calibration_timestamp r |}.

Definition set_thermal_intrinsics (k d : matrix) (e : pyfloat)
    (r : CalibrationResult) : CalibrationResult :=
  {| device_id := device_id r;
     rgb_camera_matrix := rgb_camera_matrix r;
     rgb_distortion_coeffs := rgb_distortion_coeffs r;
     rgb_rms_error := rgb_rms_error r;
     thermal_camera_matrix := Some k; thermal_distortion_coeffs := Some d;
     thermal_rms_error := Some e;
     rotation_matrix := rotation_matrix r;
     translation_vector := translation_vector r;
     essential_matrix := essential_matrix r;
     fundamental_matrix := fundamental_matrix r;
     stereo_rms_error := stereo_rms_error r;
     homography_matrix := homography_matrix r;
     quality_assessment := quality_assessment r;
     calibration_timestamp := calibration_timestamp r |}.

Definition set_stereo (R T E F : matrix) (e : pyfloat)
    (r : CalibrationResult) : CalibrationResult :=
  {| device_id := device_id r;
     rgb_camera_matrix := rgb_camera_matrix r;
     rgb_distortion_coeffs := rgb_distortion_coeffs r;
     rgb_rms_error := rgb_rms_error r;
     thermal_camera_matrix := thermal_camera_matrix r;
     thermal_distortion_coeffs := thermal_distortion_coeffs r;
     thermal_rms_error := thermal_rms_error r;
     rotation_matrix := Some R; translation_vector := Some T;
     essential_matrix := Some E; fundamental_matrix := Some F;
     stereo_rms_error := Some e;
     homography_matrix := homography_matrix r;
     quality_assessment := quality_assessment r;
     calibration_timestamp := calibration_timestamp r |}.

Definition set_homography_matrix (h : option matrix)
    (r : CalibrationResult) : CalibrationResult :=
  {| device_id := device_id r;
     rgb_camera_matrix := rgb_camera_matrix r;
     rgb_distortion_coeffs := rgb_distortion_coeffs r;
     rgb_rms_error := rgb_rms_error r;
     thermal_camera_matrix := thermal_camera_matrix r;
     thermal_distortion_coeffs := thermal_distortion_coeffs r;
     thermal_rms_error := thermal_rms_error r;
     rotation_matrix := rotation_matrix r;
     translation_vector := translation_vector r;
     essential_matrix := essential_matrix r;
     fundamental_matrix := fundamental_matrix r;
     stereo_rms_error := stereo_rms_error r;
     homography_matrix := h;
     quality_assessment := quality_assessment r;
     calibration_timestamp := calibration_timestamp r |}.

Definition set_assessment (a : assessment) (ts : string)
    (r : CalibrationResult) : CalibrationResult :=
  {| device_id := device_id r;
     rgb_camera_matrix := rgb_camera_matrix r;
     rgb_distortion_coeffs := rgb_distortion_coeffs r;
     rgb_rms_error := rgb_rms_error r;
     thermal_camera_matrix := thermal_camera_matrix r;
     thermal_distortion_coeffs := thermal_distortion_coeffs r;
     thermal_rms_error := thermal_rms_error r;
     rotation_matrix := rotation_matrix r;
     translation_vector := translation_vector r;
     essential_matrix := essential_matrix r;
     fundamental_matrix := fundamental_matrix r;
     stereo_rms_error := stereo_rms_error r;
     homography_matrix := homography_matrix r;
     quality_assessment := Some a;
     calibration_timestamp := Some ts |}.

(** [(img.shape[1], img.shape[0])] of the first image of a list. *)
Definition image_size (images : list image) : exc (nat * nat) :=
  img ← index images 0;
  w ← index (shape img) 1;
  h ← index (shape img) 0;
  mret (w, h).

Definition _compute_device_calibration (device_id : string)
    (rgb_images thermal_images : list image) : Mgr CalibrationResult :=
  st ← get;
  let result := CalibrationResult_init device_id in
  object_points ← lift_exc
    (create_object_points (chessboard_size st) (square_size st));
  points ← lift_exc
    (detect_patterns object_points (chessboard_size st)
       (zip rgb_images thermal_images) ([], [], []));
  let rgb_image_points := points.1.1 in
  let thermal_image_points := points.1.2 in
  let valid_object_points := points.2 in
  if decide (length valid_object_points < min_images st) then
    mret result
  else
    (* calibrate the RGB camera *)
    rgb_image_size ← lift_exc (image_size rgb_images);
    rgb ← lift_exc
      (cv2_calibrateCamera valid_object_points rgb_image_points rgb_image_size);
    let '(rgb_ret, rgb_camera_matrix, rgb_dist_coeffs) := rgb in
    let result :=
      if float_bool rgb_ret
      then set_rgb_intrinsics rgb_camera_matrix rgb_dist_coeffs rgb_ret result
      else result in
    (* calibrate the thermal camera *)
    thermal_image_size ← lift_exc (image_size thermal_images);
    thermal ← lift_exc
      (cv2_calibrateCamera valid_object_points thermal_image_points
         thermal_image_size);
    let '(thermal_ret, thermal_camera_matrix, thermal_dist_coeffs) := thermal in
    let result :=
      if float_bool thermal_ret
      then set_thermal_intrinsics thermal_camera_matrix thermal_dist_coeffs
             thermal_ret result
      else result in
    (* stereo calibration if both individual calibrations succeeded *)
    result ←
      (if float_bool rgb_ret && float_bool thermal_ret then
         stereo ← lift_exc
           (cv2_stereoCalibrate valid_object_points rgb_image_points
              thermal_image_points rgb_camera_matrix rgb_dist_coeffs
              thermal_camera_matrix thermal_dist_coeffs rgb_image_size);
         let '(stereo_ret, (R, T, E, F)) := stereo in
         if float_bool stereo_ret then
           let result := set_stereo R T E F stereo_ret result in
           thermal_points ← lift_exc (index thermal_image_points 0);
           rgb_points ← lift_exc (index rgb_image_points 0);
           h ← lift_exc (compute_homography thermal_points rgb_points);
           mret (set_homography_matrix h result)
         else mret result
       else mret result);
    timestamp ← now;
    mret (set_assessment (_assess_calibration_quality result)
            (isoformat timestamp) result).

Definition _save_calibration_result (device_id : string)
    (result : CalibrationResult) : Mgr unit :=
  sess ← the_session;
  let calibration_file :=
    path_join (Session.session_folder sess)
              ("calibration_" +:+ device_id +:+ ".json") in
  io_with (λ h, save_to_file h result calibration_file)
    (λ _, EvSaveResult calibration_file result)
    (EvSaveFailed calibration_file result).

(** The body of the [try] block that [compute_calibration] runs for one
    device; its value is the entry written to ["device_results"]. *)
Definition calibrate_device (dev_id : string) : Mgr DeviceResult.t :=
  st ← get;
  ready ← lift_exc (getitem (can_compute_calibration st (Some dev_id)) dev_id);
  if negb ready then
    count ← lift_exc (getitem (capture_count st) dev_id);
    mret (DeviceResult.plain false
            (MsgInsufficientImages count (min_images st)))
  else
    frames ← lift_exc (getitem (captured_images st) dev_id);
    let rgb_images := frames.1 in
    let thermal_images := frames.2 in
    result ← _compute_device_calibration dev_id rgb_images thermal_images;
    if is_valid result then
      modify (λ st, set_calibration_results
                      (<[dev_id := result]> (calibration_results st)) st);;
      _save_calibration_result dev_id result;;
      mret {| DeviceResult.success := true;
              DeviceResult.message := Msg "Calibration computed successfully";
              DeviceResult.rgb_error := Some (rgb_rms_error result);
              DeviceResult.thermal_error := Some (thermal_rms_error result);
              DeviceResult.stereo_error := Some (stereo_rms_error result);
              DeviceResult.quality_score :=
                Some (from_option quality_score UNKNOWN
                        (quality_assessment result)) |}
    else
      mret (DeviceResult.plain false (Msg "Calibration computation failed")).

(** One iteration of the loop of [compute_calibration]. *)
Definition calibrate_device_guarded (dev_id : string) : Mgr DeviceResult.t :=
  try_except (calibrate_device dev_id)
    (λ e, mret (DeviceResult.plain false (MsgCalibrationError e))).

Fixpoint calibrate_devices (devices : list string)
    (device_results : gmap string DeviceResult.t)
    : Mgr (gmap string DeviceResult.t) :=
  match devices with
  | [] => mret device_results
  | dev_id :: devices' =>
    entry ← calibrate_device_guarded dev_id;
    calibrate_devices devices' (<[dev_id := entry]> device_results)
  end.

(** [all(result.get("success", False) for result in d.values())] *)
Definition all_successful (d : gmap string DeviceResult.t) : bool :=
  forallb (λ kv, DeviceResult.success kv.2) (map_to_list d).

Definition compute_calibration (device_id : option string)
    : Mgr ComputationResults.t :=
  st ← get;
  match current_session st with
  | None => raise (RuntimeError "No active calibration session")
  | Some sess =>
    let devices_to_calibrate := devices_for device_id sess in
    device_results ← calibrate_devices devices_to_calibrate ∅;
    if all_successful device_results then
      mret (ComputationResults.mk true
              (Msg "Calibration computed successfully") device_results)
    else
      mret (ComputationResults.mk false
              (Msg "Some device calibrations failed") device_results)
  end.

Definition get_calibration_result (st : CalibrationManager)
    (device_id : string) : option CalibrationResult :=
  calibration_results st !! device_id.

Definition load_calibration_result (device_id calibration_file : string)
    : Mgr bool :=
  try_except
    (result ← io (λ h, load_from_file h calibration_file)
                 (EvLoadResult calibration_file);
     match result with
     | Some result =>
         modify (λ st, set_calibration_results
                         (<[device_id := result]> (calibration_results st)) st);;
         mret true
     | None => mret false
     end)
    (λ e, mret false).

(** The [try] block of [apply_thermal_overlay].  The last argument of
    [cv2.addWeighted], the constant [0], is left out. *)
Definition overlay (homography : matrix) (rgb_image thermal_image : image)
    (alpha : pyfloat) : exc image :=
  w ← index (shape rgb_image) 1;
  h ← index (shape rgb_image) 0;
  thermal_warped ← cv2_warpPerspective thermal_image homography (w, h);
  thermal_colored ← cv2_applyColorMap thermal_warped;
  cv2_addWeighted rgb_image (float_sub (FFin 1) alpha) thermal_colored alpha.

Definition apply_thermal_overlay (st : CalibrationManager)
    (device_id : string) (rgb_image thermal_image : image) (alpha : pyfloat)
    : option image :=
  match calibration_results st !! device_id with
  | None => None
  | Some result =>
    match homography_matrix result with
    | None => None
    | Some homography =>
      match overlay homography rgb_image thermal_image alpha with
      | inr overlay => Some overlay
      | inl e => None
      end
    end
  end.

Definition end_calibration_session : Mgr SessionSummary.t :=
  st ← get;
  match current_session st with
  | None =>
      mret (SessionSummary.mk false (Some (Msg "No active session"))
              None None None None)
  | Some sess =>
    (* update the session dictionary in place *)
    timestamp ← now;
    let sess :=
      {| Session.session_name := Session.session_name sess;
         Session.session_folder := Session.session_folder sess;
         Session.device_ids := Session.device_ids sess;
         Session.start_time := Session.start_time sess;
         Session.pattern_type := Session.pattern_type sess;
         Session.pattern_size := Session.pattern_size sess;
         Session.square_size := Session.square_size sess;
         Session.status := "completed";
         Session.end_time := Some (isoformat timestamp);
         Session.total_captures := Some (capture_count st);
         Session.calibrated_devices := Some (dom (calibration_results st)) |} in
    modify (set_current_session (Some sess));;
    (* save the final session info *)
    let session_folder := Session.session_folder sess in
    let session_file := path_join session_folder "session_info.json" in
    io (λ h, json_dump h session_file sess) (λ _, EvJsonDump session_file sess);;
    st ← get;
    let session_summary :=
      SessionSummary.mk true None
        (Some (Session.session_name sess))
        (Some (capture_count st))
        (Some (dom (calibration_results st)))
        (Some session_folder) in
    (* reset the session state *)
    modify (set_current_session None);;
    modify (set_captured_images ∅);;
    modify (set_capture_count ∅);;
    modify (set_is_capturing false);;
    mret session_summary
  end.

Definition get_session_status (st : CalibrationManager) : SessionStatus.t :=
  match current_session st with
  | None => SessionStatus.mk false None None None None None None
  | Some sess =>
      SessionStatus.mk true
        (Some (Session.session_name sess))
        (Some (Session.device_ids sess))
        (Some (capture_count st))
        (Some (can_compute_calibration st None))
        (Some (dom (calibration_results st)))
        (Some (is_capturing st))
  end.

(** *** Sequences of calls *)

(** A call of one of the public operations that act on the store. *)
Inductive call : Type :=
| CallStart (device_ids : list string) (session_name : option string)
| CallCapture (server : option device_server)
| CallCompute (device_id : option string)
| CallLoad (device_id calibration_file : string)
| CallEnd.

(** The store a call leaves, whether it returns or raises. *)
Definition run_call (st : CalibrationManager) (c : call) : CalibrationManager :=
  match c with
  | CallStart device_ids session_name =>
      (start_calibration_session device_ids session_name st).1
  | CallCapture server => (capture_calibration_frame server st).1
  | CallCompute device_id => (compute_calibration device_id st).1
  | CallLoad device_id calibration_file =>
      (load_calibration_result device_id calibration_file st).1
  | CallEnd => (end_calibration_session st).1
  end.

Definition run_calls (st : CalibrationManager) (calls : list call)
    : CalibrationManager :=
  foldl run_call st calls.

End manager.

(** ** Vocabulary of the properties *)

(** Two readings of an RMS error attribute as a number [e]: an absent
    value counts as infinite; or an absent or exactly zero value does. *)
Definition absent_as_inf (x : option pyfloat) (e : pyfloat) : Prop :=
  match x with
  | None => e = FPosInf
  | Some v => e = v
  end.

Definition falsy_as_inf (x : option pyfloat) (e : pyfloat) : Prop :=
  match x with
  | None => e = FPosInf
  | Some v => (is_zero v → e = FPosInf) ∧ (¬ is_zero v → e = v)
  end.

(** The assessment [a] classifies the errors [e1], [e2], [e3] with
    greatest value [m] by the fixed thresholds, and echoes them. *)
Definition classified (a : assessment) (e1 e2 e3 m : pyfloat) : Prop :=
  (flt m (FFin (1 # 2)) →
     quality_score a = EXCELLENT ∧ recommendations a = []) ∧
  (fle (FFin (1 # 2)) m → flt m (FFin 1) →
     quality_score a = GOOD ∧ recommendations a = []) ∧
  (fle (FFin 1) m → flt m (FFin 2) →
     quality_score a = ACCEPTABLE ∧
     recommendations a =
       ["Consider recapturing some images for better accuracy"]) ∧
  (fle (FFin 2) m →
     quality_score a = POOR ∧
     recommendations a =
       ["Recapture calibration images";
        "Ensure calibration pattern is clearly visible";
        "Use better lighting conditions"]) ∧
  rgb_error a = e1 ∧ thermal_error a = e2 ∧ stereo_error a = e3.

(** [m] is the greatest of the three RMS errors of [r] under a reading. *)
Definition max_error_is (reading : option pyfloat → pyfloat → Prop)
    (r : CalibrationResult) (m : pyfloat) : Prop :=
  ∃ e1 e2 e3,
    reading (rgb_rms_error r) e1 ∧ reading (thermal_rms_error r) e2 ∧
    reading (stereo_rms_error r) e3 ∧ is_max3 m e1 e2 e3.

(** EXCELLENT > GOOD > ACCEPTABLE > POOR. *)
Definition quality_rank (q : quality) : nat :=
  match q with
  | EXCELLENT => 4
  | GOOD => 3
  | ACCEPTABLE => 2
  | POOR => 1
  | UNKNOWN => 0
  end.

(** An RMS error attribute that holds an exact zero. *)
Definition zero_rms (x : option pyfloat) : Prop :=
  ∃ v, x = Some v ∧ is_zero v.

(** A result with the given RMS errors and nothing else. *)
Definition result_with_errors (rgb thermal stereo : option pyfloat)
    : CalibrationResult :=
  {| device_id := "dev";
     rgb_camera_matrix := None; rgb_distortion_coeffs := None;
     rgb_rms_error := rgb;
     thermal_camera_matrix := None; thermal_distortion_coeffs := None;
     thermal_rms_error := thermal;
     rotation_matrix := None; translation_vector := None;
     essential_matrix := None; fundamental_matrix := None;
     stereo_rms_error := stereo;
     homography_matrix := None;
     quality_assessment := None;
     calibration_timestamp := None |}.

(** Results used as concrete inputs of the assessor. *)
Definition zero_rgb_result : CalibrationResult :=
  result_with_errors (Some (FFin 0)) (Some (FFin (1 # 10))) (Some (FFin (1 # 10))).

Definition zero_rgb_result_04 : CalibrationResult :=
  result_with_errors (Some (FFin 0)) (Some (FFin (4 # 10))) (Some (FFin (4 # 10))).

Definition even_result_06 : CalibrationResult :=
  result_with_errors (Some (FFin (6 # 10))) (Some (FFin (6 # 10)))
                     (Some (FFin (6 # 10))).

Definition good_result : CalibrationResult :=
  result_with_errors (Some (FFin (3 # 10))) (Some (FFin (7 # 10)))
                     (Some (FFin (4 # 10))).

Definition poor_result : CalibrationResult :=
  result_with_errors (Some (FFin (3 # 10))) (Some (FFin (7 # 10))) None.

(** What the guards of the manager answer. *)
Definition no_active_session : exn :=
  RuntimeError "No active calibration session".

Definition session_conflict : exn :=
  RuntimeError "Calibration session already in progress".

Definition capture_in_progress : CaptureResults.t :=
  CaptureResults.mk false (Msg "Capture already in progress") None None.

Section spec_compute.
Context `{C : Collaborators}.

(** A frame is a valid correspondence when both detections return and both
    find the pattern. *)
Definition dual_detection (size : nat * nat) (frame : image * image)
    : option (matrix * matrix) :=
  match detect_chessboard_corners frame.1 size,
        detect_chessboard_corners frame.2 size with
  | inr (Some rgb_corners), inr (Some thermal_corners) =>
      Some (rgb_corners, thermal_corners)
  | _, _ => None
  end.

(** The valid correspondences among the captured frame pairs. *)
Definition valid_correspondences (size : nat * nat)
    (rgb_images thermal_images : list image) : list (matrix * matrix) :=
  omap (dual_detection size) (zip rgb_images thermal_images).

(** Every detection on the frame pairs returns. *)
Definition detections_return (size : nat * nat)
    (rgb_images thermal_images : list image) : Prop :=
  Forall (λ frame : image * image,
            (∃ o, detect_chessboard_corners frame.1 size = inr o) ∧
            (∃ o, detect_chessboard_corners frame.2 size = inr o))
         (zip rgb_images thermal_images).

(** What the intrinsic solve of a modality returns on the frames of a
    device: the call [cv2.calibrateCamera] on the valid correspondences. *)
Definition intrinsic_solve (st : CalibrationManager) (thermal : bool)
    (rgb_images thermal_images : list image)
    : exc (pyfloat * matrix * matrix) :=
  object_points ← create_object_points (chessboard_size st) (square_size st);
  points ← detect_patterns object_points (chessboard_size st)
              (zip rgb_images thermal_images) ([], [], []);
  if thermal then
    size ← image_size thermal_images;
    cv2_calibrateCamera points.2 points.1.2 size
  else
    size ← image_size rgb_images;
    cv2_calibrateCamera points.2 points.1.1 size.

(** A solve succeeded when it returned a truthy RMS error. *)
Definition solve_succeeded (x : exc (pyfloat * matrix * matrix)) : Prop :=
  ∃ ret K D, x = inr (ret, K, D) ∧ float_bool ret = true.

End spec_compute.

Definition some_stereo_field (r : CalibrationResult) : Prop :=
  is_Some (rotation_matrix r) ∨ is_Some (translation_vector r) ∨
  is_Some (essential_matrix r) ∨ is_Some (fundamental_matrix r) ∨
  is_Some (stereo_rms_error r) ∨ is_Some (homography_matrix r).

Definition stereo_fields_empty (r : CalibrationResult) : Prop :=
  rotation_matrix r = None ∧ translation_vector r = None ∧
  essential_matrix r = None ∧ fundamental_matrix r = None ∧
  stereo_rms_error r = None ∧ homography_matrix r = None.

Section spec_overlay.
Context `{C : Collaborators}.

(** The stages of the overlay succeed one after the other and yield [out]:
    the thermal image is warped with the homography to the width and
    height of the RGB image, colour-mapped, and blended with weight
    [alpha], the RGB image having weight [1.0 - alpha]. *)
Definition overlay_yields (homography : matrix) (rgb_image thermal_image : image)
    (alpha : pyfloat) (out : image) : Prop :=
  ∃ w h thermal_warped thermal_colored,
    shape rgb_image !! 1 = Some w ∧ shape rgb_image !! 0 = Some h ∧
    cv2_warpPerspective thermal_image homography (w, h) = inr thermal_warped ∧
    cv2_applyColorMap thermal_warped = inr thermal_colored ∧
    cv2_addWeighted rgb_image (float_sub (FFin 1) alpha) thermal_colored alpha
      = inr out.

(** One stage of the overlay raises: the RGB image has fewer than two
    dimensions, or a call to OpenCV raises. *)
Definition overlay_raises (homography : matrix) (rgb_image thermal_image : image)
    (alpha : pyfloat) : Prop :=
  shape rgb_image !! 1 = None ∨ shape rgb_image !! 0 = None ∨
  ∃ w h, shape rgb_image !! 1 = Some w ∧ shape rgb_image !! 0 = Some h ∧
    ((∃ e, cv2_warpPerspective thermal_image homography (w, h) = inl e) ∨
     ∃ thermal_warped,
       cv2_warpPerspective thermal_image homography (w, h)
         = inr thermal_warped ∧
       ((∃ e, cv2_applyColorMap thermal_warped = inl e) ∨
        ∃ thermal_colored,
          cv2_applyColorMap thermal_warped = inr thermal_colored ∧
          ∃ e, cv2_addWeighted rgb_image (float_sub (FFin 1) alpha)
                 thermal_colored alpha = inl e)).

End spec_overlay.

(** *** Ending a session *)

Definition no_session_summary : SessionSummary.t :=
  SessionSummary.mk false (Some (Msg "No active session")) None None None None.

(** The session dictionary with the stamps of [end_calibration_session]:
    completion time, status, per-device totals, calibrated devices. *)
Definition completed (sess : Session.t) (end_time : string)
    (totals : gmap string nat) (calibrated : gset string) : Session.t :=
  {| Session.session_name := Session.session_name sess;
     Session.session_folder := Session.session_folder sess;
     Session.device_ids := Session.device_ids sess;
     Session.start_time := Session.start_time sess;
     Session.pattern_type := Session.pattern_type sess;
     Session.pattern_size := Session.pattern_size sess;
     Session.square_size := Session.square_size sess;
     Session.status := "completed";
     Session.end_time := Some end_time;
     Session.total_captures := Some totals;
     Session.calibrated_devices := Some calibrated |}.

(** The store after a session has ended: no session, no frame buffers,
    no counters, no capture in flight; the settings and the result map
    are those of [st], and the metadata [final] has been written to
    [session_file]. *)
Definition ended (st : CalibrationManager) (session_file : string)
    (final : Session.t) : CalibrationManager :=
  {| output_dir := output_dir st;
     current_session := None;
     captured_images := ∅;
     captured_frames := captured_frames st;
     calibration_results := calibration_results st;
     pattern_type := pattern_type st;
     chessboard_size := chessboard_size st;
     square_size := square_size st;
     min_images := min_images st;
     is_capturing := false;
     capture_count := ∅;
     io_log := io_log st ++ [EvJsonDump session_file final] |}.

(** A result is persisted when the history holds its save, or the load
    that read it from a file. *)
Definition persisted (log : list io_event) (r : CalibrationResult) : Prop :=
  ∃ path, EvSaveResult path r ∈ log ∨ EvLoadResult path (Some r) ∈ log.

(** The save of a result raised. *)
Definition save_raised (log : list io_event) (r : CalibrationResult) : Prop :=
  ∃ path e, EvSaveFailed path r e ∈ log.


(** *** Relations between the store before and after a body *)

(** A body that only reads the store. *)
Definition reads_only {A} (m : M CalibrationManager A) : Prop :=
  ∀ st, (m st).1 = st.

(** [st'] has the result map of [st] and a history that extends the one
    of [st]. *)
Definition frame_rel (st st' : CalibrationManager) : Prop :=
  calibration_results st' = calibration_results st ∧
  io_log st `prefix_of` io_log st'.

(** A body over a store [Σ] that holds the manager at [π]: whether it
    returns or raises, the manager is framed. *)
Definition framed {Σ} (π : Σ → CalibrationManager) {A} (m : M Σ A) : Prop :=
  ∀ s, frame_rel (π s) (π (m s).1).

(** [st'] extends the history of [st], and every result it holds was
    held by [st], or is persisted, or its save raised. *)
Definition recorded_rel (st st' : CalibrationManager) : Prop :=
  io_log st `prefix_of` io_log st' ∧
  ∀ dev r, calibration_results st' !! dev = Some r →
    calibration_results st !! dev = Some r ∨
    persisted (io_log st') r ∨ save_raised (io_log st') r.

(** *** Relations kept by the operations *)

(** A body over a store [Σ] that holds the manager at [π] keeps the
    relation [R] between the manager before and after it, whether it
    returns or raises. *)
Definition keeps {Σ} (R : relation CalibrationManager)
    (π : Σ → CalibrationManager) {A} (m : M Σ A) : Prop :=
  ∀ s, R (π s) (π (m s).1).

(** [st'] agrees with [st] on the view [f] of the store. *)
Definition agree {T} (f : CalibrationManager → T)
    (st st' : CalibrationManager) : Prop :=
  f st' = f st.

(** [st'] has predicate [P] if [st] has it. *)
Definition carries (P : CalibrationManager → Prop)
    (st st' : CalibrationManager) : Prop :=
  P st → P st'.

(** The settings of a manager. *)
Definition settings (st : CalibrationManager) :=
  (output_dir st, pattern_type st, chessboard_size st, square_size st,
   min_images st, captured_frames st).

(** What a session consists of in memory. *)
Definition session_state (st : CalibrationManager) :=
  (current_session st, captured_images st, capture_count st,
   is_capturing st).

(** The two frame buffers of every device have the same length. *)
Definition buffers_aligned (st : CalibrationManager) : Prop :=
  ∀ d rgb thermal,
    captured_images st !! d = Some (rgb, thermal) →
    length rgb = length thermal.

(** Every counter belongs to a device with frame buffers, and does not
    exceed the number of frames buffered. *)
Definition counters_bounded (st : CalibrationManager) : Prop :=
  ∀ d c,
    capture_count st !! d = Some c →
    ∃ rgb thermal,
      captured_images st !! d = Some (rgb, thermal) ∧ c ≤ length rgb.

(** The counter of [d], if any, is below the number of frames buffered. *)
Definition counter_below (d : string) (st : CalibrationManager) : Prop :=
  ∀ c,
    capture_count st !! d = Some c →
    ∃ rgb thermal,
      captured_images st !! d = Some (rgb, thermal) ∧ c < length rgb.

(** What a capture cycle cannot change. *)
Definition beyond_capture (st : CalibrationManager) :=
  (current_session st, calibration_results st, settings st).

(** The answer of a capture cycle that failed with [e] before any device
    was asked. *)
Definition capture_failed (e : exn) : CaptureResults.t :=
  CaptureResults.mk false (MsgCaptureFailed e) (Some ∅) (Some ∅).

Definition no_server : exn :=
  AttributeError "'NoneType' object has no attribute 'broadcast_command'".

(** The store without its history. *)
Definition memory (st : CalibrationManager) :=
  (session_state st, calibration_results st, settings st).

(** The store without its history and its frame buffers. *)
Definition beyond_buffers (st : CalibrationManager) :=
  (current_session st, capture_count st, is_capturing st,
   calibration_results st, settings st).

(** What computing and loading results cannot change. *)
Definition beyond_results (st : CalibrationManager) :=
  (session_state st, settings st).

(** The entry of a device whose result [r] was stored and saved. *)
Definition calibrated_entry (r : CalibrationResult) : DeviceResult.t :=
  {| DeviceResult.success := true;
     DeviceResult.message := Msg "Calibration computed successfully";
     DeviceResult.rgb_error := Some (rgb_rms_error r);
     DeviceResult.thermal_error := Some (thermal_rms_error r);
     DeviceResult.stereo_error := Some (stereo_rms_error r);
     DeviceResult.quality_score :=
       Some (from_option quality_score UNKNOWN (quality_assessment r)) |}.

(** The file the result of [dev_id] is saved to in the session [sess]. *)
Definition calibration_file_of (sess : Session.t) (dev_id : string) : string :=
  path_join (Session.session_folder sess)
            ("calibration_" +:+ dev_id +:+ ".json").

(** The answer of [compute_calibration] for the single device [dev_id]
    with entry [entry]. *)
Definition single_answer (dev_id : string) (entry : DeviceResult.t)
    : ComputationResults.t :=
  ComputationResults.mk (DeviceResult.success entry)
    (if DeviceResult.success entry
     then Msg "Calibration computed successfully"
     else Msg "Some device calibrations failed")
    {[dev_id := entry]}.

(** The entry of a device that is not ready: its counter is reported, and
    reading a counter that does not exist raises. *)
Definition not_ready_entry (st : CalibrationManager) (dev_id : string)
    : DeviceResult.t :=
  DeviceResult.plain false
    match capture_count st !! dev_id with
    | Some count => MsgInsufficientImages count (min_images st)
    | None => MsgCalibrationError (KeyError dev_id)
    end.

Section spec_capture.
Context `{C : Collaborators}.

(** The body of the device loop of [capture_calibration_frame]. *)
Definition capture_device (device_id : string)
    : M (CalibrationManager * CaptureResults.t) unit :=
  success ← lift_self (_simulate_image_capture device_id);
  (if success : bool then
     st ← lift_self get;
     n ← lift_exc (getitem (capture_count st) device_id);
     lift_self (modify (set_capture_count
                  (<[device_id := n + 1]> (capture_count st))));;
     modify_local (set_device_result device_id
       (DeviceResult.plain true (Msg "Frame captured successfully")))
   else
     modify_local (set_device_result device_id
       (DeviceResult.plain false
          (Msg "Pattern not detected in frame"))));;
  st ← lift_self get;
  n ← lift_exc (getitem (capture_count st) device_id);
  modify_local (set_total_frames device_id n).

(** The answer of a cycle after a device was captured and counted. *)
Definition captured (device_id : string) (n : nat) (res : CaptureResults.t)
    : CaptureResults.t :=
  set_total_frames device_id n
    (set_device_result device_id
       (DeviceResult.plain true (Msg "Frame captured successfully")) res).

End spec_capture.

(** The session [sess] is active in [st], no capture is in flight, and
    every device of the session holds [k] frame pairs and counts [k]. *)
Definition session_at (sess : Session.t) (k : nat) (st : CalibrationManager)
    : Prop :=
  current_session st = Some sess ∧ is_capturing st = false ∧
  ∀ d, d ∈ Session.device_ids sess →
    capture_count st !! d = Some k ∧
    ∃ rgb thermal,
      captured_images st !! d = Some (rgb, thermal) ∧
      length rgb = k ∧ length thermal = k.

(** The invariant of the frame buffers and the counters. *)
Definition buffers_inv (st : CalibrationManager) : Prop :=
  buffers_aligned st ∧ counters_bounded st.

(** ** A concrete environment

    A small instance of the collaborators, on which the operations can be
    run: every detection succeeds on a non-empty image, every solve returns
    fixed parameters, and every file operation succeeds.  Blending follows
    OpenCV in refusing two images of different shapes. *)
Module Bench.

Definition identity3 : matrix := mk_ndarray [3; 3] [].

Definition nominal : Collaborators := {|
  create_object_points := λ size _, inr (mk_ndarray [size.1 * size.2; 3] []);
  detect_chessboard_corners := λ img size,
    inr (match data img with
         | [] => None
         | _ => Some (mk_ndarray [size.1 * size.2; 1; 2] [])
         end);
  compute_homography := λ _ _, inr (Some identity3);
  cv2_calibrateCamera := λ _ _ _,
    inr (FFin (3 # 10), identity3, mk_ndarray [1; 5] []);
  cv2_stereoCalibrate := λ _ _ _ _ _ _ _ _,
    inr (FFin (4 # 10),
         (identity3, mk_ndarray [3; 1] [], identity3, identity3));
  cv2_warpPerspective := λ img _ size,
    inr (mk_ndarray [size.2; size.1] (data img));
  cv2_applyColorMap := λ img, inr (mk_ndarray (shape img ++ [3]) (data img));
  cv2_addWeighted := λ a _ b _,
    if decide (shape a = shape b) then inr a
    else inl (ExternalError "Sizes of input arguments do not match");
  cv2_imwrite := λ _ _ _, inr true;
  float_sub := λ a b,
    match a, b with
    | FFin x, FFin y => FFin (x - y)
    | _, _ => FNaN
    end;
  np_random_randint := λ h shape, mk_ndarray shape [N.of_nat (length h)];
  datetime_now := λ h,
    mk_datetime ("T" +:+ pretty (length h)) ("D" +:+ pretty (length h));
  path_mkdir := λ _ _, inr tt;
  json_dump := λ _ _ _, inr tt;
  save_to_file := λ _ _ _, inr tt;
  load_from_file := λ _ _, inr None;
|}.

(** The same environment with another [save_to_file]. *)
Definition with_save_to_file
    (f : list io_event → CalibrationResult → string → exc unit)
    (C : Collaborators) : Collaborators := {|
  create_object_points := @create_object_points C;
  detect_chessboard_corners := @detect_chessboard_corners C;
  compute_homography := @compute_homography C;
  cv2_calibrateCamera := @cv2_calibrateCamera C;
  cv2_stereoCalibrate := @cv2_stereoCalibrate C;
  cv2_warpPerspective := @cv2_warpPerspective C;
  cv2_applyColorMap := @cv2_applyColorMap C;
  cv2_addWeighted := @cv2_addWeighted C;
  cv2_imwrite := @cv2_imwrite C;
  float_sub := @float_sub C;
  np_random_randint := @np_random_randint C;
  datetime_now := @datetime_now C;
  path_mkdir := @path_mkdir C;
  json_dump := @json_dump C;
  save_to_file := f;
  load_from_file := @load_from_file C;
|}.

(** The same environment with another [path_mkdir], another [json_dump]. *)
Definition with_path_mkdir (f : list io_event → string → exc unit)
    (C : Collaborators) : Collaborators := {|
  create_object_points := @create_object_points C;
  detect_chessboard_corners := @detect_chessboard_corners C;
  compute_homography := @compute_homography C;
  cv2_calibrateCamera := @cv2_calibrateCamera C;
  cv2_stereoCalibrate := @cv2_stereoCalibrate C;
  cv2_warpPerspective := @cv2_warpPerspective C;
  cv2_applyColorMap := @cv2_applyColorMap C;
  cv2_addWeighted := @cv2_addWeighted C;
  cv2_imwrite := @cv2_imwrite C;
  float_sub := @float_sub C;
  np_random_randint := @np_random_randint C;
  datetime_now := @datetime_now C;
  path_mkdir := f;
  json_dump := @json_dump C;
  save_to_file := @save_to_file C;
  load_from_file := @load_from_file C;
|}.

Definition with_json_dump
    (f : list io_event → string → Session.t → exc unit)
    (C : Collaborators) : Collaborators := {|
  create_object_points := @create_object_points C;
  detect_chessboard_corners := @detect_chessboard_corners C;
  compute_homography := @compute_homography C;
  cv2_calibrateCamera := @cv2_calibrateCamera C;
  cv2_stereoCalibrate := @cv2_stereoCalibrate C;
  cv2_warpPerspective := @cv2_warpPerspective C;
  cv2_applyColorMap := @cv2_applyColorMap C;
  cv2_addWeighted := @cv2_addWeighted C;
  cv2_imwrite := @cv2_imwrite C;
  float_sub := @float_sub C;
  np_random_randint := @np_random_randint C;
  datetime_now := @datetime_now C;
  path_mkdir := @path_mkdir C;
  json_dump := f;
  save_to_file := @save_to_file C;
  load_from_file := @load_from_file C;
|}.

Definition permission_denied : exn := ExternalError "Permission denied".

(** No directory can be created; no metadata can be written. *)
Definition no_directory : Collaborators :=
  with_path_mkdir (λ _ _, inl permission_denied) nominal.

Definition no_metadata : Collaborators :=
  with_json_dump (λ _ _ _, inl permission_denied) nominal.

(** A full disk: results cannot be written. *)
Definition read_only : Collaborators :=
  with_save_to_file (λ _ _ _, inl (ExternalError "No space left on device"))
    nominal.

Definition server : device_server :=
  mk_device_server (λ _ _, inr 1).

(** The store an operation leaves, and its outcome. *)
Definition state_after {A} (r : CalibrationManager * exc A) := r.1.
Definition outcome {A} (r : CalibrationManager * exc A) := r.2.

(** A fresh manager with the default settings. *)
Definition fresh : CalibrationManager :=
  {| output_dir := "calibration_data"; current_session := None;
     captured_images := ∅; captured_frames := [];
     calibration_results := ∅;
     pattern_type := "chessboard"; chessboard_size := (9, 6);
     square_size := FFin 25; min_images := 10;
     is_capturing := false; capture_count := ∅;
     io_log := [EvMkdir "calibration_data"] |}.

(** [n] capture cycles in a row. *)
Fixpoint captures `{C : Collaborators} (n : nat) (st : CalibrationManager)
    : CalibrationManager :=
  match n with
  | 0 => st
  | S n' => captures n' (state_after (capture_calibration_frame (Some server) st))
  end.

(** A manager with an active session over the devices A and B. *)
Definition active : CalibrationManager :=
  state_after
    (@start_calibration_session nominal ["A"; "B"] (Some "s") fresh).

(** The same while a capture cycle is in flight. *)
Definition in_flight : CalibrationManager := set_is_capturing true active.

(** The active session after one capture cycle, and after ten. *)
Definition after_one_capture : CalibrationManager :=
  @captures nominal 1 active.

Definition after_ten_captures : CalibrationManager :=
  @captures nominal 10 active.

(** The session dictionary of [active]. *)
Definition session_s : Session.t :=
  {| Session.session_name := "s";
     Session.session_folder := "calibration_data/s";
     Session.device_ids := ["A"; "B"];
     Session.start_time := "T1";
     Session.pattern_type := "chessboard";
     Session.pattern_size := (9, 6);
     Session.square_size := FFin 25;
     Session.status := "active";
     Session.end_time := None;
     Session.total_captures := None;
     Session.calibrated_devices := None |}.

(** The frames captured for a device. *)
Definition rgb_frames (st : CalibrationManager) (dev : string) : list image :=
  (default ([], []) (captured_images st !! dev)).1.

Definition thermal_frames (st : CalibrationManager) (dev : string)
    : list image :=
  (default ([], []) (captured_images st !! dev)).2.

(** Ten captured frame pairs for A on which no pattern can be found. *)
Definition blank : image := mk_ndarray [480; 640; 3] [].

Definition blank_frames : CalibrationManager :=
  set_captured_images
    (<["A" := (replicate 10 blank, replicate 10 blank)]>
       (captured_images after_ten_captures))
    after_ten_captures.

(** The result of the solve for A after ten capture cycles. *)
Definition solved_A : CalibrationResult :=
  match outcome (@_compute_device_calibration nominal "A"
                   (rgb_frames after_ten_captures "A")
                   (thermal_frames after_ten_captures "A")
                   after_ten_captures) with
  | inr r => r
  | inl _ => CalibrationResult_init "A"
  end.

(** The store after the calibration of A and B. *)
Definition calibrated : CalibrationManager :=
  state_after (@compute_calibration nominal None after_ten_captures).

(** An array with a single dimension, a grey-level frame, a colour frame. *)
Definition flat_image : image := mk_ndarray [5] [].
Definition grey_frame : image := mk_ndarray [480; 640] [].
Definition colour_frame : image := mk_ndarray [480; 640; 3] [].
Definition thermal_frame : image := mk_ndarray [240; 320] [].

(** A whole session: start over A and B, ten capture cycles, the
    calibration of all devices, end. *)
Definition session_calls : list call :=
  [CallStart ["A"; "B"] (Some "s")]
  ++ replicate 10 (CallCapture (Some server)) ++ [CallCompute None].



End Bench.

(** * Properties *)

(** ** Comparisons and [max] on floats *)

Section float_facts.
Implicit Types a b c m : pyfloat.

Lemma Qltb_lt (x y : Q) : Qltb x y = true ↔ (x < y)%Q.
Proof. unfold Qltb, Qlt. apply Z.ltb_lt. Qed.

Lemma Qltb_ge (x y : Q) : Qltb x y = false ↔ (y <= x)%Q.
Proof. unfold Qltb, Qle. rewrite Z.ltb_ge. reflexivity. Qed.

Lemma float_lt_flt a b : float_lt a b = true ↔ flt a b.
Proof.
  destruct a, b; simpl; try apply Qltb_lt;
    split; try discriminate; try tauto; auto.
Qed.

Lemma float_lt_false a b :
  ¬ is_nan a → ¬ is_nan b → float_lt a b = false → fle b a.
Proof.
  unfold is_nan.
  destruct a, b; simpl; intros Ha Hb H; try congruence; try exact I.
  by apply Qltb_ge.
Qed.

Lemma flt_fle a b : flt a b → fle a b.
Proof. destruct a, b; simpl; auto. apply Qlt_le_weak. Qed.

Lemma fle_not_nan_l a b : fle a b → ¬ is_nan a.
Proof. unfold is_nan. by destruct a. Qed.

Lemma fle_not_nan_r a b : fle a b → ¬ is_nan b.
Proof. unfold is_nan. by destruct a, b. Qed.

Lemma fle_refl a : ¬ is_nan a → fle a a.
Proof. unfold is_nan. destruct a; simpl; try done. intros _. apply Qle_refl. Qed.

Lemma fle_trans a b c : fle a b → fle b c → fle a c.
Proof. destruct a, b, c; simpl; try tauto. apply Qle_trans. Qed.

Lemma fle_flt_trans a b c : fle a b → flt b c → flt a c.
Proof. destruct a, b, c; simpl; try tauto. apply Qle_lt_trans. Qed.

Lemma flt_fle_trans a b c : flt a b → fle b c → flt a c.
Proof. destruct a, b, c; simpl; try tauto. apply Qlt_le_trans. Qed.

Lemma flt_not_fle a b : flt a b → ¬ fle b a.
Proof. destruct a, b; simpl; try tauto. apply Qlt_not_le. Qed.

(** Two floats that bound each other pass the same threshold tests. *)
Lemma float_lt_fle_eq m m' c :
  fle m m' → fle m' m → float_lt m c = float_lt m' c.
Proof.
  intros H1 H2. apply eq_true_iff_eq. rewrite !float_lt_flt.
  split; intros H; eapply fle_flt_trans; eauto.
Qed.

Lemma py_max_is_max a b :
  ¬ is_nan a → ¬ is_nan b →
  (py_max a b = a ∨ py_max a b = b) ∧ fle a (py_max a b) ∧ fle b (py_max a b).
Proof.
  intros Ha Hb. unfold py_max, float_gt.
  destruct (float_lt a b) eqn:E.
  - split; [by right|]. split; [|by apply fle_refl].
    by apply flt_fle, float_lt_flt.
  - split; [by left|]. split; [by apply fle_refl|].
    by apply float_lt_false.
Qed.

(** On floats that are not NaN, the builtin [max] is the greatest of its
    three arguments. *)
Lemma py_max3_is_max a b c :
  ¬ is_nan a → ¬ is_nan b → ¬ is_nan c → is_max3 (py_max3 a b c) a b c.
Proof.
  intros Ha Hb Hc. unfold py_max3, is_max3.
  destruct (py_max_is_max a b Ha Hb) as (Hab & Hab1 & Hab2).
  assert (¬ is_nan (py_max a b)) as Hn by (by destruct Hab as [-> | ->]).
  destruct (py_max_is_max (py_max a b) c Hn Hc) as (Hm & Hm1 & Hm2).
  split; [|eauto using fle_trans].
  destruct Hm as [-> | ->]; [|tauto]. destruct Hab as [-> | ->]; tauto.
Qed.

Lemma is_max3_not_nan m a b c :
  is_max3 m a b c → ¬ is_nan a ∧ ¬ is_nan b ∧ ¬ is_nan c.
Proof. intros (_ & H1 & H2 & H3). repeat split; eapply fle_not_nan_l; eauto. Qed.

(** Any greatest element passes the threshold tests as [py_max3] does. *)
Lemma is_max3_float_lt m a b c t :
  is_max3 m a b c → float_lt (py_max3 a b c) t = float_lt m t.
Proof.
  intros Hm. destruct (is_max3_not_nan _ _ _ _ Hm) as (Ha & Hb & Hc).
  destruct (py_max3_is_max a b c Ha Hb Hc) as (Hp & Hp1 & Hp2 & Hp3).
  destruct Hm as (Hm & Hm1 & Hm2 & Hm3).
  apply float_lt_fle_eq.
  - destruct Hp as [-> | [-> | ->]]; done.
  - destruct Hm as [-> | [-> | ->]]; done.
Qed.

End float_facts.

(** ** Running method bodies *)

Section run.
Context {Σ : Type}.
Implicit Types s : Σ.

Lemma run_bind {A B} (m : M Σ A) (f : A → M Σ B) s :
  (m ≫= f) s = match m s with
               | (s', inl e) => (s', inl e)
               | (s', inr x) => f x s'
               end.
Proof. reflexivity. Qed.

Lemma run_ret {A} (x : A) s : (mret x : M Σ A) s = (s, inr x).
Proof. reflexivity. Qed.

Lemma run_bind_ret {A B} (x : A) (f : A → M Σ B) s : (mret x ≫= f) s = f x s.
Proof. reflexivity. Qed.

Lemma run_bind_get {B} (f : Σ → M Σ B) s : (get ≫= f) s = f s s.
Proof. reflexivity. Qed.

Lemma run_bind_modify {B} (g : Σ → Σ) (f : unit → M Σ B) s :
  (modify g ≫= f) s = f tt (g s).
Proof. reflexivity. Qed.

Lemma run_bind_raise {A B} (e : exn) (f : A → M Σ B) s :
  (raise e ≫= f) s = (s, inl e).
Proof. reflexivity. Qed.

Lemma run_raise {A} (e : exn) s : (raise e : M Σ A) s = (s, inl e).
Proof. reflexivity. Qed.

Lemma run_bind_lift_exc {A B} (x : exc A) (f : A → M Σ B) s :
  (lift_exc x ≫= f) s = match x with
                        | inl e => (s, inl e)
                        | inr v => f v s
                        end.
Proof. by destruct x. Qed.

Lemma run_bind_assoc {A B D} (m : M Σ A) (f : A → M Σ B) (g : B → M Σ D) s :
  ((m ≫= f) ≫= g) s = (m ≫= λ x, f x ≫= g) s.
Proof. rewrite !run_bind. by destruct (m s) as [? [?|?]]. Qed.

Lemma run_try_except {A} (body : M Σ A) (handler : exn → M Σ A) s :
  try_except body handler s = match body s with
                              | (s', inl e) => handler e s'
                              | (s', inr x) => (s', inr x)
                              end.
Proof. reflexivity. Qed.

End run.

Lemma exc_ret_inr {A} (x : A) : (mret x : exc A) = inr x.
Proof. reflexivity. Qed.

Lemma exc_bind_inr {A B} (x : A) (f : A → exc B) : (inr x ≫= f) = f x.
Proof. reflexivity. Qed.

Lemma exc_bind_inl {A B} (e : exn) (f : A → exc B) : (inl e ≫= f) = inl e.
Proof. reflexivity. Qed.

Lemma run_bind_now `{C : Collaborators} {B}
    (f : datetime → M CalibrationManager B) st :
  (now ≫= f) st = f (datetime_now (io_log st)) st.
Proof. reflexivity. Qed.

Lemma run_bind_random `{C : Collaborators} {B} shape
    (f : image → M CalibrationManager B) st :
  (random_image shape ≫= f) st
  = f (np_random_randint (io_log st) shape)
      (log_event (EvRandom (np_random_randint (io_log st) shape)) st).
Proof. reflexivity. Qed.

Lemma run_lift_self {Σ L A B} (m : M Σ A) (f : A → M (Σ * L) B) s l :
  (lift_self m ≫= f) (s, l)
  = match m s with
    | (s', inl e) => ((s', l), inl e)
    | (s', inr x) => f x (s', l)
    end.
Proof. rewrite run_bind. cbn. by destruct (m s) as [s' [e|x]]. Qed.

Lemma run_bind_io `{C : Collaborators} {A B}
    (oracle : list io_event → exc A) (ev : A → io_event)
    (f : A → M CalibrationManager B) st :
  (io oracle ev ≫= f) st
  = match oracle (io_log st) with
    | inr x => f x (log_event (ev x) st)
    | inl e => (log_event (EvRaised e) st, inl e)
    end.
Proof. rewrite run_bind. unfold io, io_with. by destruct (oracle _). Qed.

Lemma run_bind_modify_local {Σ L B} (g : L → L) (f : unit → M (Σ * L) B) s l :
  (modify_local g ≫= f) (s, l) = f tt (s, g l).
Proof. by rewrite run_bind. Qed.

Lemma run_the_session `{C : Collaborators} st sess :
  current_session st = Some sess → the_session st = (st, inr sess).
Proof. intros H. unfold the_session. by rewrite run_bind_get, H. Qed.

Create Rewrite HintDb run.
#[global] Hint Rewrite @exc_ret_inr @exc_bind_inr @exc_bind_inl : run.
#[global] Hint Rewrite @run_bind_ret @run_bind_get @run_bind_modify
  @run_bind_raise @run_raise @run_ret @run_bind_lift_exc @run_bind_assoc : run.

(** Take the next steps of a method body run on a store. *)
Ltac run := autorewrite with run; cbn beta iota.

(** ** The quality assessor *)

Lemma float_bool_false v : float_bool v = false ↔ is_zero v.
Proof.
  destruct v as [| |q|]; simpl; try (split; [discriminate|tauto]).
  rewrite negb_false_iff, Z.eqb_eq. unfold Qeq. simpl. lia.
Qed.

Lemma falsy_as_inf_or_inf x e : falsy_as_inf x e → e = or_inf x.
Proof.
  destruct x as [v|]; simpl; [|done]. intros [Hz Hnz].
  destruct (float_bool v) eqn:E.
  - apply Hnz. rewrite <- float_bool_false. congruence.
  - apply Hz. by apply float_bool_false.
Qed.

Lemma or_inf_falsy_as_inf x : falsy_as_inf x (or_inf x).
Proof.
  destruct x as [v|]; simpl; [|done].
  destruct (float_bool v) eqn:E; split; try done.
  - intros Hz%float_bool_false. congruence.
  - intros Hz. exfalso. by apply Hz, float_bool_false.
Qed.

(** A value below one threshold cannot reach that threshold or a later
    one. *)
Ltac order_clash :=
  exfalso;
  match goal with
  | L : flt ?m (FFin ?t), H : fle (FFin ?t') ?m |- _ =>
      apply (flt_not_fle m (FFin t')); [|exact H];
      apply (flt_fle_trans m (FFin t)); [exact L|];
      unfold fle, Qle; simpl; lia
  end.

(** The label as a function of any greatest effective error. *)
Lemma quality_score_of_max r m :
  max_error_is falsy_as_inf r m →
  quality_score (_assess_calibration_quality r) =
    if float_lt m (FFin (1 # 2)) then EXCELLENT
    else if float_lt m (FFin 1) then GOOD
    else if float_lt m (FFin 2) then ACCEPTABLE
    else POOR.
Proof.
  intros (e1 & e2 & e3 & H1%falsy_as_inf_or_inf & H2%falsy_as_inf_or_inf
            & H3%falsy_as_inf_or_inf & Hm). subst.
  unfold _assess_calibration_quality.
  rewrite !(is_max3_float_lt m) by done.
  by repeat case_match; simplify_eq.
Qed.

(** C3 (as amended): for every triple of RMS errors, with absent and
    exactly zero values treated as infinite and [m] the greatest of the
    three, the assessor returns EXCELLENT if [m < 0.5], GOOD if
    [0.5 <= m < 1.0], ACCEPTABLE with the recapture recommendation if
    [1.0 <= m < 2.0], POOR with the three recommendations if [m >= 2.0],
    and echoes the three errors so read. *)
Theorem assess_quality_thresholds r e1 e2 e3 m :
  falsy_as_inf (rgb_rms_error r) e1 →
  falsy_as_inf (thermal_rms_error r) e2 →
  falsy_as_inf (stereo_rms_error r) e3 →
  is_max3 m e1 e2 e3 →
  classified (_assess_calibration_quality r) e1 e2 e3 m.
Proof.
  intros H1%falsy_as_inf_or_inf H2%falsy_as_inf_or_inf
         H3%falsy_as_inf_or_inf Hm. subst.
  destruct (is_max3_not_nan _ _ _ _ Hm) as (N1 & N2 & N3).
  assert (¬ is_nan m) as Nm
    by (destruct Hm as ([-> | [-> | ->]] & _); done).
  unfold classified, _assess_calibration_quality.
  rewrite !(is_max3_float_lt m) by done.
  destruct (float_lt m (FFin (1 # 2))) eqn:L1;
    [|destruct (float_lt m (FFin 1)) eqn:L2;
      [|destruct (float_lt m (FFin 2)) eqn:L3]];
    repeat match goal with
           | H : float_lt _ _ = true |- _ => apply float_lt_flt in H
           | H : float_lt _ _ = false |- _ => apply float_lt_false in H; [|done..]
           end;
    cbn [quality_score recommendations rgb_error thermal_error stereo_error];
    repeat split; try done; intros; order_clash.
Qed.

Ltac solve_reading :=
  repeat match goal with
         | |- falsy_as_inf _ _ => simpl; split; intros
         | |- absent_as_inf _ _ => simpl
         | |- ¬ _ => intros ?
         | H : is_zero (FFin _) |- _ => unfold is_zero, Qeq in H; simpl in H; lia
         | H : (_ == _)%Q |- _ => unfold Qeq in H; simpl in H; lia
         | |- is_max3 _ _ _ _ => unfold is_max3, fle, Qle; simpl
         | |- _ ∧ _ => split
         | |- (_ ≤ _)%Z => lia
         | |- _ = _ => reflexivity
         | |- _ ∨ _ => first [left; reflexivity | right]
         | |- True => exact I
         end.

Lemma assess_quality_thresholds_witness :
  classified (_assess_calibration_quality good_result)
    (FFin (3 # 10)) (FFin (7 # 10)) (FFin (4 # 10)) (FFin (7 # 10)).
Proof. apply assess_quality_thresholds; solve_reading. Defined.

(** C3 (as stated) fails: read with only absent values as infinite, the
    errors [0.0, 0.1, 0.1] have greatest value [0.1 < 0.5], yet the
    assessor answers POOR and echoes infinity for the zero. *)
Lemma assess_quality_zero_counterexample :
  ¬ (∀ e1 e2 e3 m,
       absent_as_inf (rgb_rms_error zero_rgb_result) e1 →
       absent_as_inf (thermal_rms_error zero_rgb_result) e2 →
       absent_as_inf (stereo_rms_error zero_rgb_result) e3 →
       is_max3 m e1 e2 e3 →
       classified (_assess_calibration_quality zero_rgb_result) e1 e2 e3 m).
Proof.
  intros H.
  destruct (H (FFin 0) (FFin (1 # 10)) (FFin (1 # 10)) (FFin (1 # 10)))
    as (Hexcellent & _); [solve_reading..|].
  destruct Hexcellent as [Hscore _]; [unfold flt, Qlt; simpl; lia|].
  vm_compute in Hscore. discriminate.
Qed.

Lemma is_max3_self_not_nan m a b c : is_max3 m a b c → ¬ is_nan m.
Proof.
  intros Hm. destruct (is_max3_not_nan _ _ _ _ Hm) as (? & ? & ?).
  by destruct Hm as ([-> | [-> | ->]] & _).
Qed.

Lemma float_lt_mono m1 m2 t :
  fle m1 m2 → float_lt m2 t = true → float_lt m1 t = true.
Proof. rewrite !float_lt_flt. apply fle_flt_trans. Qed.

(** C4 (as amended): for every pair of error triples, read with absent and
    exactly zero values as infinite, a greatest error that grows never
    raises the label. *)
Theorem quality_monotone r1 r2 m1 m2 :
  max_error_is falsy_as_inf r1 m1 →
  max_error_is falsy_as_inf r2 m2 →
  fle m1 m2 →
  quality_rank (quality_score (_assess_calibration_quality r2))
  ≤ quality_rank (quality_score (_assess_calibration_quality r1)).
Proof.
  intros H1 H2 Hle.
  rewrite (quality_score_of_max r1 m1), (quality_score_of_max r2 m2) by done.
  destruct (float_lt m2 (FFin (1 # 2))) eqn:L1.
  { by rewrite (float_lt_mono m1 m2). }
  destruct (float_lt m2 (FFin 1)) eqn:L2.
  { rewrite (float_lt_mono m1 m2 (FFin 1)) by done.
    destruct (float_lt m1 _); simpl; lia. }
  destruct (float_lt m2 (FFin 2)) eqn:L3.
  { rewrite (float_lt_mono m1 m2 (FFin 2)) by done.
    repeat destruct (float_lt m1 _); simpl; lia. }
  repeat destruct (float_lt m1 _); simpl; lia.
Qed.

Lemma quality_monotone_witness :
  quality_rank (quality_score (_assess_calibration_quality poor_result))
  ≤ quality_rank (quality_score (_assess_calibration_quality good_result)).
Proof.
  apply (quality_monotone good_result poor_result (FFin (7 # 10)) FPosInf).
  - exists (FFin (3 # 10)), (FFin (7 # 10)), (FFin (4 # 10)). solve_reading.
  - exists (FFin (3 # 10)), (FFin (7 # 10)), FPosInf. solve_reading.
  - exact I.
Defined.

(** C4 (as stated) fails: with only absent values read as infinite, the
    greatest error grows from [0.4] to [0.6] across the boundary [0.5],
    and the label rises from POOR to GOOD. *)
Lemma quality_monotone_zero_counterexample :
  ¬ (∀ m1 m2,
       max_error_is absent_as_inf zero_rgb_result_04 m1 →
       max_error_is absent_as_inf even_result_06 m2 →
       fle m1 m2 →
       quality_rank (quality_score (_assess_calibration_quality even_result_06))
       ≤ quality_rank
           (quality_score (_assess_calibration_quality zero_rgb_result_04))).
Proof.
  intros H.
  specialize (H (FFin (4 # 10)) (FFin (6 # 10))).
  vm_compute quality_rank in H.
  assert (3 ≤ 1) as Habs; [|lia].
  apply H.
  - exists (FFin 0), (FFin (4 # 10)), (FFin (4 # 10)). solve_reading.
  - exists (FFin (6 # 10)), (FFin (6 # 10)), (FFin (6 # 10)). solve_reading.
  - unfold fle, Qle; simpl; lia.
Qed.

(** The assessor always answers with one of the four labels, also on
    NaN. *)
Lemma assess_quality_label r :
  quality_score (_assess_calibration_quality r)
    ∈ [EXCELLENT; GOOD; ACCEPTABLE; POOR].
Proof.
  unfold _assess_calibration_quality.
  repeat destruct (float_lt _ _); cbn; set_solver.
Qed.

(** *** Zero errors *)

Lemma or_inf_zero x : zero_rms x → or_inf x = FPosInf.
Proof.
  intros (v & -> & Hz). simpl. by apply float_bool_false in Hz as ->.
Qed.

(** A running maximum that is infinite or NaN stays so. *)
Lemma py_max_unbounded_l a b :
  a = FPosInf ∨ a = FNaN → py_max a b = a.
Proof. intros [-> | ->]; by destruct b. Qed.

Lemma py_max_unbounded_r a :
  py_max a FPosInf = FPosInf ∨ py_max a FPosInf = FNaN.
Proof. destruct a; auto. Qed.

Lemma py_max3_unbounded a b c :
  a = FPosInf ∨ b = FPosInf ∨ c = FPosInf →
  py_max3 a b c = FPosInf ∨ py_max3 a b c = FNaN.
Proof.
  unfold py_max3. intros [-> | [-> | ->]].
  - rewrite (py_max_unbounded_l FPosInf b) by auto.
    rewrite py_max_unbounded_l; auto.
  - destruct (py_max_unbounded_r a) as [E | E]; rewrite E;
      rewrite py_max_unbounded_l; auto.
  - apply py_max_unbounded_r.
Qed.

Lemma float_lt_unbounded m t :
  m = FPosInf ∨ m = FNaN → float_lt m t = false.
Proof. intros [-> | ->]; by destruct t. Qed.

(** C10: whenever one of the three RMS errors is an exact zero, the
    assessor replaces it by infinity, and the result is classified POOR
    (with the recommendations of that class), whatever the other errors
    are. *)
Theorem zero_error_classified_poor r :
  zero_rms (rgb_rms_error r) ∨ zero_rms (thermal_rms_error r)
    ∨ zero_rms (stereo_rms_error r) →
  (zero_rms (rgb_rms_error r) →
     rgb_error (_assess_calibration_quality r) = FPosInf) ∧
  (zero_rms (thermal_rms_error r) →
     thermal_error (_assess_calibration_quality r) = FPosInf) ∧
  (zero_rms (stereo_rms_error r) →
     stereo_error (_assess_calibration_quality r) = FPosInf) ∧
  quality_score (_assess_calibration_quality r) = POOR ∧
  recommendations (_assess_calibration_quality r) = rec_poor.
Proof.
  intros Hz.
  assert (py_max3 (or_inf (rgb_rms_error r)) (or_inf (thermal_rms_error r))
            (or_inf (stereo_rms_error r)) = FPosInf
          ∨ py_max3 (or_inf (rgb_rms_error r)) (or_inf (thermal_rms_error r))
              (or_inf (stereo_rms_error r)) = FNaN) as Hmax.
  { apply py_max3_unbounded.
    destruct Hz as [Hz | [Hz | Hz]]; apply or_inf_zero in Hz; auto. }
  unfold _assess_calibration_quality.
  rewrite !float_lt_unbounded by done.
  cbn [quality_score recommendations rgb_error thermal_error stereo_error].
  repeat split; try apply or_inf_zero; done.
Qed.

Lemma zero_error_classified_poor_witness :
  quality_score (_assess_calibration_quality zero_rgb_result) = POOR.
Proof.
  refine (proj1 (proj2 (proj2 (proj2
            (zero_error_classified_poor zero_rgb_result _))))).
  left. exists (FFin 0). split; [reflexivity|].
  unfold is_zero, Qeq. reflexivity.
Defined.

(** ** Guards of the session operations *)

Section guards.
Context `{C : Collaborators}.

(** What [start_calibration_session] really guards on is the capture
    flag: it raises exactly when a capture cycle is in flight, and then
    leaves the store as it is. *)
Lemma start_raises_when_capturing device_ids session_name st :
  is_capturing st = true →
  start_calibration_session device_ids session_name st
  = (st, inl session_conflict).
Proof.
  intros Hcap. unfold start_calibration_session. run.
  rewrite Hcap. by run.
Qed.

(** The loop of [start_calibration_session] gives every listed device an
    empty pair of frame buffers and a zero counter, and touches nothing
    else. *)
Lemma start_loop device_ids st :
  ∃ st',
    for_each device_ids (λ device_id,
      modify (λ st, set_captured_images
                      (<[device_id := ([], [])]> (captured_images st)) st);;
      modify (λ st, set_capture_count
                      (<[device_id := 0]> (capture_count st)) st)) st
    = (st', inr tt) ∧
    current_session st' = current_session st ∧
    io_log st' = io_log st ∧
    (∀ d, d ∈ device_ids →
       capture_count st' !! d = Some 0 ∧
       captured_images st' !! d = Some ([], [])) ∧
    (∀ d, d ∉ device_ids →
       capture_count st' !! d = capture_count st !! d ∧
       captured_images st' !! d = captured_images st !! d).
Proof.
  revert st. induction device_ids as [|x l IH]; intros st.
  - exists st. do 3 (split; [done|]).
    split; [by intros d Hd%elem_of_nil|done].
  - cbn [for_each]. rewrite run_bind_assoc, run_bind_modify, run_bind_modify.
    match goal with
    | |- context [for_each l _ ?s] =>
        destruct (IH s) as (st' & -> & Hsess & Hlog & Hin & Hout)
    end.
    exists st'. split; [done|]. split; [done|]. split; [done|]. split.
    + intros d Hd. destruct (decide (d ∈ l)) as [Hl|Hl]; [by apply Hin|].
      apply elem_of_cons in Hd as [->|Hd]; [|done].
      destruct (Hout x Hl) as [-> ->]. cbn.
      by rewrite !lookup_insert_eq.
    + intros d [Hx Hl]%not_elem_of_cons.
      destruct (Hout d Hl) as [-> ->]. cbn.
      by rewrite !lookup_insert_ne.
Qed.

(** When no capture cycle is in flight and the file system cooperates,
    [start_calibration_session] installs a new session and zeroes the
    counters of its devices, whether or not a session was active. *)
Lemma start_when_not_capturing device_ids session_name st :
  is_capturing st = false →
  (∀ h path, path_mkdir h path = inr tt) →
  (∀ h path content, json_dump h path content = inr tt) →
  ∃ st' sess,
    start_calibration_session device_ids session_name st = (st', inr sess) ∧
    current_session st' = Some sess ∧
    Session.device_ids sess = device_ids ∧
    ∀ d, d ∈ device_ids → capture_count st' !! d = Some 0.
Proof.
  intros Hcap Hmkdir Hdump. unfold start_calibration_session.
  rewrite run_bind_get, Hcap, run_bind_now, run_bind.
  unfold io, io_with. rewrite Hmkdir, run_bind_modify, run_bind.
  match goal with
  | |- context [for_each device_ids ?body ?s] =>
      destruct (start_loop device_ids s) as (st1 & -> & Hsess & Hlog & Hin & _)
  end.
  rewrite run_bind, Hdump, run_ret.
  eexists _, _. split; [reflexivity|]. cbn. rewrite Hsess. cbn.
  split; [done|]. split; [done|]. intros d Hd. by apply Hin.
Qed.

(** C9: [capture_calibration_frame] raises the no-active-session error
    when no session is active, and when a session is active while a
    capture cycle is in flight it returns a dictionary with
    [success = False] and leaves the whole store (counters, frame buffers,
    session metadata, and the history of effects) unchanged. *)
Theorem capture_guards server st :
  (current_session st = None →
     capture_calibration_frame server st = (st, inl no_active_session)) ∧
  (is_Some (current_session st) → is_capturing st = true →
     capture_calibration_frame server st = (st, inr capture_in_progress) ∧
     CaptureResults.success capture_in_progress = false).
Proof.
  split.
  - intros Hnone. unfold capture_calibration_frame. run.
    rewrite Hnone. by run.
  - intros [sess Hsess] Hcap. unfold capture_calibration_frame. run.
    rewrite Hsess, Hcap. by run.
Qed.

End guards.

Lemma capture_guards_witness :
  capture_calibration_frame (C := Bench.nominal) (Some Bench.server) Bench.fresh
    = (Bench.fresh, inl no_active_session) ∧
  capture_calibration_frame (C := Bench.nominal) (Some Bench.server)
      Bench.in_flight
    = (Bench.in_flight, inr capture_in_progress).
Proof.
  split.
  - apply capture_guards. reflexivity.
  - apply capture_guards; [|reflexivity].
    eexists. vm_compute. reflexivity.
Defined.

(** C1, on the code: a second [start] while a session is active and no
    capture cycle is in flight does not raise.  After one capture cycle of
    the session over A and B the counter of A is 1; [start] over A then
    returns a new session descriptor and the counter of A is back to 0. *)
Theorem start_over_active_session :
  is_Some (current_session Bench.after_one_capture) ∧
  capture_count Bench.after_one_capture !! "A" = Some 1 ∧
  ∃ sess,
    Bench.outcome
      (start_calibration_session (C := Bench.nominal) ["A"] (Some "t")
         Bench.after_one_capture) = inr sess ∧
    Session.session_name sess = "t" ∧
    current_session
      (Bench.state_after
         (start_calibration_session (C := Bench.nominal) ["A"] (Some "t")
            Bench.after_one_capture)) = Some sess ∧
    capture_count
      (Bench.state_after
         (start_calibration_session (C := Bench.nominal) ["A"] (Some "t")
            Bench.after_one_capture)) !! "A" = Some 0.
Proof.
  split; [eexists; vm_compute; reflexivity|].
  split; [vm_compute; reflexivity|].
  eexists. repeat split; vm_compute; reflexivity.
Qed.

(** ** The per-device solve *)

Section compute_device.
Context `{C : Collaborators}.

Lemma omap_cons_case {A B} (f : A → option B) (x : A) (l : list A) :
  omap f (x :: l) = match f x with
                    | Some y => y :: omap f l
                    | None => omap f l
                    end.
Proof. reflexivity. Qed.

(** The detection loop keeps what it had and appends one entry per valid
    correspondence, in frame order. *)
Lemma detect_patterns_inv object_points size frames acc points :
  detect_patterns object_points size frames acc = inr points →
  points = (acc.1.1 ++ (omap (dual_detection size) frames).*1,
            acc.1.2 ++ (omap (dual_detection size) frames).*2,
            acc.2 ++ replicate (length (omap (dual_detection size) frames))
                       object_points).
Proof.
  revert acc points.
  induction frames as [|[rgb_img thermal_img] frames IH];
    intros [[a1 a2] a3] points H.
  - simpl in H. rewrite exc_ret_inr in H. simplify_eq.
    simpl. by rewrite !app_nil_r.
  - cbn [detect_patterns] in H.
    pose proof (eq_refl (dual_detection size (rgb_img, thermal_img))) as Hd.
    unfold dual_detection at 2 in Hd. cbn [fst snd] in Hd.
    destruct (detect_chessboard_corners rgb_img size) as [e|rgb]; [done|].
    destruct (detect_chessboard_corners thermal_img size) as [e|thermal];
      [by destruct rgb|].
    rewrite !exc_bind_inr in H. rewrite omap_cons_case, Hd.
    destruct rgb as [rc|], thermal as [tc|];
      apply IH in H; subst points; try done.
    cbn [fst snd fmap list_fmap length replicate].
    by rewrite <- !app_assoc.
Qed.

Lemma detect_patterns_length object_points size rgb_images thermal_images points :
  detect_patterns object_points size (zip rgb_images thermal_images)
    ([], [], []) = inr points →
  length points.2
  = length (valid_correspondences size rgb_images thermal_images).
Proof.
  intros ->%detect_patterns_inv. simpl. by rewrite length_replicate.
Qed.

(** When every detection returns, so does the loop. *)
Lemma detect_patterns_returns object_points size frames acc :
  Forall (λ frame : image * image,
            (∃ o, detect_chessboard_corners frame.1 size = inr o) ∧
            (∃ o, detect_chessboard_corners frame.2 size = inr o)) frames →
  ∃ points, detect_patterns object_points size frames acc = inr points.
Proof.
  intros H. revert acc.
  induction H as [|[rgb_img thermal_img] frames [[o1 H1] [o2 H2]] _ IH];
    intros acc; simpl in *; [by eexists|].
  rewrite H1, H2. rewrite !exc_bind_inr. destruct o1, o2; apply IH.
Qed.

(** *** The solve only reads the store *)

Lemma reads_only_ret {A} (x : A) : reads_only (mret x).
Proof. by intros st. Qed.

Lemma reads_only_lift_exc {A} (x : exc A) : reads_only (lift_exc x).
Proof. by intros st. Qed.

Lemma reads_only_get : reads_only get.
Proof. by intros st. Qed.

Lemma reads_only_now : reads_only now.
Proof. by intros st. Qed.

Lemma reads_only_bind {A B} (m : M CalibrationManager A)
    (f : A → M CalibrationManager B) :
  reads_only m → (∀ x, reads_only (f x)) → reads_only (m ≫= f).
Proof.
  intros Hm Hf st. rewrite run_bind. specialize (Hm st).
  destruct (m st) as [st' [e|x]]; simpl in *; subst; [done|apply Hf].
Qed.

Ltac reads_only :=
  repeat first
    [ apply reads_only_ret | apply reads_only_lift_exc
    | apply reads_only_get | apply reads_only_now
    | apply reads_only_bind; [|intros ?]
    | match goal with
      | |- reads_only (match ?x with _ => _ end) => destruct x
      | |- reads_only (let _ := _ in _) => cbv zeta
      end ].

Lemma compute_device_reads_only device_id rgb_images thermal_images :
  reads_only (_compute_device_calibration device_id rgb_images thermal_images).
Proof. unfold _compute_device_calibration. reads_only. Qed.

Lemma compute_device_store device_id rgb_images thermal_images st st' out :
  _compute_device_calibration device_id rgb_images thermal_images st
  = (st', out) → st' = st.
Proof.
  intros H. pose proof (compute_device_reads_only device_id rgb_images
                          thermal_images st) as Hr.
  by rewrite H in Hr.
Qed.

(** *** What a returned result looks like *)

(** Step through a run recorded in hypothesis [H], splitting on every
    outcome of a collaborator and every test. *)
Ltac step_run H :=
  repeat first
    [ progress (autorewrite with run in H)
    | rewrite run_bind_now in H
    | progress (cbn beta iota zeta in H)
    | discriminate H
    | match type of H with
      | context [match ?x with inl _ => _ | inr _ => _ end] =>
          destruct x as [?|?] eqn:?
      | context [let '(_, _) := ?p in _] => is_var p; destruct p as [? ?]
      | context [if decide ?P then _ else _] => destruct (decide P)
      | context [if ?b then _ else _] => destruct b eqn:?
      end ].

Lemma compute_device_inv device_id rgb_images thermal_images st st' r :
  _compute_device_calibration device_id rgb_images thermal_images st
  = (st', inr r) →
  ∃ object_points points,
    create_object_points (chessboard_size st) (square_size st)
      = inr object_points ∧
    detect_patterns object_points (chessboard_size st)
      (zip rgb_images thermal_images) ([], [], []) = inr points ∧
    ((length points.2 < min_images st ∧ r = CalibrationResult_init device_id)
     ∨ (min_images st ≤ length points.2 ∧
        ∃ rgb_size rgb_ret K D thermal_size thermal_ret K' D' r2 r3,
          image_size rgb_images = inr rgb_size ∧
          cv2_calibrateCamera points.2 points.1.1 rgb_size
            = inr (rgb_ret, K, D) ∧
          image_size thermal_images = inr thermal_size ∧
          cv2_calibrateCamera points.2 points.1.2 thermal_size
            = inr (thermal_ret, K', D') ∧
          r2 = (if float_bool thermal_ret
                then set_thermal_intrinsics K' D' thermal_ret
                else id)
                 ((if float_bool rgb_ret
                   then set_rgb_intrinsics K D rgb_ret
                   else id) (CalibrationResult_init device_id)) ∧
          (r3 = r2 ∨
           (float_bool rgb_ret = true ∧ float_bool thermal_ret = true ∧
            ∃ stereo_ret R T E F h,
              float_bool stereo_ret = true ∧
              r3 = set_homography_matrix h (set_stereo R T E F stereo_ret r2))) ∧
          r = set_assessment (_assess_calibration_quality r3)
                (isoformat (datetime_now (io_log st))) r3)).
Proof.
  intros H. unfold _compute_device_calibration in H.
  step_run H.
  all: eexists _, _; split; [done|]; split; [done|].
  all: try (left; split; [done|]; by simplify_eq).
  all: right; split; [lia|].
  all: simplify_eq.
  all: eexists _, _, _, _, _, _, _, _, _, _.
  all: repeat (split; [first [eassumption|reflexivity]|]).
  all: repeat match goal with
              | H : float_bool _ = _ |- _ => rewrite H
              end.
  all: cbn [andb id] in *.
  all: try (split; [by left|reflexivity]).
  all: split; [|reflexivity]; right; repeat (split; [done|]).
  all: eexists _, _, _, _, _, _; split; [eassumption|reflexivity].
Qed.

Lemma init_not_valid device_id :
  is_valid (CalibrationResult_init device_id) = false.
Proof. reflexivity. Qed.

Lemma init_stereo_fields_empty device_id :
  stereo_fields_empty (CalibrationResult_init device_id).
Proof. by repeat split. Qed.

(** C6: whenever the per-device calibration returns a result, a stereo
    field (rotation, translation, essential or fundamental matrix, stereo
    RMS error) or the homography is populated only if the RGB and the
    thermal intrinsic solves both succeeded; if either failed they are
    all left empty and the result is invalid. *)
Theorem stereo_needs_both_intrinsics
    device_id rgb_images thermal_images st st' r :
  _compute_device_calibration device_id rgb_images thermal_images st
  = (st', inr r) →
  (some_stereo_field r →
     solve_succeeded (intrinsic_solve st false rgb_images thermal_images) ∧
     solve_succeeded (intrinsic_solve st true rgb_images thermal_images)) ∧
  (¬ solve_succeeded (intrinsic_solve st false rgb_images thermal_images)
   ∨ ¬ solve_succeeded (intrinsic_solve st true rgb_images thermal_images) →
     stereo_fields_empty r ∧ is_valid r = false).
Proof.
  intros (object_points & points & Hop & Hdet & Hcases)%compute_device_inv.
  unfold intrinsic_solve. rewrite Hop, !exc_bind_inr, Hdet, !exc_bind_inr.
  destruct Hcases as [[_ ->] | (_ & rgb_size & rgb_ret & K & D & thermal_size
    & thermal_ret & K' & D' & r2 & r3 & Hs1 & Hc1 & Hs2 & Hc2 & Hr2 & Hr3 & ->)].
  { split.
    - unfold some_stereo_field. cbn. intros H.
      repeat destruct H as [H|H]; by destruct H.
    - intros _. split; [apply init_stereo_fields_empty|done]. }
  rewrite Hs1, Hs2, !exc_bind_inr, Hc1, Hc2.
  assert (∀ ret K D, solve_succeeded (inr (ret, K, D)) ↔ float_bool ret = true)
    as Hsucc.
  { intros ret1 K1 D1. split.
    - by intros (? & ? & ? & [= <- <- <-] & ?).
    - intros ?. by eexists _, _, _. }
  rewrite !Hsucc.
  destruct Hr3 as [-> | (Hrgb & Hthermal & stereo_ret & R & T & E & F & h & _ & ->)].
  - subst r2. split.
    + unfold some_stereo_field.
      destruct (float_bool rgb_ret), (float_bool thermal_ret); cbn;
        intros H; repeat destruct H as [H|H]; by destruct H.
    + destruct (float_bool rgb_ret), (float_bool thermal_ret);
        intros [H|H]; try done; by repeat split.
  - split; [done|]. intros [H|H]; congruence.
Qed.

(** *** One device of [compute_calibration] *)

(** With fewer valid correspondences than the minimum, the solve returns
    the empty result whenever it returns. *)
Lemma compute_device_insufficient device_id rgb_images thermal_images st st' r :
  length (valid_correspondences (chessboard_size st) rgb_images thermal_images)
    < min_images st →
  _compute_device_calibration device_id rgb_images thermal_images st
  = (st', inr r) →
  r = CalibrationResult_init device_id.
Proof.
  intros Hlen (object_points & points & _ & Hdet & Hcases)%compute_device_inv.
  apply detect_patterns_length in Hdet.
  destruct Hcases as [[_ ->] | [Hge _]]; [done|lia].
Qed.

(** And it does return it when the pattern routines return. *)
Lemma compute_device_insufficient_returns
    device_id rgb_images thermal_images st object_points :
  length (valid_correspondences (chessboard_size st) rgb_images thermal_images)
    < min_images st →
  create_object_points (chessboard_size st) (square_size st)
    = inr object_points →
  detections_return (chessboard_size st) rgb_images thermal_images →
  _compute_device_calibration device_id rgb_images thermal_images st
  = (st, inr (CalibrationResult_init device_id)).
Proof.
  intros Hlen Hop Hdet.
  destruct (detect_patterns_returns object_points (chessboard_size st) _
              ([], [], []) Hdet) as [points Hpoints].
  unfold _compute_device_calibration. run. rewrite Hop. run.
  rewrite Hpoints. run.
  apply detect_patterns_length in Hpoints.
  destruct (decide _) as [|Hge]; [done|lia].
Qed.

Lemma getitem_inr {V} (d : gmap string V) k v :
  getitem d k = inr v ↔ d !! k = Some v.
Proof. unfold getitem. destruct (d !! k); split; congruence. Qed.

Lemma run_guarded dev_id st :
  calibrate_device_guarded dev_id st
  = match calibrate_device dev_id st with
    | (st', inl e) =>
        (st', inr (DeviceResult.plain false (MsgCalibrationError e)))
    | (st', inr entry) => (st', inr entry)
    end.
Proof. reflexivity. Qed.

(** The iteration of a device never raises. *)
Lemma calibrate_device_guarded_returns dev_id st :
  ∃ st' entry, calibrate_device_guarded dev_id st = (st', inr entry).
Proof.
  rewrite run_guarded.
  destruct (calibrate_device dev_id st) as [st' [e|entry]]; eauto.
Qed.

Lemma calibrate_device_insufficient dev_id rgb_images thermal_images st st' out :
  captured_images st !! dev_id = Some (rgb_images, thermal_images) →
  length (valid_correspondences (chessboard_size st) rgb_images thermal_images)
    < min_images st →
  calibrate_device dev_id st = (st', out) →
  st' = st ∧
  (∀ entry, out = inr entry → DeviceResult.success entry = false) ∧
  (can_compute_calibration st (Some dev_id) !! dev_id = Some true →
   (∃ st1 r, _compute_device_calibration dev_id rgb_images thermal_images st
             = (st1, inr r)) →
   out = inr (DeviceResult.plain false (Msg "Calibration computation failed"))).
Proof.
  intros Himg Hlen. unfold calibrate_device.
  rewrite run_bind_get, run_bind_lift_exc.
  destruct (getitem (can_compute_calibration st (Some dev_id)) dev_id)
    as [e|ready] eqn:Hready.
  { intros [= <- <-]. split; [done|]. split; [by intros entry [=]|].
    intros Hcan. apply getitem_inr in Hcan. congruence. }
  apply getitem_inr in Hready.
  destruct ready; cbn [negb].
  - rewrite run_bind_lift_exc.
    rewrite (proj2 (getitem_inr _ _ _) Himg). cbn [fst snd].
    rewrite run_bind.
    destruct (_compute_device_calibration dev_id rgb_images thermal_images st)
      as [st1 [e|r]] eqn:Hsolve.
    + apply compute_device_store in Hsolve as ->.
      intros [= <- <-]. split; [done|]. split; [by intros entry [=]|].
      by intros _ (? & ? & [=]).
    + pose proof (compute_device_store _ _ _ _ _ _ Hsolve) as ->.
      apply compute_device_insufficient in Hsolve as ->; [|done].
      rewrite init_not_valid, run_ret.
      intros [= <- <-]. split; [done|]. split; [by intros entry [= <-]|done].
  - rewrite run_bind_lift_exc.
    destruct (getitem (capture_count st) dev_id) as [e|count];
      rewrite ?run_ret; intros [= <- <-]; (split; [done|]);
      (split; [by intros entry [= <-]|congruence]).
Qed.

End compute_device.

Lemma stereo_needs_both_intrinsics_witness :
  (some_stereo_field Bench.solved_A →
     solve_succeeded
       (intrinsic_solve (C := Bench.nominal) Bench.after_ten_captures false
          (Bench.rgb_frames Bench.after_ten_captures "A")
          (Bench.thermal_frames Bench.after_ten_captures "A")) ∧
     solve_succeeded
       (intrinsic_solve (C := Bench.nominal) Bench.after_ten_captures true
          (Bench.rgb_frames Bench.after_ten_captures "A")
          (Bench.thermal_frames Bench.after_ten_captures "A"))) ∧
  (¬ solve_succeeded
       (intrinsic_solve (C := Bench.nominal) Bench.after_ten_captures false
          (Bench.rgb_frames Bench.after_ten_captures "A")
          (Bench.thermal_frames Bench.after_ten_captures "A"))
   ∨ ¬ solve_succeeded
       (intrinsic_solve (C := Bench.nominal) Bench.after_ten_captures true
          (Bench.rgb_frames Bench.after_ten_captures "A")
          (Bench.thermal_frames Bench.after_ten_captures "A")) →
     stereo_fields_empty Bench.solved_A ∧ is_valid Bench.solved_A = false).
Proof.
  apply (stereo_needs_both_intrinsics (C := Bench.nominal) "A" _ _
           Bench.after_ten_captures Bench.after_ten_captures).
  vm_compute. reflexivity.
Defined.

(** That result has its stereo fields, and is valid. *)
Example solved_A_stereo :
  some_stereo_field Bench.solved_A ∧ is_valid Bench.solved_A = true.
Proof. split; [left; eexists|]; vm_compute; reflexivity. Qed.

(** ** The loop of [compute_calibration] *)

Section compute_calibration.
Context `{C : Collaborators}.
Implicit Types results : gmap string DeviceResult.t.

Lemma run_calibrate_devices_nil results st :
  calibrate_devices [] results st = (st, inr results).
Proof. reflexivity. Qed.

Lemma run_calibrate_devices_cons dev_id devices results st :
  calibrate_devices (dev_id :: devices) results st
  = match calibrate_device_guarded dev_id st with
    | (st', inl e) => (st', inl e)
    | (st', inr entry) =>
        calibrate_devices devices (<[dev_id := entry]> results) st'
    end.
Proof. reflexivity. Qed.

(** The loop runs to its end: no device makes it raise. *)
Lemma calibrate_devices_returns devices results st :
  ∃ st' results',
    calibrate_devices devices results st = (st', inr results').
Proof.
  revert results st. induction devices as [|dev_id devices IH];
    intros results st.
  - by eexists _, _.
  - rewrite run_calibrate_devices_cons.
    destruct (calibrate_device_guarded_returns dev_id st)
      as (st1 & entry & ->).
    apply IH.
Qed.

Lemma calibrate_devices_app before after results st :
  calibrate_devices (before ++ after) results st
  = match calibrate_devices before results st with
    | (st', inl e) => (st', inl e)
    | (st', inr results') => calibrate_devices after results' st'
    end.
Proof.
  revert results st. induction before as [|dev_id before IH];
    intros results st; [done|].
  rewrite <- app_comm_cons, !run_calibrate_devices_cons.
  destruct (calibrate_device_guarded dev_id st) as [st1 [e|entry]]; [done|].
  apply IH.
Qed.

(** Devices that are not in the list keep their entry. *)
Lemma calibrate_devices_other devices results st st' results' dev_id :
  calibrate_devices devices results st = (st', inr results') →
  dev_id ∉ devices →
  results' !! dev_id = results !! dev_id.
Proof.
  revert results st. induction devices as [|d devices IH];
    intros results st H Hnot.
  - rewrite run_calibrate_devices_nil in H. by simplify_eq.
  - rewrite run_calibrate_devices_cons in H.
    destruct (calibrate_device_guarded d st) as [st1 [e|entry]]; [done|].
    apply not_elem_of_cons in Hnot as [Hne Hnot].
    rewrite (IH _ _ H Hnot). by rewrite lookup_insert_ne.
Qed.

(** Every device of the list gets an entry. *)
Lemma calibrate_devices_dom devices results st st' results' :
  calibrate_devices devices results st = (st', inr results') →
  dom results' = dom results ∪ list_to_set devices.
Proof.
  revert results st. induction devices as [|d devices IH];
    intros results st H.
  - rewrite run_calibrate_devices_nil in H. simplify_eq. set_solver.
  - rewrite run_calibrate_devices_cons in H.
    destruct (calibrate_device_guarded d st) as [st1 [e|entry]]; [done|].
    rewrite (IH _ _ H), dom_insert_L. set_solver.
Qed.

(** The entry of a device is the one of its last iteration, run on the
    store that the iterations before it left. *)
Lemma calibrate_devices_entry before dev_id after results st st' results' :
  calibrate_devices (before ++ dev_id :: after) results st
  = (st', inr results') →
  dev_id ∉ after →
  ∃ st1 results1 st2 entry,
    calibrate_devices before results st = (st1, inr results1) ∧
    calibrate_device_guarded dev_id st1 = (st2, inr entry) ∧
    results' !! dev_id = Some entry.
Proof.
  intros H Hnot. rewrite calibrate_devices_app in H.
  destruct (calibrate_devices_returns before results st)
    as (st1 & results1 & Hbefore).
  rewrite Hbefore in H. rewrite run_calibrate_devices_cons in H.
  destruct (calibrate_device_guarded_returns dev_id st1)
    as (st2 & entry & Hdev).
  rewrite Hdev in H.
  eexists _, _, _, _. split; [done|]. split; [done|].
  rewrite (calibrate_devices_other _ _ _ _ _ _ H Hnot).
  apply lookup_insert_eq.
Qed.

Lemma all_successful_spec results :
  all_successful results = true ↔
  ∀ dev_id entry,
    results !! dev_id = Some entry → DeviceResult.success entry = true.
Proof.
  unfold all_successful. rewrite forallb_forall. split.
  - intros H dev_id entry Hlook.
    apply (H (dev_id, entry)). apply list_elem_of_In.
    by apply elem_of_map_to_list.
  - intros H [dev_id entry] Hin%list_elem_of_In%elem_of_map_to_list.
    by apply (H dev_id).
Qed.

Lemma run_compute_calibration device_id st sess :
  current_session st = Some sess →
  ∃ st' results,
    calibrate_devices (devices_for device_id sess) ∅ st = (st', inr results) ∧
    compute_calibration device_id st
    = (st', inr (ComputationResults.mk (all_successful results)
                   (if all_successful results
                    then Msg "Calibration computed successfully"
                    else Msg "Some device calibrations failed")
                   results)).
Proof.
  intros Hsess.
  destruct (calibrate_devices_returns (devices_for device_id sess) ∅ st)
    as (st' & results & Hloop).
  eexists _, _. split; [done|].
  unfold compute_calibration. rewrite run_bind_get, Hsess, run_bind, Hloop.
  by destruct (all_successful results).
Qed.

(** C7: with a session active, [compute_calibration] returns whatever
    happens to the devices.  Every requested device has an entry; the
    entry of a device is the outcome of its own iteration, run on the store
    left by the devices before it, and an exception raised there becomes a
    failure entry; the aggregate flag is the conjunction of the success
    flags of the entries. *)
Theorem compute_calibration_aggregate device_id st sess :
  current_session st = Some sess →
  ∃ st' res,
    compute_calibration device_id st = (st', inr res) ∧
    dom (ComputationResults.device_results res)
      = list_to_set (devices_for device_id sess) ∧
    (ComputationResults.success res = true ↔
     ∀ dev_id entry,
       ComputationResults.device_results res !! dev_id = Some entry →
       DeviceResult.success entry = true) ∧
    (∀ before dev_id after,
       devices_for device_id sess = before ++ dev_id :: after →
       dev_id ∉ after →
       ∃ st1 results1 st2 entry,
         calibrate_devices before ∅ st = (st1, inr results1) ∧
         calibrate_device_guarded dev_id st1 = (st2, inr entry) ∧
         ComputationResults.device_results res !! dev_id = Some entry ∧
         (∀ e, (calibrate_device dev_id st1).2 = inl e →
               entry = DeviceResult.plain false (MsgCalibrationError e))).
Proof.
  intros Hsess.
  destruct (run_compute_calibration device_id st sess Hsess)
    as (st' & results & Hloop & Hrun).
  eexists _, _. split; [exact Hrun|]. cbn.
  split; [|split].
  - rewrite (calibrate_devices_dom _ _ _ _ _ Hloop). set_solver.
  - apply all_successful_spec.
  - intros before dev_id after Hdevs Hnot. rewrite Hdevs in Hloop.
    destruct (calibrate_devices_entry _ _ _ _ _ _ _ Hloop Hnot)
      as (st1 & results1 & st2 & entry & H1 & H2 & H3).
    eexists _, _, _, _. repeat (split; [done|]).
    intros e He. rewrite run_guarded in H2.
    destruct (calibrate_device dev_id st1) as [st2' [e'|entry']];
      simpl in He; by simplify_eq.
Qed.

(** C2: for a device whose frames hold fewer valid correspondences than
    the minimum, [compute_calibration] reports a failure for the device
    and stores nothing, also when [can_compute_calibration] answers true
    from the raw frame count.  The correspondences the solve keeps are
    exactly the frame pairs on which both detections found the pattern;
    with too few of them the solve returns the empty, invalid result
    whenever it returns, and it does return when the pattern routines
    return. *)
Theorem insufficient_correspondences_fail
    dev_id st sess rgb_images thermal_images :
  current_session st = Some sess →
  dev_id ≠ "" →
  captured_images st !! dev_id = Some (rgb_images, thermal_images) →
  length (valid_correspondences (chessboard_size st) rgb_images thermal_images)
    < min_images st →
  (∀ object_points points,
     detect_patterns object_points (chessboard_size st)
       (zip rgb_images thermal_images) ([], [], []) = inr points →
     points.1.1
       = (valid_correspondences (chessboard_size st) rgb_images
            thermal_images).*1 ∧
     points.1.2
       = (valid_correspondences (chessboard_size st) rgb_images
            thermal_images).*2 ∧
     length points.2
       = length (valid_correspondences (chessboard_size st) rgb_images
                   thermal_images)) ∧
  (∀ st1 r,
     _compute_device_calibration dev_id rgb_images thermal_images st
       = (st1, inr r) →
     r = CalibrationResult_init dev_id ∧ is_valid r = false) ∧
  (∀ object_points,
     create_object_points (chessboard_size st) (square_size st)
       = inr object_points →
     detections_return (chessboard_size st) rgb_images thermal_images →
     _compute_device_calibration dev_id rgb_images thermal_images st
       = (st, inr (CalibrationResult_init dev_id))) ∧
  ∃ entry,
    compute_calibration (Some dev_id) st
      = (st, inr (ComputationResults.mk false
                    (Msg "Some device calibrations failed")
                    {[dev_id := entry]})) ∧
    DeviceResult.success entry = false ∧
    (can_compute_calibration st (Some dev_id) !! dev_id = Some true →
     (∃ st1 r,
        _compute_device_calibration dev_id rgb_images thermal_images st
          = (st1, inr r)) →
     entry = DeviceResult.plain false (Msg "Calibration computation failed")).
Proof.
  intros Hsess Hdev Himg Hlen. split; [|split; [|split]].
  - intros object_points points Hdet.
    pose proof (detect_patterns_length _ _ _ _ _ Hdet) as Hl.
    apply detect_patterns_inv in Hdet. by subst points.
  - intros st1 r ->%compute_device_insufficient; done.
  - intros. by eapply compute_device_insufficient_returns.
  - destruct (calibrate_device dev_id st) as [st1 out] eqn:Hrun.
    destruct (calibrate_device_insufficient _ _ _ _ _ _ Himg Hlen Hrun)
      as (-> & Hfail & Hmsg).
    set (entry := match out with
                  | inl e => DeviceResult.plain false (MsgCalibrationError e)
                  | inr entry => entry
                  end).
    assert (calibrate_device_guarded dev_id st = (st, inr entry)) as Hg.
    { rewrite run_guarded, Hrun. by destruct out. }
    assert (DeviceResult.success entry = false) as Hentry.
    { subst entry. destruct out; [done|]. by apply Hfail. }
    exists entry. split; [|split; [done|]].
    + unfold compute_calibration. rewrite run_bind_get, Hsess.
      unfold devices_for. rewrite decide_False by done.
      rewrite run_bind, run_calibrate_devices_cons, Hg,
        run_calibrate_devices_nil.
      rewrite insert_empty. unfold all_successful.
      rewrite map_to_list_singleton. cbn. by rewrite Hentry.
    + intros Hcan Hret. subst entry. by rewrite (Hmsg Hcan Hret).
Qed.

End compute_calibration.

Lemma compute_calibration_aggregate_witness :
  ∃ st' res,
    compute_calibration (C := Bench.read_only) None Bench.after_ten_captures
      = (st', inr res) ∧
    dom (ComputationResults.device_results res)
      = list_to_set (devices_for None Bench.session_s) ∧
    (ComputationResults.success res = true ↔
     ∀ dev_id entry,
       ComputationResults.device_results res !! dev_id = Some entry →
       DeviceResult.success entry = true) ∧
    (∀ before dev_id after,
       devices_for None Bench.session_s = before ++ dev_id :: after →
       dev_id ∉ after →
       ∃ st1 results1 st2 entry,
         calibrate_devices (C := Bench.read_only) before ∅
           Bench.after_ten_captures = (st1, inr results1) ∧
         calibrate_device_guarded (C := Bench.read_only) dev_id st1
           = (st2, inr entry) ∧
         ComputationResults.device_results res !! dev_id = Some entry ∧
         (∀ e, (calibrate_device (C := Bench.read_only) dev_id st1).2 = inl e →
               entry = DeviceResult.plain false (MsgCalibrationError e))).
Proof.
  apply (compute_calibration_aggregate (C := Bench.read_only)).
  vm_compute. reflexivity.
Defined.

Lemma insufficient_correspondences_fail_witness :
  ∃ entry,
    compute_calibration (C := Bench.nominal) (Some "A") Bench.blank_frames
      = (Bench.blank_frames,
         inr (ComputationResults.mk false
                (Msg "Some device calibrations failed") {["A" := entry]})) ∧
    DeviceResult.success entry = false ∧
    (can_compute_calibration Bench.blank_frames (Some "A") !! "A" = Some true →
     (∃ st1 r,
        _compute_device_calibration (C := Bench.nominal) "A"
          (replicate 10 Bench.blank) (replicate 10 Bench.blank)
          Bench.blank_frames = (st1, inr r)) →
     entry = DeviceResult.plain false (Msg "Calibration computation failed")).
Proof.
  refine (proj2 (proj2 (proj2
    (insufficient_correspondences_fail (C := Bench.nominal) "A"
       Bench.blank_frames Bench.session_s
       (replicate 10 Bench.blank) (replicate 10 Bench.blank) _ _ _ _)))).
  - vm_compute. reflexivity.
  - discriminate.
  - vm_compute. reflexivity.
  - vm_compute. repeat constructor.
Defined.

(** In that store the raw count of A has reached the minimum, the solve
    returns, and what it returns is the empty result. *)
Example blank_frames_ready :
  can_compute_calibration Bench.blank_frames (Some "A") !! "A" = Some true ∧
  _compute_device_calibration (C := Bench.nominal) "A"
    (replicate 10 Bench.blank) (replicate 10 Bench.blank) Bench.blank_frames
  = (Bench.blank_frames, inr (CalibrationResult_init "A")).
Proof. split; vm_compute; reflexivity. Qed.

(** ** The thermal overlay *)

Section overlay.
Context `{C : Collaborators}.

Lemma index_inr {A} (l : list A) i v : index l i = inr v ↔ l !! i = Some v.
Proof. unfold index. destruct (l !! i); split; congruence. Qed.

Lemma index_inl {A} (l : list A) i : (∃ e, index l i = inl e) ↔ l !! i = None.
Proof.
  unfold index. destruct (l !! i); split; try done; [by intros [? ?]|eauto].
Qed.

Lemma overlay_inr homography rgb_image thermal_image alpha out :
  overlay homography rgb_image thermal_image alpha = inr out ↔
  overlay_yields homography rgb_image thermal_image alpha out.
Proof.
  unfold overlay, overlay_yields, index. split.
  - destruct (shape rgb_image !! 1) as [w|];
      rewrite ?exc_bind_inr, ?exc_bind_inl; [|done].
    destruct (shape rgb_image !! 0) as [h|];
      rewrite ?exc_bind_inr, ?exc_bind_inl; [|done].
    destruct (cv2_warpPerspective thermal_image homography (w, h))
      as [e|warped] eqn:Hw; rewrite ?exc_bind_inr, ?exc_bind_inl; [done|].
    destruct (cv2_applyColorMap warped) as [e|colored] eqn:Hc;
      rewrite ?exc_bind_inr, ?exc_bind_inl; [done|].
    intros Ha. by eexists _, _, _, _.
  - intros (w & h & warped & colored & -> & -> & Hw & Hc & Ha).
    by rewrite !exc_bind_inr, Hw, exc_bind_inr, Hc, exc_bind_inr.
Qed.

Lemma overlay_inl homography rgb_image thermal_image alpha :
  (∃ e, overlay homography rgb_image thermal_image alpha = inl e) ↔
  overlay_raises homography rgb_image thermal_image alpha.
Proof.
  unfold overlay, overlay_raises, index. split.
  - destruct (shape rgb_image !! 1) as [w|];
      rewrite ?exc_bind_inr, ?exc_bind_inl; [|by left].
    destruct (shape rgb_image !! 0) as [h|];
      rewrite ?exc_bind_inr, ?exc_bind_inl; [|by right; left].
    intros [e He]. right. right. exists w, h. split; [done|]. split; [done|].
    destruct (cv2_warpPerspective thermal_image homography (w, h))
      as [e1|warped] eqn:Hw; rewrite ?exc_bind_inr, ?exc_bind_inl in He;
      [by left; eexists|].
    right. exists warped. split; [done|].
    destruct (cv2_applyColorMap warped) as [e2|colored] eqn:Hc;
      rewrite ?exc_bind_inr, ?exc_bind_inl in He; [by left; eexists|].
    right. exists colored. split; [done|]. by exists e.
  - intros [-> | [H0 | (w & h & -> & -> & Hstage)]].
    + rewrite exc_bind_inl. by eexists.
    + destruct (shape rgb_image !! 1); rewrite ?exc_bind_inr, ?exc_bind_inl;
        [|by eexists]. rewrite H0, exc_bind_inl. by eexists.
    + rewrite !exc_bind_inr.
      destruct Hstage as [[e ->] | (warped & -> & Hstage)];
        rewrite ?exc_bind_inr, ?exc_bind_inl; [by eexists|].
      destruct Hstage as [[e ->] | (colored & -> & e & Ha)];
        rewrite ?exc_bind_inr, ?exc_bind_inl, ?Ha; by eexists.
Qed.

(** C8 (as amended): [apply_thermal_overlay] returns [None] exactly when
    no calibration result is stored for the device, or the homography of
    the stored result is absent, or a stage of the overlay raises;
    otherwise it returns the thermal image warped into RGB pixel space
    with the stored homography, colour-mapped, and blended with weight
    [alpha] for the thermal and [1.0 - alpha] for the RGB image. *)
Theorem apply_thermal_overlay_spec st device_id rgb_image thermal_image alpha :
  (apply_thermal_overlay st device_id rgb_image thermal_image alpha = None ↔
     calibration_results st !! device_id = None ∨
     (∃ r, calibration_results st !! device_id = Some r ∧
           homography_matrix r = None) ∨
     (∃ r homography,
        calibration_results st !! device_id = Some r ∧
        homography_matrix r = Some homography ∧
        overlay_raises homography rgb_image thermal_image alpha)) ∧
  (∀ out,
     apply_thermal_overlay st device_id rgb_image thermal_image alpha
       = Some out ↔
     ∃ r homography,
       calibration_results st !! device_id = Some r ∧
       homography_matrix r = Some homography ∧
       overlay_yields homography rgb_image thermal_image alpha out).
Proof.
  unfold apply_thermal_overlay.
  destruct (calibration_results st !! device_id) as [r|]; [|naive_solver].
  destruct (homography_matrix r) as [homography|] eqn:Hh; [|naive_solver].
  split.
  - destruct (overlay homography rgb_image thermal_image alpha)
      as [e|out] eqn:Ho.
    + split; [|done]. intros _. right. right.
      eexists _, _. repeat (split; [done|]). apply overlay_inl. eauto.
    + split; [done|]. intros [?|[(? & ? & ?)|(? & ? & ? & ? & Hr)]];
        simplify_eq. apply overlay_inl in Hr as [e He]. congruence.
  - intros out.
    destruct (overlay homography rgb_image thermal_image alpha)
      as [e|out'] eqn:Ho; split.
    + done.
    + intros (r' & homography' & ? & ? & Hy%overlay_inr). congruence.
    + intros [= <-]. eexists _, _. repeat (split; [done|]).
      by apply overlay_inr.
    + intros (r' & homography' & ? & ? & Hy%overlay_inr). congruence.
Qed.

End overlay.

(** C8 (as stated) fails: with a result and its homography stored for A,
    an RGB array of a single dimension makes [rgb_image.shape[1]] raise
    inside the [try] block, and the overlay returns [None]. *)
Lemma overlay_none_with_homography_counterexample :
  ¬ (apply_thermal_overlay (C := Bench.nominal) Bench.calibrated "A"
       Bench.flat_image Bench.blank (FFin (3 # 10)) = None ↔
     calibration_results Bench.calibrated !! "A" = None ∨
     ∃ r, calibration_results Bench.calibrated !! "A" = Some r ∧
          homography_matrix r = None).
Proof.
  intros [Hnone _].
  destruct Hnone as [Hno | (r & Hr & Hh)].
  - vm_compute. reflexivity.
  - vm_compute in Hno. discriminate.
  - vm_compute in Hr. injection Hr as <-. vm_compute in Hh. discriminate.
Qed.

(** A colour frame is blended; a grey-level frame is refused by the
    blending, whose two inputs must have the same shape. *)
Example overlay_colour_frame :
  is_Some (apply_thermal_overlay (C := Bench.nominal) Bench.calibrated "A"
             Bench.colour_frame Bench.thermal_frame (FFin (3 # 10))).
Proof. eexists. vm_compute. reflexivity. Qed.

Example overlay_grey_frame :
  apply_thermal_overlay (C := Bench.nominal) Bench.calibrated "A"
    Bench.grey_frame Bench.thermal_frame (FFin (3 # 10)) = None.
Proof. vm_compute. reflexivity. Qed.

(** ** What the operations leave of the result map and of the history *)

#[global] Instance frame_rel_refl : Reflexive frame_rel.
Proof. by intros st. Qed.

#[global] Instance frame_rel_trans : Transitive frame_rel.
Proof.
  intros st1 st2 st3 [H1 H1'] [H2 H2']. split; [congruence|by etrans].
Qed.

Section frame.
Context {Σ : Type} (π : Σ → CalibrationManager).

Lemma framed_ret {A} (x : A) : framed π (mret x).
Proof. by intros s. Qed.

Lemma framed_raise {A} (e : exn) : framed π (raise e : M Σ A).
Proof. by intros s. Qed.

Lemma framed_get : framed π get.
Proof. by intros s. Qed.

Lemma framed_lift_exc {A} (x : exc A) : framed π (lift_exc x).
Proof. by intros s. Qed.

Lemma framed_modify (f : Σ → Σ) :
  (∀ s, frame_rel (π s) (π (f s))) → framed π (modify f).
Proof. intros Hf s. apply Hf. Qed.

Lemma framed_bind {A B} (m : M Σ A) (f : A → M Σ B) :
  framed π m → (∀ x, framed π (f x)) → framed π (m ≫= f).
Proof.
  intros Hm Hf s. rewrite run_bind. specialize (Hm s).
  destruct (m s) as [s' [e|x]]; [done|].
  etrans; [exact Hm|apply Hf].
Qed.

Lemma framed_try_except {A} (body : M Σ A) (handler : exn → M Σ A) :
  framed π body → (∀ e, framed π (handler e)) → framed π (try_except body handler).
Proof.
  intros Hb Hh s. rewrite run_try_except. specialize (Hb s).
  destruct (body s) as [s' [e|x]]; [|done].
  etrans; [exact Hb|apply Hh].
Qed.

Lemma framed_try_finally {A} (body : M Σ A) (fin : Σ → Σ) :
  framed π body → (∀ s, frame_rel (π s) (π (fin s))) →
  framed π (try_finally body fin).
Proof.
  intros Hb Hf s. unfold try_finally. specialize (Hb s).
  destruct (body s) as [s' r]. etrans; [exact Hb|apply Hf].
Qed.

Lemma framed_for_each {A} (l : list A) (body : A → M Σ unit) :
  (∀ x, framed π (body x)) → framed π (for_each l body).
Proof.
  intros Hb. induction l as [|x l IH]; [apply framed_ret|].
  apply framed_bind; [apply Hb|done].
Qed.

End frame.

Section frame_manager.
Context `{C : Collaborators}.

Lemma framed_now : framed id now.
Proof. by intros st. Qed.

Lemma frame_rel_log_event ev st : frame_rel st (log_event ev st).
Proof. split; [done|]. by apply prefix_app_r. Qed.

Lemma framed_io_with {A} (oracle : list io_event → exc A) ev failed :
  framed id (io_with oracle ev failed).
Proof.
  intros st. unfold io_with.
  destruct (oracle (io_log st)); apply frame_rel_log_event.
Qed.

Lemma framed_io {A} (oracle : list io_event → exc A) ev :
  framed id (io oracle ev).
Proof. apply framed_io_with. Qed.

Lemma framed_random_image shape : framed id (random_image shape).
Proof. intros st. apply frame_rel_log_event. Qed.

Lemma framed_lift_self {L A} (m : M CalibrationManager A) :
  framed id m → framed (fst : CalibrationManager * L → _) (lift_self m).
Proof.
  intros Hm [st l]. unfold lift_self. specialize (Hm st).
  by destruct (m st) as [st' r].
Qed.

Lemma framed_get_local {L} :
  framed (fst : CalibrationManager * L → _) get_local.
Proof. by intros [st l]. Qed.

Lemma framed_modify_local {L} (f : L → L) :
  framed (fst : CalibrationManager * L → _) (modify_local f).
Proof. by intros [st l]. Qed.

Lemma framed_with_local {L A} (l0 : L) (m : M (CalibrationManager * L) A) :
  framed fst m → framed id (with_local l0 m).
Proof.
  intros Hm st. unfold with_local. specialize (Hm (st, l0)).
  by destruct (m (st, l0)) as [[st' l] r].
Qed.

(** Discharge [framed] goals along the structure of a body. *)
Ltac framed :=
  repeat first
    [ apply framed_ret | apply framed_raise | apply framed_get
    | apply framed_lift_exc | apply framed_now | apply framed_io
    | apply framed_io_with | apply framed_random_image
    | apply framed_get_local | apply framed_modify_local
    | apply framed_modify; intros ?; by split
    | apply framed_lift_self
    | apply framed_with_local
    | apply framed_bind; [|intros ?]
    | apply framed_for_each; intros ?
    | apply framed_try_except; [|intros ?]
    | apply framed_try_finally; [|intros ?; by split]
    | match goal with
      | |- framed _ (match ?x with _ => _ end) => destruct x
      | |- framed _ (let _ := _ in _) => cbv zeta
      end ].

Lemma framed_the_session : framed id the_session.
Proof. unfold the_session. framed. Qed.

Lemma framed_simulate device_id : framed id (_simulate_image_capture device_id).
Proof. unfold _simulate_image_capture, the_session. framed. Qed.

Lemma framed_start device_ids session_name :
  framed id (start_calibration_session device_ids session_name).
Proof. unfold start_calibration_session. framed. Qed.

Lemma framed_capture server : framed id (capture_calibration_frame server).
Proof.
  unfold capture_calibration_frame, _simulate_image_capture, the_session.
  framed.
Qed.

Lemma framed_end : framed id end_calibration_session.
Proof. unfold end_calibration_session. framed. Qed.

End frame_manager.

(** ** Results that outlive a session *)

Lemma persisted_mono log log' r :
  log `prefix_of` log' → persisted log r → persisted log' r.
Proof.
  intros [k ->] [path H]. exists path.
  destruct H; [left|right]; apply elem_of_app; by left.
Qed.

Lemma save_raised_mono log log' r :
  log `prefix_of` log' → save_raised log r → save_raised log' r.
Proof.
  intros [k ->] (path & e & H). exists path, e. apply elem_of_app; by left.
Qed.


#[global] Instance recorded_rel_refl : Reflexive recorded_rel.
Proof. intros st. split; [done|]. intros; by left. Qed.

#[global] Instance recorded_rel_trans : Transitive recorded_rel.
Proof.
  intros st1 st2 st3 [H1 H1'] [H2 H2']. split; [by etrans|].
  intros dev r Hr. destruct (H2' dev r Hr) as [H|H]; [|by right].
  destruct (H1' dev r H) as [?|[?|?]]; [by left|right; left|right; right].
  - by eapply persisted_mono.
  - by eapply save_raised_mono.
Qed.

Lemma frame_recorded st st' : frame_rel st st' → recorded_rel st st'.
Proof.
  intros [Hres Hlog]. split; [done|]. intros dev r Hr. left. congruence.
Qed.

Section recorded.
Context `{C : Collaborators}.

Lemma can_compute_session st device_id dev ready :
  can_compute_calibration st device_id !! dev = Some ready →
  is_Some (current_session st).
Proof.
  unfold can_compute_calibration.
  destruct (current_session st); [eauto|done].
Qed.

(** Storing a result and logging the outcome of its save or load. *)
Lemma recorded_store st st' dev r ev :
  io_log st' = io_log st ++ [ev] →
  calibration_results st' = <[dev := r]> (calibration_results st) →
  (∃ path, ev = EvSaveResult path r ∨ ev = EvLoadResult path (Some r)
           ∨ ∃ e, ev = EvSaveFailed path r e) →
  recorded_rel st st'.
Proof.
  intros Hlog Hres [path Hev]. split.
  { rewrite Hlog. by apply prefix_app_r. }
  intros dev' r' Hr. rewrite Hres in Hr. rewrite Hlog.
  destruct (decide (dev = dev')) as [<-|Hne].
  - rewrite lookup_insert_eq in Hr. injection Hr as <-. right.
    destruct Hev as [-> | [-> | [e ->]]].
    + left. exists path. left. apply elem_of_app. right. by left.
    + left. exists path. right. apply elem_of_app. right. by left.
    + right. exists path, e. apply elem_of_app. right. by left.
  - rewrite lookup_insert_ne in Hr by done. by left.
Qed.

Lemma recorded_calibrate_device dev_id st :
  recorded_rel st (calibrate_device dev_id st).1.
Proof.
  unfold calibrate_device.
  rewrite run_bind_get, run_bind_lift_exc.
  destruct (getitem (can_compute_calibration st (Some dev_id)) dev_id)
    as [e|ready] eqn:Hready; [done|].
  apply getitem_inr, can_compute_session in Hready as [sess Hsess].
  destruct ready; cbn [negb].
  2: { rewrite run_bind_lift_exc.
       by destruct (getitem (capture_count st) dev_id). }
  rewrite run_bind_lift_exc.
  destruct (getitem (captured_images st) dev_id) as [e|frames]; [done|].
  rewrite run_bind.
  destruct (_compute_device_calibration dev_id frames.1 frames.2 st)
    as [st1 [e|r]] eqn:Hsolve;
    apply compute_device_store in Hsolve as ->; [done|].
  destruct (is_valid r); [|done].
  rewrite run_bind_modify.
  unfold _save_calibration_result, the_session.
  rewrite !run_bind_assoc, run_bind_get. cbn [current_session set_calibration_results].
  rewrite Hsess, run_bind_ret, run_bind. unfold io_with.
  cbn [io_log set_calibration_results].
  destruct (save_to_file _ _ _) as [e|u]; cbn [fst];
    (eapply recorded_store; [reflexivity|reflexivity|eauto 6]).
Qed.

Lemma recorded_calibrate_devices devices results st :
  recorded_rel st (calibrate_devices devices results st).1.
Proof.
  revert results st. induction devices as [|dev_id devices IH];
    intros results st; [done|].
  rewrite run_calibrate_devices_cons, run_guarded.
  pose proof (recorded_calibrate_device dev_id st) as Hdev.
  destruct (calibrate_device dev_id st) as [st1 [e|entry]]; cbn [fst] in Hdev;
    (etrans; [exact Hdev|apply IH]).
Qed.

Lemma recorded_compute device_id st :
  recorded_rel st (compute_calibration device_id st).1.
Proof.
  unfold compute_calibration. rewrite run_bind_get.
  destruct (current_session st) as [sess|]; [|done].
  rewrite run_bind.
  pose proof (recorded_calibrate_devices (devices_for device_id sess) ∅ st)
    as Hloop.
  destruct (calibrate_devices _ _ st) as [st1 [e|results]]; [done|].
  by destruct (all_successful results).
Qed.

Lemma recorded_load device_id calibration_file st :
  recorded_rel st (load_calibration_result device_id calibration_file st).1.
Proof.
  unfold load_calibration_result. rewrite run_try_except, run_bind.
  unfold io, io_with.
  destruct (load_from_file (io_log st) calibration_file) as [e|[r|]].
  - apply frame_recorded, frame_rel_log_event.
  - rewrite run_bind_modify.
    eapply recorded_store; [reflexivity|reflexivity|eauto].
  - apply frame_recorded, frame_rel_log_event.
Qed.

Lemma recorded_call st c : recorded_rel st (run_call st c).
Proof.
  destruct c; cbn [run_call].
  - apply frame_recorded, (framed_start _ _ st).
  - apply frame_recorded, (framed_capture _ st).
  - apply recorded_compute.
  - apply recorded_load.
  - apply frame_recorded, (framed_end st).
Qed.

Lemma recorded_calls st calls : recorded_rel st (run_calls st calls).
Proof.
  revert st. induction calls as [|c calls IH]; intros st; [done|].
  etrans; [apply (recorded_call st c)|apply IH].
Qed.

End recorded.

(** ** Ending a session *)

Section end_session.
Context `{C : Collaborators}.

Lemma end_without_session st :
  current_session st = None →
  end_calibration_session st = (st, inr no_session_summary).
Proof.
  intros Hnone. unfold end_calibration_session.
  rewrite run_bind_get, Hnone. reflexivity.
Qed.

Lemma end_with_session st sess :
  current_session st = Some sess →
  json_dump (io_log st)
    (path_join (Session.session_folder sess) "session_info.json")
    (completed sess (isoformat (datetime_now (io_log st)))
       (capture_count st) (dom (calibration_results st))) = inr tt →
  end_calibration_session st
  = (ended st (path_join (Session.session_folder sess) "session_info.json")
       (completed sess (isoformat (datetime_now (io_log st)))
          (capture_count st) (dom (calibration_results st))),
     inr (SessionSummary.mk true None
            (Some (Session.session_name sess))
            (Some (capture_count st))
            (Some (dom (calibration_results st)))
            (Some (Session.session_folder sess)))).
Proof.
  intros Hsess Hdump. unfold end_calibration_session.
  rewrite run_bind_get, Hsess, run_bind_now, run_bind_modify, run_bind.
  unfold io, io_with. cbn [io_log set_current_session Session.session_folder].
  fold (completed sess (isoformat (datetime_now (io_log st)))
          (capture_count st) (dom (calibration_results st))).
  rewrite Hdump. reflexivity.
Qed.

End end_session.


(** ** Relations kept along a method body *)

#[global] Instance agree_refl {T} (f : CalibrationManager → T) :
  Reflexive (agree f).
Proof. by intros st. Qed.

#[global] Instance agree_trans {T} (f : CalibrationManager → T) :
  Transitive (agree f).
Proof. unfold agree. intros st1 st2 st3 H1 H2. congruence. Qed.

#[global] Instance carries_refl P : Reflexive (carries P).
Proof. intros st H. exact H. Qed.

#[global] Instance carries_trans P : Transitive (carries P).
Proof. unfold carries. intros st1 st2 st3 H1 H2 H. auto. Qed.

Section keeps.
Context (R : relation CalibrationManager) `{!Reflexive R, !Transitive R}.
Context {Σ : Type} (π : Σ → CalibrationManager).
Local Set Default Proof Using "All".

Lemma keeps_ret {A} (x : A) : keeps R π (mret x).
Proof. intros s. reflexivity. Qed.

Lemma keeps_raise {A} (e : exn) : keeps R π (raise e : M Σ A).
Proof. intros s. reflexivity. Qed.

Lemma keeps_get : keeps R π get.
Proof. intros s. reflexivity. Qed.

Lemma keeps_lift_exc {A} (x : exc A) : keeps R π (lift_exc x).
Proof. intros s. reflexivity. Qed.

Lemma keeps_modify (f : Σ → Σ) :
  (∀ s, R (π s) (π (f s))) → keeps R π (modify f).
Proof. intros Hf s. apply Hf. Qed.

Lemma keeps_bind {A B} (m : M Σ A) (f : A → M Σ B) :
  keeps R π m → (∀ x, keeps R π (f x)) → keeps R π (m ≫= f).
Proof.
  intros Hm Hf s. rewrite run_bind. specialize (Hm s).
  destruct (m s) as [s' [e|x]]; [exact Hm|].
  etrans; [exact Hm|apply Hf].
Qed.

Lemma keeps_try_except {A} (body : M Σ A) (handler : exn → M Σ A) :
  keeps R π body → (∀ e, keeps R π (handler e)) →
  keeps R π (try_except body handler).
Proof.
  intros Hb Hh s. rewrite run_try_except. specialize (Hb s).
  destruct (body s) as [s' [e|x]]; [|exact Hb].
  etrans; [exact Hb|apply Hh].
Qed.

Lemma keeps_try_finally {A} (body : M Σ A) (fin : Σ → Σ) :
  keeps R π body → (∀ s, R (π s) (π (fin s))) →
  keeps R π (try_finally body fin).
Proof.
  intros Hb Hf s. unfold try_finally. specialize (Hb s).
  destruct (body s) as [s' r]. etrans; [exact Hb|apply Hf].
Qed.

Lemma keeps_for_each {A} (l : list A) (body : A → M Σ unit) :
  (∀ x, keeps R π (body x)) → keeps R π (for_each l body).
Proof.
  intros Hb. induction l as [|x l IH]; [apply keeps_ret|].
  apply keeps_bind; [apply Hb|intros; exact IH].
Qed.

End keeps.

(** Apply a lemma on [keeps]; the order instances are found afterwards. *)
Ltac kapply lem := apply lem; try (solve [apply _]).

Section keeps_manager.
Context `{C : Collaborators}.
Context (R : relation CalibrationManager) `{!Reflexive R, !Transitive R}.
Local Set Default Proof Using "All".

Lemma keeps_reads_only {A} (m : M CalibrationManager A) :
  reads_only m → keeps R id m.
Proof. intros Hm st. unfold id. rewrite Hm. reflexivity. Qed.

Lemma keeps_lift_self {L A} (m : M CalibrationManager A) :
  keeps R id m → keeps R (fst : CalibrationManager * L → _) (lift_self m).
Proof.
  intros Hm [st l]. unfold lift_self. specialize (Hm st).
  destruct (m st) as [st' r]. exact Hm.
Qed.

Lemma keeps_get_local {L} :
  keeps R (fst : CalibrationManager * L → _) get_local.
Proof. intros [st l]. reflexivity. Qed.

Lemma keeps_modify_local {L} (f : L → L) :
  keeps R (fst : CalibrationManager * L → _) (modify_local f).
Proof. intros [st l]. reflexivity. Qed.

Lemma keeps_with_local {L A} (l0 : L) (m : M (CalibrationManager * L) A) :
  keeps R fst m → keeps R id (with_local l0 m).
Proof.
  intros Hm st. unfold with_local. specialize (Hm (st, l0)).
  destruct (m (st, l0)) as [[st' l] r]. exact Hm.
Qed.

(** The relation does not look at the history. *)
Context (Hlog : ∀ ev st, R st (log_event ev st)).

Lemma keeps_now : keeps R id now.
Proof. intros st. reflexivity. Qed.

Lemma keeps_io_with {A} (oracle : list io_event → exc A) ev failed :
  keeps R id (io_with oracle ev failed).
Proof.
  intros st. unfold io_with. destruct (oracle (io_log st)); apply Hlog.
Qed.

Lemma keeps_io {A} (oracle : list io_event → exc A) ev :
  keeps R id (io oracle ev).
Proof. apply keeps_io_with. Qed.

Lemma keeps_random_image shape : keeps R id (random_image shape).
Proof. intros st. apply Hlog. Qed.

Lemma keeps_the_session : keeps R id the_session.
Proof.
  unfold the_session. kapply keeps_bind; [kapply keeps_get|intros st].
  destruct (current_session st); [kapply keeps_ret|kapply keeps_raise].
Qed.

End keeps_manager.

(** Discharge [keeps] goals along the structure of a body; what is left
    are the assignments to the store and the calls of other methods. *)
Ltac keeps_step :=
  lazymatch goal with
  | |- keeps _ _ (mret _) => kapply keeps_ret
  | |- keeps _ _ (raise _) => kapply keeps_raise
  | |- keeps _ _ get => kapply keeps_get
  | |- keeps _ _ (lift_exc _) => kapply keeps_lift_exc
  | |- keeps _ _ now => kapply keeps_now; assumption
  | |- keeps _ _ (io _ _) => kapply keeps_io; assumption
  | |- keeps _ _ (io_with _ _ _) => kapply keeps_io_with; assumption
  | |- keeps _ _ (random_image _) => kapply keeps_random_image; assumption
  | |- keeps _ _ the_session => kapply keeps_the_session; assumption
  | |- keeps _ _ get_local => kapply keeps_get_local
  | |- keeps _ _ (modify_local _) => kapply keeps_modify_local
  | |- keeps _ _ (lift_self _) => kapply keeps_lift_self
  | |- keeps _ _ (with_local _ _) => kapply keeps_with_local
  | |- keeps _ _ (_ ≫= _) => kapply keeps_bind; [|intros ?]
  | |- keeps _ _ (for_each _ _) => kapply keeps_for_each; intros ?
  | |- keeps _ _ (try_except _ _) => kapply keeps_try_except; [|intros ?]
  | |- keeps _ _ (try_finally _ _) => kapply keeps_try_finally; [|intros ?]
  | |- keeps _ _ (modify _) => kapply keeps_modify; intros ?
  | |- keeps _ _ (match ?x with _ => _ end) => destruct x
  | |- keeps _ _ (let _ := _ in _) => cbv zeta
  end.

Ltac keeps := repeat keeps_step.

(** * Further properties of the manager *)

(** ** Readiness *)

Section readiness.
Context `{C : Collaborators}.

Lemma readiness_fold {V} (g : string → V) devices (acc : gmap string V) d :
  foldl (λ readiness dev_id, <[dev_id := g dev_id]> readiness) acc devices !! d
  = if decide (d ∈ devices) then Some (g d) else acc !! d.
Proof.
  revert acc. induction devices as [|x l IH]; intros acc; [done|].
  cbn [foldl]. rewrite IH.
  destruct (decide (d ∈ l)) as [Hl|Hl].
  - rewrite decide_True; [done|]. by right.
  - destruct (decide (d = x)) as [->|Hne].
    + rewrite decide_True by left. by rewrite lookup_insert_eq.
    + rewrite decide_False.
      * by rewrite lookup_insert_ne.
      * by intros [?|?]%elem_of_cons.
Qed.

Lemma can_compute_lookup st device_id sess d ready :
  current_session st = Some sess →
  (can_compute_calibration st device_id !! d = Some ready ↔
   d ∈ devices_for device_id sess ∧
   (ready = true ↔ min_images st ≤ default 0 (capture_count st !! d))).
Proof.
  unfold can_compute_calibration. intros ->.
  rewrite (readiness_fold
             (λ dev_id, bool_decide
                          (min_images st ≤ default 0 (capture_count st !! dev_id)))).
  destruct (decide (d ∈ devices_for device_id sess)) as [Hin|Hin].
  - split.
    + intros [= <-]. split; [done|]. by rewrite bool_decide_eq_true.
    + intros [_ Hready]. f_equal.
      destruct ready; [by apply bool_decide_eq_true, Hready|].
      apply bool_decide_eq_false. intros Hle. by apply Hready in Hle.
  - rewrite lookup_empty. split; [done|]. by intros [? _].
Qed.

(** X1: [can_compute_calibration] answers for exactly the requested devices
    (all devices of the session when none is named); a device is ready
    exactly when its counter, zero when it has none, has reached
    [min_images].  Without a session the answer is empty. *)
Theorem can_compute_calibration_spec st device_id :
  (current_session st = None → can_compute_calibration st device_id = ∅) ∧
  (∀ sess d ready,
     current_session st = Some sess →
     (can_compute_calibration st device_id !! d = Some ready ↔
      d ∈ devices_for device_id sess ∧
      (ready = true ↔ min_images st ≤ default 0 (capture_count st !! d)))).
Proof.
  split.
  - unfold can_compute_calibration. by intros ->.
  - intros sess d ready. apply can_compute_lookup.
Qed.

End readiness.

Lemma can_compute_calibration_spec_witness :
  can_compute_calibration Bench.after_ten_captures None !! "A" = Some true ↔
  "A" ∈ devices_for None Bench.session_s ∧
  (true = true ↔
   min_images Bench.after_ten_captures
   ≤ default 0 (capture_count Bench.after_ten_captures !! "A")).
Proof.
  apply (proj2 (can_compute_calibration_spec Bench.after_ten_captures None)).
  vm_compute. reflexivity.
Defined.

(** ** Starting a session *)

Section starting.
Context `{C : Collaborators}.

(** The loop of [start_calibration_session], with all it leaves alone. *)
Lemma start_loop_store device_ids st :
  ∃ st',
    for_each device_ids (λ device_id,
      modify (λ st, set_captured_images
                      (<[device_id := ([], [])]> (captured_images st)) st);;
      modify (λ st, set_capture_count
                      (<[device_id := 0]> (capture_count st)) st)) st
    = (st', inr tt) ∧
    current_session st' = current_session st ∧
    calibration_results st' = calibration_results st ∧
    is_capturing st' = is_capturing st ∧
    settings st' = settings st ∧
    io_log st' = io_log st ∧
    (∀ d, d ∈ device_ids →
       capture_count st' !! d = Some 0 ∧
       captured_images st' !! d = Some ([], [])) ∧
    (∀ d, d ∉ device_ids →
       capture_count st' !! d = capture_count st !! d ∧
       captured_images st' !! d = captured_images st !! d).
Proof.
  revert st. induction device_ids as [|x l IH]; intros st.
  - exists st. do 6 (split; [done|]).
    split; [by intros d Hd%elem_of_nil|done].
  - cbn [for_each]. rewrite run_bind_assoc, run_bind_modify, run_bind_modify.
    match goal with
    | |- context [for_each l _ ?s] =>
        destruct (IH s)
          as (st' & -> & Hsess & Hres & Hcap & Hset & Hlog & Hin & Hout)
    end.
    exists st'. do 6 (split; [done|]). split.
    + intros d Hd. destruct (decide (d ∈ l)) as [Hl|Hl]; [by apply Hin|].
      apply elem_of_cons in Hd as [->|Hd]; [|done].
      destruct (Hout x Hl) as [-> ->]. cbn.
      by rewrite !lookup_insert_eq.
    + intros d [Hx Hl]%not_elem_of_cons.
      destruct (Hout d Hl) as [-> ->]. cbn.
      by rewrite !lookup_insert_ne.
Qed.

(** The store after a start that meets no obstacle. *)
Lemma start_resets_listed_devices_store device_ids session_name st :
  is_capturing st = false →
  (∀ h path, path_mkdir h path = inr tt) →
  (∀ h path content, json_dump h path content = inr tt) →
  ∃ st' sess,
    start_calibration_session device_ids session_name st = (st', inr sess) ∧
    current_session st' = Some sess ∧
    Session.device_ids sess = device_ids ∧
    (∀ d, d ∈ device_ids →
       capture_count st' !! d = Some 0 ∧
       captured_images st' !! d = Some ([], [])) ∧
    (∀ d, d ∉ device_ids →
       capture_count st' !! d = capture_count st !! d ∧
       captured_images st' !! d = captured_images st !! d) ∧
    calibration_results st' = calibration_results st ∧
    is_capturing st' = false ∧
    settings st' = settings st.
Proof.
  intros Hcap Hmkdir Hdump. unfold start_calibration_session.
  rewrite run_bind_get, Hcap, run_bind_now, run_bind.
  unfold io, io_with. rewrite Hmkdir, run_bind_modify, run_bind.
  match goal with
  | |- context [for_each device_ids ?body ?s] =>
      destruct (start_loop_store device_ids s)
        as (st1 & -> & Hsess & Hres & Hflag & Hset & Hlog & Hin & Hout)
  end.
  rewrite run_bind, Hdump, run_ret.
  eexists _, _. split; [reflexivity|]. cbn in *.
  rewrite Hsess. do 2 (split; [done|]).
  split; [done|]. split; [done|]. split; [done|]. split; [congruence|done].
Qed.

(** X2: when no capture cycle is in flight and the directory and the metadata
    file can be written, [start_calibration_session] returns the new
    session.  The devices it lists get empty frame buffers and a zero
    counter.  Devices it does not list keep the frames and the counter
    they had: without an [end] in between, what an earlier session
    captured for them stays in memory.  Results and settings are kept. *)
Theorem start_resets_listed_devices device_ids session_name st :
  is_capturing st = false →
  (∀ h path, path_mkdir h path = inr tt) →
  (∀ h path content, json_dump h path content = inr tt) →
  ∃ st' sess,
    start_calibration_session device_ids session_name st = (st', inr sess) ∧
    current_session st' = Some sess ∧
    Session.device_ids sess = device_ids ∧
    Session.status sess = "active" ∧
    (∀ d, d ∈ device_ids →
       capture_count st' !! d = Some 0 ∧
       captured_images st' !! d = Some ([], [])) ∧
    (∀ d, d ∉ device_ids →
       capture_count st' !! d = capture_count st !! d ∧
       captured_images st' !! d = captured_images st !! d) ∧
    calibration_results st' = calibration_results st ∧
    is_capturing st' = false ∧
    settings st' = settings st.
Proof.
  intros Hcap Hmkdir Hdump. unfold start_calibration_session.
  rewrite run_bind_get, Hcap, run_bind_now, run_bind.
  unfold io, io_with. rewrite Hmkdir, run_bind_modify, run_bind.
  match goal with
  | |- context [for_each device_ids ?body ?s] =>
      destruct (start_loop_store device_ids s)
        as (st1 & -> & Hsess & Hres & Hflag & Hset & Hlog & Hin & Hout)
  end.
  rewrite run_bind, Hdump, run_ret.
  eexists _, _. split; [reflexivity|]. cbn in *.
  rewrite Hsess. do 3 (split; [done|]).
  split; [done|]. split; [done|]. split; [done|]. split; [congruence|done].
Qed.

(** X3: how a start fails.  While a capture cycle is in flight it raises and
    changes nothing.  When the session directory cannot be created it
    raises and only the history records the attempt.  When the directory
    exists but the metadata cannot be written it raises as well, yet the
    new session is already installed and the counters of its devices are
    already zero. *)
Theorem start_failures device_ids session_name st e :
  (is_capturing st = true →
     start_calibration_session device_ids session_name st
     = (st, inl session_conflict)) ∧
  (is_capturing st = false →
   (∀ h path, path_mkdir h path = inl e) →
     start_calibration_session device_ids session_name st
     = (log_event (EvRaised e) st, inl e)) ∧
  (is_capturing st = false →
   (∀ h path, path_mkdir h path = inr tt) →
   (∀ h path content, json_dump h path content = inl e) →
     ∃ st' sess,
       start_calibration_session device_ids session_name st = (st', inl e) ∧
       current_session st' = Some sess ∧
       Session.device_ids sess = device_ids ∧
       ∀ d, d ∈ device_ids → capture_count st' !! d = Some 0).
Proof.
  split; [apply start_raises_when_capturing|]. split.
  - intros Hcap Hmkdir. unfold start_calibration_session.
    rewrite run_bind_get, Hcap, run_bind_now, run_bind.
    unfold io, io_with. by rewrite Hmkdir.
  - intros Hcap Hmkdir Hdump. unfold start_calibration_session.
    rewrite run_bind_get, Hcap, run_bind_now, run_bind.
    unfold io, io_with. rewrite Hmkdir, run_bind_modify, run_bind.
    match goal with
    | |- context [for_each device_ids ?body ?s] =>
        destruct (start_loop_store device_ids s)
          as (st1 & -> & Hsess & _ & _ & _ & _ & Hin & _)
    end.
    rewrite run_bind, Hdump.
    eexists _, _. split; [reflexivity|]. cbn in *.
    rewrite Hsess. split; [done|]. split; [done|].
    intros d Hd. by apply Hin.
Qed.

(** X4: right after a start that returned, no device of the new session is
    ready, provided the minimum is positive. *)
Theorem not_ready_after_start device_ids session_name st st' sess :
  start_calibration_session device_ids session_name st = (st', inr sess) →
  0 < min_images st →
  ∀ d, d ∈ device_ids →
    can_compute_calibration st' None !! d = Some false.
Proof.
  intros Hstart Hmin d Hd.
  (* the run, step by step *)
  unfold start_calibration_session in Hstart.
  rewrite run_bind_get in Hstart.
  destruct (is_capturing st); [done|].
  rewrite run_bind_now, run_bind in Hstart. unfold io, io_with in Hstart.
  destruct (path_mkdir _ _) as [e|u]; [done|].
  rewrite run_bind_modify, run_bind in Hstart.
  match type of Hstart with
  | context [for_each device_ids ?body ?s] =>
      destruct (start_loop_store device_ids s)
        as (st1 & Hloop & Hsess & _ & _ & Hset & _ & Hin & _)
  end.
  rewrite Hloop, run_bind in Hstart.
  destruct (json_dump _ _ _) as [e|u']; [done|].
  rewrite run_ret in Hstart. injection Hstart as <- <-.
  apply (can_compute_lookup _ None _ d false
           ltac:(cbn; rewrite Hsess; reflexivity)).
  split; [done|]. cbn [capture_count log_event min_images].
  destruct (Hin d Hd) as [-> _].
  assert (min_images st1 = min_images st) as -> by (by injection Hset).
  cbn. split; [done|lia].
Qed.

End starting.

Lemma start_resets_listed_devices_witness :
  ∃ st' sess,
    start_calibration_session (C := Bench.nominal) ["A"] (Some "t")
      Bench.after_one_capture = (st', inr sess) ∧
    current_session st' = Some sess ∧
    Session.device_ids sess = ["A"] ∧
    Session.status sess = "active" ∧
    (∀ d, d ∈ ["A"] →
       capture_count st' !! d = Some 0 ∧
       captured_images st' !! d = Some ([], [])) ∧
    (∀ d, d ∉ ["A"] →
       capture_count st' !! d = capture_count Bench.after_one_capture !! d ∧
       captured_images st' !! d
       = captured_images Bench.after_one_capture !! d) ∧
    calibration_results st' = calibration_results Bench.after_one_capture ∧
    is_capturing st' = false ∧
    settings st' = settings Bench.after_one_capture.
Proof.
  apply (start_resets_listed_devices (C := Bench.nominal)).
  - reflexivity.
  - intros; reflexivity.
  - intros; reflexivity.
Defined.

(** The device B of the first session keeps its counter through the
    second start, which lists A alone. *)
Example stale_counter_after_restart :
  capture_count
    (Bench.state_after
       (start_calibration_session (C := Bench.nominal) ["A"] (Some "t")
          Bench.after_one_capture)) !! "B" = Some 1.
Proof. vm_compute. reflexivity. Qed.

Lemma start_failures_witness :
  start_calibration_session (C := Bench.nominal) ["A"] None Bench.in_flight
    = (Bench.in_flight, inl session_conflict) ∧
  start_calibration_session (C := Bench.no_directory) ["A"] None Bench.fresh
    = (log_event (EvRaised Bench.permission_denied) Bench.fresh,
       inl Bench.permission_denied) ∧
  ∃ st' sess,
    start_calibration_session (C := Bench.no_metadata) ["A"] None Bench.fresh
      = (st', inl Bench.permission_denied) ∧
    current_session st' = Some sess ∧
    Session.device_ids sess = ["A"] ∧
    ∀ d, d ∈ ["A"] → capture_count st' !! d = Some 0.
Proof.
  split; [|split].
  - apply (proj1 (start_failures (C := Bench.nominal) ["A"] None
                    Bench.in_flight Bench.permission_denied)).
    reflexivity.
  - apply (proj1 (proj2 (start_failures (C := Bench.no_directory) ["A"] None
                           Bench.fresh Bench.permission_denied)));
      [reflexivity|intros; reflexivity].
  - apply (proj2 (proj2 (start_failures (C := Bench.no_metadata) ["A"] None
                           Bench.fresh Bench.permission_denied)));
      [reflexivity|intros; reflexivity|intros; reflexivity].
Defined.

Lemma not_ready_after_start_witness :
  can_compute_calibration Bench.active None !! "B" = Some false.
Proof.
  apply (not_ready_after_start (C := Bench.nominal) ["A"; "B"] (Some "s")
           Bench.fresh Bench.active Bench.session_s).
  - vm_compute. reflexivity.
  - vm_compute. repeat constructor.
  - right. left.
Defined.

(** ** Capture cycles *)

Section capturing.
Context `{C : Collaborators}.

Lemma agree_log_event {T} (f : CalibrationManager → T) :
  (∀ ev st, f (log_event ev st) = f st) →
  ∀ ev st, agree f st (log_event ev st).
Proof. intros Hf ev st. apply Hf. Qed.

(** A capture cycle leaves the session dictionary, the result map and
    the settings alone, whatever happens in it. *)
Lemma capture_keeps_beyond server :
  keeps (agree beyond_capture) id (capture_calibration_frame server).
Proof.
  pose proof (agree_log_event beyond_capture (λ _ _, eq_refl)) as Hlog.
  unfold capture_calibration_frame, _simulate_image_capture.
  keeps; reflexivity.
Qed.

(** Past its guards a capture cycle returns, and releases the flag. *)
Lemma capture_outcome server st st' out :
  capture_calibration_frame server st = (st', out) →
  is_Some (current_session st) → is_capturing st = false →
  (∃ res, out = inr res) ∧ is_capturing st' = false.
Proof.
  intros Hrun [sess Hsess] Hcap. unfold capture_calibration_frame in Hrun.
  rewrite run_bind_get, Hsess, Hcap, run_bind_modify in Hrun.
  unfold try_finally, with_local in Hrun. rewrite run_try_except in Hrun.
  match type of Hrun with
  | context [match ?body ?s with _ => _ end] =>
      destruct (body s) as [[st1 l] [e|res]]
  end; cbn in Hrun; injection Hrun as <- <-; eauto.
Qed.

(** X5: with a session active and no capture in flight, a capture cycle
    always returns an answer: every exception of the device server, of
    the file system or of a missing buffer is caught.  Afterwards no
    capture is in flight, and the session dictionary, the result map and
    the settings are what they were. *)
Theorem capture_returns_and_releases server st :
  is_Some (current_session st) → is_capturing st = false →
  ∃ st' res,
    capture_calibration_frame server st = (st', inr res) ∧
    is_capturing st' = false ∧
    current_session st' = current_session st ∧
    calibration_results st' = calibration_results st ∧
    settings st' = settings st.
Proof.
  intros Hsess Hcap.
  destruct (capture_calibration_frame server st) as [st' out] eqn:Hrun.
  destruct (capture_outcome _ _ _ _ Hrun Hsess Hcap) as [[res ->] Hflag].
  pose proof (capture_keeps_beyond server st) as Hkeep.
  rewrite Hrun in Hkeep. unfold agree, beyond_capture, id in Hkeep.
  cbn [fst] in Hkeep.
  pose proof (f_equal (λ v, v.1.1) Hkeep) as H1.
  pose proof (f_equal (λ v, v.1.2) Hkeep) as H2.
  pose proof (f_equal snd Hkeep) as H3. cbn in H1, H2, H3.
  eexists _, _. by repeat (split; [done|]).
Qed.

(** A cycle without a device server. *)
Lemma serverless_cycle st :
  is_Some (current_session st) → is_capturing st = false →
  capture_calibration_frame None st = (st, inr (capture_failed no_server)).
Proof.
  intros [sess Hsess] Hcap. destruct st. cbn in Hsess, Hcap. subst.
  reflexivity.
Qed.

(** X6: without a device server the cycle fails before any device is asked:
    the answer says so, and the store is exactly what it was.  (The
    self-test at the end of the module calls the operation this way.) *)
Theorem capture_without_server st :
  is_Some (current_session st) → is_capturing st = false →
  capture_calibration_frame None st = (st, inr (capture_failed no_server)).
Proof. apply serverless_cycle. Qed.

End capturing.

Lemma capture_returns_and_releases_witness :
  ∃ st' res,
    capture_calibration_frame (C := Bench.nominal) (Some Bench.server)
      Bench.active = (st', inr res) ∧
    is_capturing st' = false ∧
    current_session st' = current_session Bench.active ∧
    calibration_results st' = calibration_results Bench.active ∧
    settings st' = settings Bench.active.
Proof.
  apply (capture_returns_and_releases (C := Bench.nominal)).
  - eexists. vm_compute. reflexivity.
  - reflexivity.
Defined.

Lemma capture_without_server_witness :
  capture_calibration_frame (C := Bench.nominal) None Bench.active
  = (Bench.active, inr (capture_failed no_server)).
Proof.
  apply (capture_without_server (C := Bench.nominal)).
  - eexists. vm_compute. reflexivity.
  - reflexivity.
Defined.

(** ** Frame buffers and counters *)

Section buffers.
Context `{C : Collaborators}.

(** What the simulated capture of a device does to the store: without
    frame buffers for the device it raises and only the history grows;
    otherwise one frame is appended to each buffer of the device, and
    nothing else but the history changes, whether the rest returns or
    raises. *)
Lemma simulate_effect device_id st st' out :
  _simulate_image_capture device_id st = (st', out) →
  (captured_images st !! device_id = None ∧ out = inl (KeyError device_id) ∧
   memory st' = memory st)
  ∨ (∃ rgb thermal rgb_image thermal_image,
       captured_images st !! device_id = Some (rgb, thermal) ∧
       captured_images st'
       = <[device_id := (rgb ++ [rgb_image], thermal ++ [thermal_image])]>
           (captured_images st) ∧
       beyond_buffers st' = beyond_buffers st).
Proof.
  unfold _simulate_image_capture.
  rewrite !run_bind_random, run_bind_get, run_bind_lift_exc.
  cbn [captured_images log_event].
  unfold getitem at 1.
  destruct (captured_images st !! device_id) as [[rgb thermal]|] eqn:Hbuf.
  2: { intros [= <- <-]. by left. }
  rewrite run_bind_modify, run_bind_get, run_bind_lift_exc.
  cbn [captured_images set_captured_images log_event fst snd].
  unfold getitem at 1. rewrite lookup_insert_eq.
  rewrite run_bind_modify. cbn [fst snd].
  match goal with
  | |- ?rest ?s = _ → _ =>
      assert (keeps (agree memory) id rest) as Hk;
        [|specialize (Hk s); intros Hrun; rewrite Hrun in Hk]
  end.
  { pose proof (agree_log_event memory (λ _ _, eq_refl)) as Hlog.
    keeps; reflexivity. }
  unfold agree, id in Hk.
  pose proof (f_equal (λ v, v.1.1.1.1.2) Hk) as Himg.
  cbn in Himg. rewrite insert_insert_eq in Himg.
  right. exists rgb, thermal. eexists _, _. split; [done|].
  split; [exact Himg|].
  unfold memory, session_state, beyond_buffers, settings in *.
  cbn in Hk. congruence.
Qed.

Lemma buffers_inv_ext st st' :
  captured_images st' = captured_images st →
  capture_count st' = capture_count st →
  buffers_inv st → buffers_inv st'.
Proof.
  unfold buffers_inv, buffers_aligned, counters_bounded.
  intros -> ->. done.
Qed.

(** Appending a frame to each buffer of a device keeps the invariant and
    leaves room for one more count. *)
Lemma buffers_inv_append d rgb thermal rgb_image thermal_image st st' :
  captured_images st !! d = Some (rgb, thermal) →
  captured_images st'
  = <[d := (rgb ++ [rgb_image], thermal ++ [thermal_image])]>
      (captured_images st) →
  capture_count st' = capture_count st →
  buffers_inv st → buffers_inv st' ∧ counter_below d st'.
Proof.
  intros Hbuf Himg Hcount [Hal Hbd].
  pose proof (Hal d rgb thermal Hbuf) as Hlen.
  split; [split|].
  - intros d' rgb' thermal'. rewrite Himg.
    destruct (decide (d = d')) as [<-|Hne].
    + rewrite lookup_insert_eq. intros [= <- <-].
      rewrite !length_app. cbn. lia.
    + rewrite lookup_insert_ne by done. apply Hal.
  - intros d' c. rewrite Hcount, Himg. intros Hc.
    destruct (Hbd d' c Hc) as (rgb' & thermal' & Hbuf' & Hle).
    destruct (decide (d = d')) as [<-|Hne].
    + rewrite lookup_insert_eq. eexists _, _. split; [done|].
      rewrite length_app. cbn. simplify_eq. lia.
    + rewrite lookup_insert_ne by done. eauto.
  - intros c. rewrite Hcount, Himg, lookup_insert_eq. intros Hc.
    destruct (Hbd d c Hc) as (rgb' & thermal' & Hbuf' & Hle).
    eexists _, _. split; [done|].
    rewrite length_app. cbn. simplify_eq. lia.
Qed.

(** Counting the appended frame keeps the invariant. *)
Lemma buffers_inv_count d n st :
  capture_count st !! d = Some n →
  buffers_inv st → counter_below d st →
  buffers_inv (set_capture_count (<[d := n + 1]> (capture_count st)) st).
Proof.
  intros Hn [Hal Hbd] Hbelow. split; [exact Hal|].
  intros d' c. cbn.
  destruct (decide (d = d')) as [<-|Hne].
  - rewrite lookup_insert_eq. intros [= <-].
    destruct (Hbelow n Hn) as (rgb & thermal & Hbuf & Hlt).
    eexists _, _. split; [done|]. lia.
  - rewrite lookup_insert_ne by done. apply Hbd.
Qed.

Lemma carries_log_event (P : CalibrationManager → Prop) :
  (∀ ev st, P st → P (log_event ev st)) →
  ∀ ev st, carries P st (log_event ev st).
Proof. intros HP ev st H. by apply HP. Qed.

Lemma buffers_inv_log_event ev st :
  buffers_inv st → buffers_inv (log_event ev st).
Proof. by apply buffers_inv_ext. Qed.

(** One device of a capture cycle keeps the invariant, wherever it
    stops. *)
Lemma capture_device_inv device_id :
  keeps (carries buffers_inv) fst (capture_device device_id).
Proof.
  pose proof (carries_log_event buffers_inv buffers_inv_log_event) as Hlog.
  intros [st l] Hinv. cbn [fst] in Hinv.
  unfold capture_device. rewrite run_lift_self.
  destruct (_simulate_image_capture device_id st) as [st1 out] eqn:Hsim.
  apply simulate_effect in Hsim
    as [(Hnone & -> & Hmem) | (rgb & th & i1 & i2 & Hbuf & Himg & Hrest)].
  { cbn. unfold memory, session_state in Hmem.
    eapply buffers_inv_ext; [| |exact Hinv]; congruence. }
  assert (capture_count st1 = capture_count st) as Hcount
    by (unfold beyond_buffers in Hrest; congruence).
  destruct (buffers_inv_append _ _ _ _ _ _ _ Hbuf Himg Hcount Hinv)
    as [Hinv1 Hbelow].
  destruct out as [e|success]; [exact Hinv1|].
  destruct success.
  - rewrite run_bind_assoc, run_lift_self. cbn [get].
    rewrite run_bind_assoc, run_bind_lift_exc.
    destruct (getitem (capture_count st1) device_id) as [e|n] eqn:Hn;
      [exact Hinv1|].
    apply getitem_inr in Hn.
    rewrite run_bind_assoc, run_lift_self. cbn [modify].
    match goal with
    | |- context [?rest (?s, l)] =>
        lazymatch rest with
        | mbind _ _ =>
            assert (keeps (carries buffers_inv) fst rest) as Hk
              by (keeps; reflexivity);
            specialize (Hk (s, l)); cbn [fst] in Hk; apply Hk
        end
    end.
    by apply buffers_inv_count.
  - match goal with
    | |- context [?rest (st1, l)] =>
        lazymatch rest with
        | mbind _ _ =>
            assert (keeps (carries buffers_inv) fst rest) as Hk
              by (keeps; reflexivity);
            specialize (Hk (st1, l)); cbn [fst] in Hk; by apply Hk
        end
    end.
Qed.

End buffers.

(** ** The frame buffers and the counters across calls *)

Section invariant.
Context `{C : Collaborators}.

Lemma agree_carries st st' :
  agree beyond_results st st' → carries buffers_inv st st'.
Proof.
  unfold agree, beyond_results, session_state. intros Heq Hinv.
  eapply buffers_inv_ext; [| |exact Hinv]; congruence.
Qed.

Lemma keeps_agree_carries {A} (m : M CalibrationManager A) :
  keeps (agree beyond_results) id m → keeps (carries buffers_inv) id m.
Proof. intros Hm st. apply agree_carries, Hm. Qed.

(** One device of the loop of [start_calibration_session]. *)
Lemma start_device_inv device_id :
  keeps (carries buffers_inv) id
    (modify (λ st, set_captured_images
                     (<[device_id := ([], [])]> (captured_images st)) st);;
     modify (λ st, set_capture_count
                     (<[device_id := 0]> (capture_count st)) st)).
Proof.
  intros st [Hal Hbd]. rewrite run_bind_modify. cbn. split.
  - intros d rgb thermal. cbn.
    destruct (decide (device_id = d)) as [<-|Hne].
    + rewrite lookup_insert_eq. by intros [= <- <-].
    + rewrite lookup_insert_ne by done. apply Hal.
  - intros d c. cbn.
    destruct (decide (device_id = d)) as [<-|Hne].
    + rewrite !lookup_insert_eq. intros [= <-]. eexists _, _.
      split; [done|]. cbn. lia.
    + rewrite !lookup_insert_ne by done. apply Hbd.
Qed.

Lemma start_inv device_ids session_name :
  keeps (carries buffers_inv) id
    (start_calibration_session device_ids session_name).
Proof.
  pose proof (carries_log_event buffers_inv buffers_inv_log_event) as Hlog.
  unfold start_calibration_session.
  repeat lazymatch goal with
         | |- keeps _ _ (for_each _ _) =>
             kapply keeps_for_each; intros ?; apply start_device_inv
         | |- _ => keeps_step
         end.
  intros Hinv. eapply buffers_inv_ext; [| |exact Hinv]; reflexivity.
Qed.

Lemma capture_inv server :
  keeps (carries buffers_inv) id (capture_calibration_frame server).
Proof.
  pose proof (carries_log_event buffers_inv buffers_inv_log_event) as Hlog.
  unfold capture_calibration_frame.
  repeat lazymatch goal with
         | |- keeps _ _ (for_each _ _) =>
             kapply keeps_for_each; intros ?; exact (capture_device_inv _)
         | |- _ => keeps_step
         end;
    intros Hinv; (eapply buffers_inv_ext; [| |exact Hinv]; reflexivity).
Qed.

(** [end_calibration_session] leaves the buffers and the counters as
    they are, or clears both. *)
Lemma end_buffers st :
  let st' := (end_calibration_session st).1 in
  (captured_images st' = captured_images st ∧
   capture_count st' = capture_count st)
  ∨ (captured_images st' = ∅ ∧ capture_count st' = ∅).
Proof.
  unfold end_calibration_session. rewrite run_bind_get.
  destruct (current_session st) as [sess|]; [|by left].
  rewrite run_bind_now, run_bind_modify, run_bind.
  unfold io, io_with. cbn [io_log set_current_session].
  match goal with
  | |- context [json_dump ?h ?p ?c] => destruct (json_dump h p c) as [e|[]]
  end; cbn; [by left|by right].
Qed.

Lemma end_inv : keeps (carries buffers_inv) id end_calibration_session.
Proof.
  intros st Hinv. cbn [id].
  destruct (end_buffers st) as [[Himg Hcount]|[Himg Hcount]].
  - eapply buffers_inv_ext; [exact Himg|exact Hcount|exact Hinv].
  - split.
    + intros d rgb thermal. by rewrite Himg, lookup_empty.
    + intros d c. by rewrite Hcount, lookup_empty.
Qed.

(** *** What computing and loading leave alone *)

Lemma calibrate_device_guarded_keeps dev_id :
  keeps (agree beyond_results) id (calibrate_device_guarded dev_id).
Proof.
  pose proof (agree_log_event beyond_results (λ _ _, eq_refl)) as Hlog.
  unfold calibrate_device_guarded, calibrate_device,
    _compute_device_calibration, _save_calibration_result.
  keeps; reflexivity.
Qed.

Lemma calibrate_devices_keeps devices device_results :
  keeps (agree beyond_results) id (calibrate_devices devices device_results).
Proof.
  revert device_results.
  induction devices as [|d l IH]; intros acc; cbn [calibrate_devices].
  - kapply keeps_ret.
  - kapply keeps_bind; [apply calibrate_device_guarded_keeps|].
    intros entry. apply IH.
Qed.

Lemma compute_keeps device_id :
  keeps (agree beyond_results) id (compute_calibration device_id).
Proof.
  unfold compute_calibration.
  repeat lazymatch goal with
         | |- keeps _ _ (calibrate_devices _ _) =>
             apply calibrate_devices_keeps
         | |- _ => keeps_step
         end.
Qed.

Lemma load_keeps device_id calibration_file :
  keeps (agree beyond_results) id
    (load_calibration_result device_id calibration_file).
Proof.
  pose proof (agree_log_event beyond_results (λ _ _, eq_refl)) as Hlog.
  unfold load_calibration_result. keeps; reflexivity.
Qed.

Lemma run_call_inv st c : buffers_inv st → buffers_inv (run_call st c).
Proof.
  destruct c; cbn [run_call].
  - apply start_inv.
  - apply capture_inv.
  - apply (keeps_agree_carries _ (compute_keeps _)).
  - apply (keeps_agree_carries _ (load_keeps _ _)).
  - apply end_inv.
Qed.

Lemma run_calls_inv calls st :
  buffers_inv st → buffers_inv (run_calls st calls).
Proof.
  revert st. induction calls as [|c calls IH]; intros st Hinv; [done|].
  cbn. apply IH. by apply run_call_inv.
Qed.

Lemma init_inv output_dir log st :
  __init__ output_dir log = inr st → buffers_inv st.
Proof.
  unfold __init__. destruct (path_mkdir log output_dir); [done|].
  intros [= <-]. split.
  - intros d rgb thermal. cbn. by rewrite lookup_empty.
  - intros d c. cbn. by rewrite lookup_empty.
Qed.

(** X7: whatever calls are made on a manager, and whether they return or
    raise, the two frame buffers of every device have the same length,
    and every counter belongs to a device with buffers and is at most
    the number of frames buffered. *)
Theorem buffers_invariant output_dir log st calls :
  __init__ output_dir log = inr st →
  buffers_aligned (run_calls st calls) ∧
  counters_bounded (run_calls st calls).
Proof. intros Hinit. by eapply run_calls_inv, init_inv. Qed.

(** X8: [compute_calibration] changes neither the session, nor the
    buffers and counters, nor the capturing flag, nor the settings,
    whether it returns or raises. *)
Theorem compute_keeps_session device_id st :
  let st' := (compute_calibration device_id st).1 in
  session_state st' = session_state st ∧ settings st' = settings st.
Proof.
  pose proof (compute_keeps device_id st) as Hk.
  unfold agree, beyond_results, id in Hk. cbn zeta.
  split; congruence.
Qed.

End invariant.

Lemma buffers_invariant_witness :
  buffers_aligned (@run_calls Bench.nominal Bench.fresh Bench.session_calls) ∧
  counters_bounded (@run_calls Bench.nominal Bench.fresh Bench.session_calls).
Proof.
  apply (buffers_invariant (C := Bench.nominal) "calibration_data" []).
  vm_compute. reflexivity.
Defined.

(** ** Computing the calibration of one device *)

Section one_device.
Context `{C : Collaborators}.

(** The readiness of the one device that a call names. *)
Lemma can_compute_named st sess dev_id :
  current_session st = Some sess → dev_id ≠ "" →
  getitem (can_compute_calibration st (Some dev_id)) dev_id
  = inr (bool_decide
           (min_images st ≤ default 0 (capture_count st !! dev_id))).
Proof.
  intros Hsess Hdev. apply getitem_inr.
  unfold can_compute_calibration, devices_for.
  rewrite Hsess, decide_False by done. cbn.
  by rewrite lookup_insert_eq.
Qed.

(** A call for one named device answers with the entry of its
    iteration. *)
Lemma compute_single dev_id st sess st' entry :
  current_session st = Some sess → dev_id ≠ "" →
  calibrate_device_guarded dev_id st = (st', inr entry) →
  compute_calibration (Some dev_id) st
  = (st', inr (single_answer dev_id entry)).
Proof.
  intros Hsess Hdev Hg. unfold compute_calibration.
  rewrite run_bind_get, Hsess. unfold devices_for.
  rewrite decide_False by done.
  rewrite run_bind, run_calibrate_devices_cons, Hg, run_calibrate_devices_nil.
  rewrite insert_empty. unfold all_successful, single_answer.
  rewrite map_to_list_singleton. cbn.
  by destruct (DeviceResult.success entry).
Qed.

(** What one iteration does to the store, by its entry. *)
Lemma calibrate_device_outcome dev_id st sess st' entry :
  current_session st = Some sess → dev_id ≠ "" →
  calibrate_device_guarded dev_id st = (st', inr entry) →
  (DeviceResult.success entry = true →
     ∃ r, is_valid r = true ∧ entry = calibrated_entry r ∧
          calibration_results st'
          = <[dev_id := r]> (calibration_results st) ∧
          io_log st'
          = io_log st ++ [EvSaveResult (calibration_file_of sess dev_id) r] ∧
          beyond_results st' = beyond_results st) ∧
  (DeviceResult.success entry = false →
     st' = st
     ∨ ∃ r e, is_valid r = true ∧
          entry = DeviceResult.plain false (MsgCalibrationError e) ∧
          calibration_results st'
          = <[dev_id := r]> (calibration_results st) ∧
          io_log st'
          = io_log st
            ++ [EvSaveFailed (calibration_file_of sess dev_id) r e] ∧
          beyond_results st' = beyond_results st).
Proof.
  intros Hsess Hdev. rewrite run_guarded. unfold calibrate_device.
  rewrite run_bind_get, run_bind_lift_exc.
  rewrite (can_compute_named _ _ _ Hsess Hdev).
  destruct (bool_decide _); cbn [negb].
  2: { rewrite run_bind_lift_exc.
       destruct (getitem (capture_count st) dev_id); rewrite ?run_ret;
         intros [= <- <-]; (split; [done|]); by left. }
  rewrite run_bind_lift_exc.
  destruct (getitem (captured_images st) dev_id) as [e|frames].
  { intros [= <- <-]. split; [done|]. by left. }
  rewrite run_bind.
  destruct (_compute_device_calibration dev_id frames.1 frames.2 st)
    as [st1 [e|r]] eqn:Hsolve;
    apply compute_device_store in Hsolve as ->.
  { intros [= <- <-]. split; [done|]. by left. }
  destruct (is_valid r) eqn:Hvalid.
  2: { rewrite run_ret. intros [= <- <-]. split; [done|]. by left. }
  rewrite run_bind_modify.
  unfold _save_calibration_result, the_session.
  rewrite !run_bind_assoc, run_bind_get.
  cbn [current_session set_calibration_results].
  rewrite Hsess, run_bind_ret, run_bind. unfold io_with.
  cbn [io_log set_calibration_results].
  fold (calibration_file_of sess dev_id).
  destruct (save_to_file _ _ _) as [e|u]; intros [= <- <-].
  - split; [done|]. intros _. right. by exists r, e.
  - split; [|done]. intros _. by exists r.
Qed.

(** X9: [compute_calibration] for one named device of an active session
    always answers, with the entry of that device alone.  A success
    entry means that a valid result was stored under the device and
    saved to the session folder, and the entry carries the errors and
    the quality of that result.  A failure entry leaves the store as it
    was, save for one case: the save raised, and then the result is
    stored all the same. *)
Theorem compute_one_device dev_id st sess :
  current_session st = Some sess → dev_id ≠ "" →
  ∃ st' entry,
    compute_calibration (Some dev_id) st
    = (st', inr (single_answer dev_id entry)) ∧
    (DeviceResult.success entry = true →
       ∃ r, is_valid r = true ∧ entry = calibrated_entry r ∧
            get_calibration_result st' dev_id = Some r ∧
            io_log st'
            = io_log st
              ++ [EvSaveResult (calibration_file_of sess dev_id) r]) ∧
    (DeviceResult.success entry = false →
       st' = st
       ∨ ∃ r e, is_valid r = true ∧
            entry = DeviceResult.plain false (MsgCalibrationError e) ∧
            get_calibration_result st' dev_id = Some r ∧
            io_log st'
            = io_log st
              ++ [EvSaveFailed (calibration_file_of sess dev_id) r e]).
Proof.
  intros Hsess Hdev.
  destruct (calibrate_device_guarded_returns dev_id st)
    as (st' & entry & Hg).
  exists st', entry. split; [by eapply compute_single|].
  destruct (calibrate_device_outcome _ _ _ _ _ Hsess Hdev Hg) as [Hok Hko].
  unfold get_calibration_result. split.
  - intros (r & ? & ? & Hres & ? & _)%Hok. exists r.
    rewrite Hres, lookup_insert_eq. done.
  - intros [->|(r & e & ? & ? & Hres & ? & _)]%Hko; [by left|].
    right. exists r, e. rewrite Hres, lookup_insert_eq. done.
Qed.

(** The readiness of a device that its own iteration asks for. *)
Lemma can_compute_self st sess dev_id :
  current_session st = Some sess →
  dev_id ∈ devices_for (Some dev_id) sess →
  getitem (can_compute_calibration st (Some dev_id)) dev_id
  = inr (bool_decide
           (min_images st ≤ default 0 (capture_count st !! dev_id))).
Proof.
  intros Hsess Hdev. apply getitem_inr.
  apply (can_compute_lookup _ _ _ _ _ Hsess). split; [done|].
  by rewrite bool_decide_eq_true.
Qed.

Lemma devices_for_self device_id sess d :
  d ∈ devices_for device_id sess → d ∈ devices_for (Some d) sess.
Proof.
  unfold devices_for. intros Hd.
  destruct (decide (d = "")) as [->|Hne]; [|set_solver].
  destruct device_id as [x|]; [|done].
  destruct (decide (x = "")); [done|]. set_solver.
Qed.

(** The iteration of a device that is not ready. *)
Lemma calibrate_device_not_ready dev_id st sess :
  current_session st = Some sess →
  dev_id ∈ devices_for (Some dev_id) sess →
  default 0 (capture_count st !! dev_id) < min_images st →
  calibrate_device_guarded dev_id st = (st, inr (not_ready_entry st dev_id)).
Proof.
  intros Hsess Hdev Hlt. rewrite run_guarded. unfold calibrate_device.
  rewrite run_bind_get, run_bind_lift_exc.
  rewrite (can_compute_self _ _ _ Hsess Hdev).
  rewrite bool_decide_eq_false_2 by lia. cbn [negb].
  rewrite run_bind_lift_exc. unfold not_ready_entry, getitem.
  by destruct (capture_count st !! dev_id).
Qed.

Lemma calibrate_devices_not_ready st sess devices :
  current_session st = Some sess →
  (∀ d, d ∈ devices →
     d ∈ devices_for (Some d) sess ∧
     default 0 (capture_count st !! d) < min_images st) →
  ∀ acc,
    calibrate_devices devices acc st
    = (st, inr (foldl (λ results d, <[d := not_ready_entry st d]> results)
                  acc devices)).
Proof.
  intros Hsess. induction devices as [|x l IH]; intros Hall acc; [done|].
  rewrite run_calibrate_devices_cons.
  destruct (Hall x ltac:(left)) as [Hx Hlt].
  rewrite (calibrate_device_not_ready _ _ _ Hsess Hx Hlt).
  cbn [foldl]. apply IH. intros d Hd. apply Hall. by right.
Qed.

(** A computation over devices that are not ready. *)
Lemma compute_not_ready_run device_id st sess :
  current_session st = Some sess →
  (∀ d, d ∈ devices_for device_id sess →
     default 0 (capture_count st !! d) < min_images st) →
  ∃ res,
    compute_calibration device_id st = (st, inr res) ∧
    (∀ d, ComputationResults.device_results res !! d
          = if decide (d ∈ devices_for device_id sess)
            then Some (not_ready_entry st d) else None) ∧
    (ComputationResults.success res = true ↔ devices_for device_id sess = []).
Proof.
  intros Hsess Hall.
  destruct (run_compute_calibration device_id st sess Hsess)
    as (st' & results & Hloop & ->).
  rewrite (calibrate_devices_not_ready st sess) in Hloop; [|done|].
  2: { intros d Hd. split; [by eapply devices_for_self|by apply Hall]. }
  injection Hloop as <- <-.
  eexists. split; [reflexivity|]. cbn.
  split.
  - intros d. rewrite (readiness_fold (λ d, not_ready_entry st d)).
    destruct (decide _); [done|apply lookup_empty].
  - rewrite all_successful_spec. split.
    + intros Hok. destruct (devices_for device_id sess) as [|x l]; [done|].
      specialize (Hok x (not_ready_entry st x)).
      rewrite (readiness_fold (λ d, not_ready_entry st d)) in Hok.
      rewrite decide_True in Hok by left. by specialize (Hok eq_refl).
    + intros -> d entry. cbn. by rewrite lookup_empty.
Qed.

(** X10: when no requested device has reached [min_images] on its
    counter, [compute_calibration] solves nothing, whatever the frame
    buffers hold: the store is left as it was, every requested device
    gets an entry that reports its counter (or the [KeyError] of reading
    a counter that does not exist), and the answer is a failure unless no
    device was requested at all. *)
Theorem compute_not_ready device_id st sess :
  current_session st = Some sess →
  (∀ d, d ∈ devices_for device_id sess →
     default 0 (capture_count st !! d) < min_images st) →
  ∃ res,
    compute_calibration device_id st = (st, inr res) ∧
    (∀ d, ComputationResults.device_results res !! d
          = if decide (d ∈ devices_for device_id sess)
            then Some (not_ready_entry st d) else None) ∧
    (ComputationResults.success res = true ↔ devices_for device_id sess = []).
Proof. apply compute_not_ready_run. Qed.

(** X20: the success path of [compute_calibration] for a named device.
    When the counter of the device has reached [min_images], the solve on
    its buffered frames returns a result that is valid, and the result
    can be saved, the call stores the result under the device, saves it
    to the session folder and answers with a success that carries the
    errors and the quality of the result. *)
Theorem compute_stores_result dev_id st sess rgb_images thermal_images r :
  current_session st = Some sess → dev_id ≠ "" →
  min_images st ≤ default 0 (capture_count st !! dev_id) →
  captured_images st !! dev_id = Some (rgb_images, thermal_images) →
  _compute_device_calibration dev_id rgb_images thermal_images st
  = (st, inr r) →
  is_valid r = true →
  (∀ h result path, save_to_file h result path = inr tt) →
  compute_calibration (Some dev_id) st
  = (log_event (EvSaveResult (calibration_file_of sess dev_id) r)
       (set_calibration_results (<[dev_id := r]> (calibration_results st)) st),
     inr (single_answer dev_id (calibrated_entry r))).
Proof.
  intros Hsess Hdev Hready Hbuf Hsolve Hvalid Hsave.
  eapply compute_single; [done..|].
  rewrite run_guarded. unfold calibrate_device.
  rewrite run_bind_get, run_bind_lift_exc.
  rewrite (can_compute_named _ _ _ Hsess Hdev).
  rewrite bool_decide_eq_true_2 by done. cbn [negb].
  rewrite run_bind_lift_exc, (proj2 (getitem_inr _ _ _) Hbuf).
  cbn [fst snd]. rewrite run_bind, Hsolve, Hvalid.
  rewrite run_bind_modify.
  unfold _save_calibration_result, the_session.
  rewrite !run_bind_assoc, run_bind_get.
  cbn [current_session set_calibration_results].
  rewrite Hsess, run_bind_ret, run_bind. unfold io_with.
  by rewrite Hsave.
Qed.

End one_device.

Lemma compute_one_device_witness :
  ∃ st' entry,
    @compute_calibration Bench.nominal (Some "A") Bench.after_ten_captures
    = (st', inr (single_answer "A" entry)).
Proof.
  destruct (compute_one_device (C := Bench.nominal) "A"
              Bench.after_ten_captures Bench.session_s)
    as (st' & entry & H & _).
  - vm_compute. reflexivity.
  - discriminate.
  - exists st', entry. exact H.
Defined.

Lemma compute_not_ready_witness :
  ∃ res,
    @compute_calibration Bench.nominal None Bench.after_one_capture
    = (Bench.after_one_capture, inr res).
Proof.
  destruct (compute_not_ready (C := Bench.nominal) None
              Bench.after_one_capture Bench.session_s) as (res & H & _).
  - vm_compute. reflexivity.
  - intros d Hd. vm_compute in Hd.
    apply elem_of_cons in Hd as [->|Hd];
      [|apply elem_of_cons in Hd as [->|Hd%elem_of_nil]; [|done]];
      vm_compute; lia.
  - exists res. exact H.
Defined.

Lemma compute_stores_result_witness :
  @compute_calibration Bench.nominal (Some "A") Bench.after_ten_captures
  = (log_event
       (EvSaveResult (calibration_file_of Bench.session_s "A") Bench.solved_A)
       (set_calibration_results
          (<["A" := Bench.solved_A]>
             (calibration_results Bench.after_ten_captures))
          Bench.after_ten_captures),
     inr (single_answer "A" (calibrated_entry Bench.solved_A))).
Proof.
  apply (compute_stores_result (C := Bench.nominal) "A"
           Bench.after_ten_captures Bench.session_s
           (Bench.rgb_frames Bench.after_ten_captures "A")
           (Bench.thermal_frames Bench.after_ten_captures "A")).
  - vm_compute. reflexivity.
  - discriminate.
  - vm_compute. lia.
  - vm_compute. reflexivity.
  - vm_compute. reflexivity.
  - vm_compute. reflexivity.
  - reflexivity.
Defined.

(** ** What a computed result holds *)

Section computed_result.
Context `{C : Collaborators}.

Lemma assess_set_assessment a ts r :
  _assess_calibration_quality (set_assessment a ts r)
  = _assess_calibration_quality r.
Proof. reflexivity. Qed.

(** Without a stereo error the label is POOR. *)
Lemma assess_without_stereo r :
  stereo_rms_error r = None →
  quality_score (_assess_calibration_quality r) = POOR.
Proof.
  intros Hnone.
  assert (py_max3 (or_inf (rgb_rms_error r)) (or_inf (thermal_rms_error r))
            (or_inf (stereo_rms_error r)) = FPosInf
          ∨ py_max3 (or_inf (rgb_rms_error r)) (or_inf (thermal_rms_error r))
              (or_inf (stereo_rms_error r)) = FNaN) as Hmax.
  { apply py_max3_unbounded. rewrite Hnone. auto. }
  unfold _assess_calibration_quality.
  by rewrite !float_lt_unbounded by done.
Qed.

Lemma truthy_not_zero v : float_bool v = true → ¬ is_zero v.
Proof. intros Ht Hz%float_bool_false. congruence. Qed.

(** X11: whenever the per-device calibration returns a result, no RMS
    error it holds is an exact zero; the result is the empty one, or its
    assessment is the assessor's answer on the result's own errors; and
    an assessment better than POOR means that the stereo solve
    succeeded, so the result has a stereo error and the intrinsic
    matrices of both cameras. *)
Theorem computed_result_assessed device_id rgb_images thermal_images st st' r :
  _compute_device_calibration device_id rgb_images thermal_images st
  = (st', inr r) →
  (∀ e, rgb_rms_error r = Some e ∨ thermal_rms_error r = Some e
        ∨ stereo_rms_error r = Some e → ¬ is_zero e) ∧
  (r = CalibrationResult_init device_id
   ∨ quality_assessment r = Some (_assess_calibration_quality r)) ∧
  (∀ a, quality_assessment r = Some a → quality_score a ≠ POOR →
        is_Some (stereo_rms_error r) ∧
        is_Some (rgb_camera_matrix r) ∧ is_Some (thermal_camera_matrix r)).
Proof.
  intros (object_points & points & _ & _ & Hcases)%compute_device_inv.
  destruct Hcases as [[_ ->] | (_ & rgb_size & rgb_ret & K & D & thermal_size
    & thermal_ret & K' & D' & r2 & r3 & _ & _ & _ & _ & Hr2 & Hr3 & ->)].
  { split; [|split; [by left|done]].
    intros e [H|[H|H]]; discriminate H. }
  assert (∀ e, rgb_rms_error r2 = Some e ∨ thermal_rms_error r2 = Some e
               → ¬ is_zero e) as Hr2_errors.
  { subst r2. intros e.
    destruct (float_bool rgb_ret) eqn:Hrgb,
      (float_bool thermal_ret) eqn:Hthermal; cbn;
      intros [[= <-]|[= <-]]; by apply truthy_not_zero. }
  rewrite assess_set_assessment.
  destruct Hr3 as [-> | (Hrgb & Hthermal & stereo_ret & R & T & E & F & h
                         & Hstereo & ->)].
  - assert (stereo_rms_error r2 = None) as Hnone.
    { subst r2. by destruct (float_bool rgb_ret), (float_bool thermal_ret). }
    split; [|split; [by right|]].
    + cbn. rewrite Hnone. intros e [H|[H|H]]; [eauto..|done].
    + cbn. intros a [= <-]. by rewrite assess_without_stereo.
  - split; [|split; [by right|]].
    + cbn. intros e [H|[H|[= <-]]]; [eauto..|].
      by apply truthy_not_zero.
    + cbn. intros a _ _. split; [by eexists|].
      subst r2. rewrite Hrgb, Hthermal. cbn. split; by eexists.
Qed.

End computed_result.

Lemma computed_result_assessed_witness :
  Bench.solved_A = CalibrationResult_init "A"
  ∨ quality_assessment Bench.solved_A
    = Some (_assess_calibration_quality Bench.solved_A).
Proof.
  refine (proj1 (proj2
    (computed_result_assessed (C := Bench.nominal) "A"
       (Bench.rgb_frames Bench.after_ten_captures "A")
       (Bench.thermal_frames Bench.after_ten_captures "A")
       Bench.after_ten_captures Bench.after_ten_captures
       Bench.solved_A _))).
  vm_compute. reflexivity.
Defined.

(** ** Loading a result *)

Section loading.
Context `{C : Collaborators}.

(** X12: [load_calibration_result] never raises and needs no session.
    It answers [True] exactly when the file yields a result, and then
    that result is stored under the device named in the call, whatever
    it holds; otherwise the result map is left as it was.  The session,
    the buffers, the counters and the settings are never touched. *)
Theorem load_calibration_result_spec device_id calibration_file st :
  ∃ st' ok,
    load_calibration_result device_id calibration_file st = (st', inr ok) ∧
    session_state st' = session_state st ∧ settings st' = settings st ∧
    match load_from_file (io_log st) calibration_file with
    | inr (Some r) =>
        ok = true ∧
        calibration_results st' = <[device_id := r]> (calibration_results st) ∧
        get_calibration_result st' device_id = Some r
    | _ => ok = false ∧ calibration_results st' = calibration_results st
    end.
Proof.
  unfold load_calibration_result. rewrite run_try_except, run_bind.
  unfold io, io_with, get_calibration_result.
  destruct (load_from_file (io_log st) calibration_file) as [e|[r|]].
  - eexists _, _. by rewrite run_ret.
  - rewrite run_bind_modify, run_ret. eexists _, _.
    do 3 (split; [reflexivity|]). split; [done|]. split; [done|].
    cbn. by rewrite lookup_insert_eq.
  - rewrite run_ret. by eexists _, _.
Qed.

End loading.

(** ** After the end of a session *)

Section after_end.
Context `{C : Collaborators}.

(** X13: once a session has ended (its final metadata written), the
    manager behaves as one without a session: a capture cycle and a
    computation raise the no-active-session error, no device is ready,
    the status is inactive and a second [end] fails softly, each leaving
    the store as it is.  The results computed or loaded before are still
    there, for lookups and overlays. *)
Theorem after_end st sess :
  current_session st = Some sess →
  (∀ h path content, json_dump h path content = inr tt) →
  ∃ st' summary,
    end_calibration_session st = (st', inr summary) ∧
    SessionSummary.success summary = true ∧
    (∀ server,
       capture_calibration_frame server st' = (st', inl no_active_session)) ∧
    (∀ device_id,
       compute_calibration device_id st' = (st', inl no_active_session)) ∧
    (∀ device_id, can_compute_calibration st' device_id = ∅) ∧
    SessionStatus.active (get_session_status st') = false ∧
    end_calibration_session st' = (st', inr no_session_summary) ∧
    (∀ device_id,
       get_calibration_result st' device_id
       = get_calibration_result st device_id) ∧
    (∀ device_id rgb_image thermal_image alpha,
       apply_thermal_overlay st' device_id rgb_image thermal_image alpha
       = apply_thermal_overlay st device_id rgb_image thermal_image alpha).
Proof.
  intros Hsess Hdump.
  rewrite (end_with_session st sess Hsess (Hdump _ _ _)).
  eexists _, _. split; [reflexivity|]. split; [done|].
  by repeat split.
Qed.

(** X14: a start after an end begins from nothing: the devices the new
    session lists have empty buffers and zero counters, and no other
    device has buffers or a counter.  It does not matter whether a
    capture was marked as in flight before the end.  The results are
    kept. *)
Theorem restart_after_end device_ids session_name st sess :
  current_session st = Some sess →
  (∀ h path, path_mkdir h path = inr tt) →
  (∀ h path content, json_dump h path content = inr tt) →
  ∃ st1 summary st2 sess2,
    end_calibration_session st = (st1, inr summary) ∧
    start_calibration_session device_ids session_name st1
    = (st2, inr sess2) ∧
    current_session st2 = Some sess2 ∧
    Session.device_ids sess2 = device_ids ∧
    (∀ d, capture_count st2 !! d
          = if decide (d ∈ device_ids) then Some 0 else None) ∧
    (∀ d, captured_images st2 !! d
          = if decide (d ∈ device_ids) then Some ([], []) else None) ∧
    calibration_results st2 = calibration_results st.
Proof.
  intros Hsess Hmkdir Hdump.
  rewrite (end_with_session st sess Hsess (Hdump _ _ _)).
  match goal with
  | |- context [(?s, inr ?x) = _] => set (st1 := s); set (summary := x)
  end.
  destruct (start_resets_listed_devices_store device_ids session_name st1
              eq_refl Hmkdir Hdump)
    as (st2 & sess2 & Hstart & Hcur & Hids & Hin & Hout & Hres & _).
  exists st1, summary, st2, sess2. do 4 (split; [done|]).
  split; [|split; [|by rewrite Hres]]; intros d;
    destruct (decide (d ∈ device_ids)) as [Hd|Hd].
  - by apply Hin.
  - destruct (Hout d Hd) as [-> _]. apply lookup_empty.
  - by apply Hin.
  - destruct (Hout d Hd) as [_ ->]. apply lookup_empty.
Qed.

End after_end.

(** ** NaN in the assessor *)

Lemma py_max_nan_r a : py_max a FNaN = a.
Proof. by destruct a. Qed.

Lemma py_max_absorb a b : py_max (py_max a b) b = py_max a b.
Proof.
  unfold py_max. destruct (float_gt b a) eqn:E; [|by rewrite E].
  by destruct (float_gt b b).
Qed.

Lemma py_max_idem a : py_max a a = a.
Proof. unfold py_max. by destruct (float_gt a a). Qed.

(** The label is a function of the greatest error as [max] computes it. *)
Lemma quality_score_py_max3 r :
  quality_score (_assess_calibration_quality r)
  = let m := py_max3 (or_inf (rgb_rms_error r)) (or_inf (thermal_rms_error r))
               (or_inf (stereo_rms_error r)) in
    if float_lt m (FFin (1 # 2)) then EXCELLENT
    else if float_lt m (FFin 1) then GOOD
    else if float_lt m (FFin 2) then ACCEPTABLE
    else POOR.
Proof.
  unfold _assess_calibration_quality. cbn zeta.
  by repeat destruct (float_lt _ _).
Qed.

(** X15: how the assessor treats NaN errors.  A NaN RGB error gives POOR.
    But [max] skips a NaN that is not its first argument: with a NaN
    thermal error the label is the one the result would get if its
    thermal error were its RGB error, and with a NaN stereo error the one
    it would get if its stereo error were its thermal error.  A NaN does
    not lower the label in these positions. *)
Theorem assess_nan :
  (∀ r, rgb_rms_error r = Some FNaN →
        quality_score (_assess_calibration_quality r) = POOR) ∧
  (∀ rgb stereo,
     quality_score
       (_assess_calibration_quality (result_with_errors rgb (Some FNaN) stereo))
     = quality_score
         (_assess_calibration_quality (result_with_errors rgb rgb stereo))) ∧
  (∀ rgb thermal,
     quality_score
       (_assess_calibration_quality (result_with_errors rgb thermal (Some FNaN)))
     = quality_score
         (_assess_calibration_quality
            (result_with_errors rgb thermal thermal))).
Proof.
  split; [|split].
  - intros r Hnan. unfold _assess_calibration_quality. rewrite Hnan.
    cbn [or_inf float_bool]. unfold py_max3.
    rewrite (py_max_unbounded_l FNaN) by auto. reflexivity.
  - intros rgb stereo. rewrite !quality_score_py_max3.
    cbn [rgb_rms_error thermal_rms_error stereo_rms_error result_with_errors
         or_inf float_bool].
    unfold py_max3. by rewrite py_max_nan_r, py_max_idem.
  - intros rgb thermal. rewrite !quality_score_py_max3.
    cbn [rgb_rms_error thermal_rms_error stereo_rms_error result_with_errors
         or_inf float_bool].
    unfold py_max3. by rewrite py_max_nan_r, py_max_absorb.
Qed.

Lemma after_end_witness :
  ∃ st' summary,
    @end_calibration_session Bench.nominal Bench.calibrated
    = (st', inr summary) ∧
    SessionSummary.success summary = true.
Proof.
  destruct (after_end (C := Bench.nominal) Bench.calibrated Bench.session_s)
    as (st' & summary & H1 & H2 & _).
  - vm_compute. reflexivity.
  - reflexivity.
  - exists st', summary. split; [exact H1|exact H2].
Defined.

Lemma restart_after_end_witness :
  ∃ st1 summary st2 sess2,
    @end_calibration_session Bench.nominal Bench.calibrated
    = (st1, inr summary) ∧
    @start_calibration_session Bench.nominal ["B"; "C"] None st1
    = (st2, inr sess2).
Proof.
  destruct (restart_after_end (C := Bench.nominal) ["B"; "C"] None
              Bench.calibrated Bench.session_s)
    as (st1 & summary & st2 & sess2 & H1 & H2 & _).
  - vm_compute. reflexivity.
  - reflexivity.
  - reflexivity.
  - exists st1, summary, st2, sess2. split; [exact H1|exact H2].
Defined.

(** ** A capture cycle that meets no obstacle *)

Section cycle.
Context `{C : Collaborators}.

Local Set Default Proof Using "All".

Hypothesis path_mkdir_ok : ∀ h path, path_mkdir h path = inr tt.
Hypothesis cv2_imwrite_returns :
  ∀ h path img, ∃ ok, cv2_imwrite h path img = inr ok.

(** The simulated capture of a device with buffers and a counter. *)
Lemma simulate_ok device_id st sess rgb thermal n :
  current_session st = Some sess →
  captured_images st !! device_id = Some (rgb, thermal) →
  capture_count st !! device_id = Some n →
  ∃ st' rgb_image thermal_image,
    _simulate_image_capture device_id st = (st', inr true) ∧
    captured_images st'
    = <[device_id := (rgb ++ [rgb_image], thermal ++ [thermal_image])]>
        (captured_images st) ∧
    beyond_buffers st' = beyond_buffers st.
Proof.
  intros Hsess Hbuf Hcount.
  assert (∃ st', _simulate_image_capture device_id st = (st', inr true))
    as [st' Hrun].
  { unfold _simulate_image_capture.
    rewrite !run_bind_random, run_bind_get, run_bind_lift_exc.
    cbn [captured_images log_event].
    rewrite (proj2 (getitem_inr _ _ _) Hbuf).
    rewrite run_bind_modify, run_bind_get, run_bind_lift_exc.
    cbn [captured_images set_captured_images log_event fst snd].
    unfold getitem at 1. rewrite lookup_insert_eq.
    rewrite run_bind_modify. cbn [fst snd].
    rewrite run_bind.
    erewrite run_the_session by (cbn; exact Hsess).
    rewrite run_bind_io, path_mkdir_ok.
    rewrite run_bind_get, run_bind_lift_exc.
    cbn [capture_count set_captured_images log_event].
    rewrite (proj2 (getitem_inr _ _ _) Hcount).
    rewrite run_bind_io.
    match goal with
    | |- context [cv2_imwrite ?h ?p ?i] =>
        destruct (cv2_imwrite_returns h p i) as [ok1 ->]
    end.
    rewrite run_bind_io.
    match goal with
    | |- context [cv2_imwrite ?h ?p ?i] =>
        destruct (cv2_imwrite_returns h p i) as [ok2 ->]
    end.
    rewrite run_ret. by eexists. }
  exists st'.
  destruct (simulate_effect _ _ _ _ Hrun)
    as [(_ & [=] & _) | (rgb' & th' & i1 & i2 & Hbuf' & Himg & Hrest)].
  rewrite Hbuf in Hbuf'. injection Hbuf' as <- <-.
  exists i1, i2. by repeat split.
Qed.

(** One device of the loop of a capture cycle. *)
Lemma capture_device_ok device_id st sess rgb thermal n res :
  current_session st = Some sess →
  captured_images st !! device_id = Some (rgb, thermal) →
  capture_count st !! device_id = Some n →
  ∃ st' rgb_image thermal_image,
    capture_device device_id (st, res)
    = ((st', captured device_id (n + 1) res), inr tt) ∧
    captured_images st'
    = <[device_id := (rgb ++ [rgb_image], thermal ++ [thermal_image])]>
        (captured_images st) ∧
    capture_count st' = <[device_id := n + 1]> (capture_count st) ∧
    current_session st' = current_session st.
Proof.
  intros Hsess Hbuf Hcount.
  destruct (simulate_ok _ _ _ _ _ _ Hsess Hbuf Hcount)
    as (st1 & i1 & i2 & Hsim & Himg & Hrest).
  assert (capture_count st1 = capture_count st) as Hc1
    by (unfold beyond_buffers in Hrest; congruence).
  assert (current_session st1 = current_session st) as Hs1
    by (unfold beyond_buffers in Hrest; congruence).
  eexists _, i1, i2. split; [|split; [|split]].
  - unfold capture_device. rewrite run_lift_self, Hsim.
    rewrite run_bind_assoc, run_lift_self. cbn [get].
    rewrite run_bind_assoc, run_bind_lift_exc.
    rewrite Hc1, (proj2 (getitem_inr _ _ _) Hcount).
    rewrite run_bind_assoc, run_lift_self. cbn [modify].
    rewrite run_bind_modify_local.
    rewrite run_lift_self. cbn [get].
    rewrite run_bind_lift_exc. cbn [capture_count set_capture_count].
    unfold getitem. rewrite lookup_insert_eq. reflexivity.
  - exact Himg.
  - reflexivity.
  - exact Hs1.
Qed.

(** The loop of a capture cycle over devices that are listed once. *)
Lemma capture_loop_ok devices :
  NoDup devices → ∀ st sess res,
  current_session st = Some sess →
  (∀ d, d ∈ devices →
     is_Some (captured_images st !! d) ∧ is_Some (capture_count st !! d)) →
  ∃ st' res',
    for_each devices capture_device (st, res) = ((st', res'), inr tt) ∧
    CaptureResults.success res' = CaptureResults.success res ∧
    CaptureResults.message res' = CaptureResults.message res ∧
    (∀ d, d ∈ devices →
       ∃ rgb thermal n rgb_image thermal_image,
         captured_images st !! d = Some (rgb, thermal) ∧
         capture_count st !! d = Some n ∧
         captured_images st' !! d
         = Some (rgb ++ [rgb_image], thermal ++ [thermal_image]) ∧
         capture_count st' !! d = Some (n + 1) ∧
         default ∅ (CaptureResults.total_frames res') !! d = Some (n + 1) ∧
         default ∅ (CaptureResults.device_results res') !! d
         = Some (DeviceResult.plain true
                   (Msg "Frame captured successfully"))) ∧
    (∀ d, d ∉ devices →
       captured_images st' !! d = captured_images st !! d ∧
       capture_count st' !! d = capture_count st !! d ∧
       default ∅ (CaptureResults.total_frames res') !! d
       = default ∅ (CaptureResults.total_frames res) !! d ∧
       default ∅ (CaptureResults.device_results res') !! d
       = default ∅ (CaptureResults.device_results res) !! d).
Proof.
  induction 1 as [|x l Hx Hl IH]; intros st sess res Hsess Hhave.
  { exists st, res. do 3 (split; [done|]).
    split; [by intros d Hd%elem_of_nil|done]. }
  destruct (Hhave x ltac:(left)) as [[[rgb thermal] Hbuf] [n Hcount]].
  destruct (capture_device_ok _ _ _ _ _ _ res Hsess Hbuf Hcount)
    as (st1 & i1 & i2 & Hrun & Himg & Hcnt & Hs1).
  destruct (IH st1 sess (captured x (n + 1) res)) as
    (st' & res' & Hloop & Hsucc & Hmsg & Hin & Hout).
  { by rewrite Hs1. }
  { intros d Hd. destruct (Hhave d ltac:(by right)) as [Hb Hc].
    rewrite Himg, Hcnt. split.
    - destruct (decide (x = d)) as [<-|Hne];
        [by rewrite lookup_insert_eq|by rewrite lookup_insert_ne].
    - destruct (decide (x = d)) as [<-|Hne];
        [by rewrite lookup_insert_eq|by rewrite lookup_insert_ne]. }
  exists st', res'. split; [|split; [done|split; [done|split]]].
  - cbn [for_each]. by rewrite run_bind, Hrun.
  - intros d [->|Hd]%elem_of_cons.
    + destruct (Hout x Hx) as (Hi & Hc & Ht & Hr).
      exists rgb, thermal, n, i1, i2. do 2 (split; [done|]).
      rewrite Hi, Hc, Ht, Hr, Himg, Hcnt. cbn.
      by rewrite !lookup_insert_eq.
    + assert (x ≠ d) as Hne by (intros ->; done).
      destruct (Hin d Hd) as (rgb' & th' & n' & i1' & i2' & Hb & Hc & Hrest).
      rewrite Himg, lookup_insert_ne in Hb by done.
      rewrite Hcnt, lookup_insert_ne in Hc by done.
      by exists rgb', th', n', i1', i2'.
  - intros d [Hne Hd]%not_elem_of_cons.
    destruct (Hout d Hd) as (Hi & Hc & Ht & Hr).
    rewrite Hi, Hc, Ht, Hr, Himg, Hcnt. cbn.
    by rewrite !lookup_insert_ne.
Qed.

(** A capture cycle that meets no obstacle. *)
Lemma capture_cycle_run srv st sess :
  current_session st = Some sess → is_capturing st = false →
  NoDup (Session.device_ids sess) →
  (∀ d, d ∈ Session.device_ids sess →
     is_Some (captured_images st !! d) ∧ is_Some (capture_count st !! d)) →
  (∀ h c, ∃ n, broadcast_command srv h c = inr n) →
  ∃ st' res,
    capture_calibration_frame (Some srv) st = (st', inr res) ∧
    CaptureResults.success res = true ∧
    is_capturing st' = false ∧
    (∀ d, d ∈ Session.device_ids sess →
       ∃ rgb thermal n rgb_image thermal_image,
         captured_images st !! d = Some (rgb, thermal) ∧
         capture_count st !! d = Some n ∧
         captured_images st' !! d
         = Some (rgb ++ [rgb_image], thermal ++ [thermal_image]) ∧
         capture_count st' !! d = Some (n + 1) ∧
         default ∅ (CaptureResults.total_frames res) !! d = Some (n + 1) ∧
         default ∅ (CaptureResults.device_results res) !! d
         = Some (DeviceResult.plain true
                   (Msg "Frame captured successfully"))) ∧
    (∀ d, d ∉ Session.device_ids sess →
       captured_images st' !! d = captured_images st !! d ∧
       capture_count st' !! d = capture_count st !! d).
Proof.
  intros Hsess Hcap Hnodup Hhave Hsrv.
  unfold capture_calibration_frame.
  rewrite run_bind_get, Hsess, Hcap, run_bind_modify. cbv zeta.
  unfold try_finally, with_local. rewrite run_try_except.
  rewrite run_lift_self.
  erewrite run_the_session by (cbn; exact Hsess).
  rewrite run_lift_self. cbn [get]. cbv zeta.
  rewrite run_lift_self. unfold io, io_with.
  match goal with
  | |- context [broadcast_command srv ?h ?c] =>
      destruct (Hsrv h c) as [device_count ->]
  end.
  rewrite run_lift_self.
  erewrite run_the_session by (cbn; exact Hsess).
  rewrite run_bind.
  match goal with
  | |- context [for_each ?l ?body (?s, ?res0)] =>
      change body with capture_device;
      destruct (capture_loop_ok l Hnodup s sess res0)
        as (st1 & res1 & -> & Hsucc & _ & Hin & Hout)
  end.
  { exact Hsess. }
  { exact Hhave. }
  eexists _, _. split; [reflexivity|]. split; [exact Hsucc|].
  split; [reflexivity|]. split.
  - intros d Hd. destruct (Hin d Hd)
      as (rgb & th & n & i1 & i2 & Hb & Hc & Hb' & Hc' & Ht & Hr).
    by exists rgb, th, n, i1, i2.
  - intros d Hd. destruct (Hout d Hd) as (Hi & Hc & _). done.
Qed.

(** X16: a capture cycle that meets no obstacle.  With a session active
    whose devices are listed once and have buffers and counters (as after
    a start), no capture in flight, a server that answers and a file
    system that accepts the frames, the cycle succeeds: every device of
    the session gets exactly one more RGB frame, one more thermal frame
    and one more count, and the answer reports the new count; other
    devices are left alone, and no capture is in flight afterwards. *)
Theorem capture_cycle srv st sess :
  current_session st = Some sess → is_capturing st = false →
  NoDup (Session.device_ids sess) →
  (∀ d, d ∈ Session.device_ids sess →
     is_Some (captured_images st !! d) ∧ is_Some (capture_count st !! d)) →
  (∀ h c, ∃ n, broadcast_command srv h c = inr n) →
  ∃ st' res,
    capture_calibration_frame (Some srv) st = (st', inr res) ∧
    CaptureResults.success res = true ∧
    is_capturing st' = false ∧
    (∀ d, d ∈ Session.device_ids sess →
       ∃ rgb thermal n rgb_image thermal_image,
         captured_images st !! d = Some (rgb, thermal) ∧
         capture_count st !! d = Some n ∧
         captured_images st' !! d
         = Some (rgb ++ [rgb_image], thermal ++ [thermal_image]) ∧
         capture_count st' !! d = Some (n + 1) ∧
         default ∅ (CaptureResults.total_frames res) !! d = Some (n + 1) ∧
         default ∅ (CaptureResults.device_results res) !! d
         = Some (DeviceResult.plain true
                   (Msg "Frame captured successfully"))) ∧
    (∀ d, d ∉ Session.device_ids sess →
       captured_images st' !! d = captured_images st !! d ∧
       capture_count st' !! d = capture_count st !! d).
Proof. apply capture_cycle_run. Qed.

(** A cycle takes a session from [k] frames for each device to [k + 1]. *)
Lemma cycle_session_at srv sess k st :
  NoDup (Session.device_ids sess) →
  (∀ h c, ∃ n, broadcast_command srv h c = inr n) →
  session_at sess k st →
  session_at sess (k + 1) (run_call st (CallCapture (Some srv))) ∧
  settings (run_call st (CallCapture (Some srv))) = settings st.
Proof.
  intros Hnodup Hsrv (Hsess & Hcap & Hdev). cbn [run_call].
  pose proof (capture_keeps_beyond (Some srv) st) as Hkeep.
  destruct (capture_cycle_run srv st sess Hsess Hcap Hnodup) as
    (st' & res & Hrun & _ & Hcap' & Hin & _); [|done|].
  { intros d Hd. destruct (Hdev d Hd) as (Hc & rgb & th & Hb & _).
    by rewrite Hc, Hb. }
  rewrite Hrun in Hkeep |- *. cbn [fst id] in *.
  unfold agree, beyond_capture in Hkeep.
  split; [|congruence].
  split; [congruence|]. split; [done|].
  intros d Hd.
  destruct (Hin d Hd)
    as (rgb & th & n & i1 & i2 & Hb & Hc & Hb' & Hc' & _).
  destruct (Hdev d Hd) as (Hck & rgb0 & th0 & Hb0 & Hl1 & Hl2).
  simplify_eq. split; [done|].
  exists (rgb ++ [i1]), (th ++ [i2]). split; [done|].
  rewrite !length_app. cbn. lia.
Qed.

Lemma cycles_session_at srv sess k : ∀ j st,
  NoDup (Session.device_ids sess) →
  (∀ h c, ∃ n, broadcast_command srv h c = inr n) →
  session_at sess j st →
  session_at sess (j + k)
    (run_calls st (replicate k (CallCapture (Some srv)))) ∧
  settings (run_calls st (replicate k (CallCapture (Some srv))))
  = settings st.
Proof.
  induction k as [|k IH]; intros j st Hnodup Hsrv Hat.
  { cbn. by rewrite Nat.add_0_r. }
  cbn [replicate]. unfold run_calls. cbn [foldl].
  destruct (cycle_session_at srv sess j st Hnodup Hsrv Hat) as [Hat1 Hset1].
  destruct (IH (j + 1) _ Hnodup Hsrv Hat1) as [Hat2 Hset2].
  unfold run_calls in Hat2, Hset2.
  replace (j + S k) with (j + 1 + k) by lia.
  split; [done|congruence].
Qed.

(** X17: from a start to readiness.  When nothing fails, a start over
    devices listed once followed by [k] capture cycles leaves every
    listed device with [k] counted frames in each buffer, and the device
    is ready exactly when [k] has reached [min_images]. *)
Theorem ready_after_captures srv device_ids session_name st k :
  is_capturing st = false → NoDup device_ids →
  (∀ h path content, json_dump h path content = inr tt) →
  (∀ h c, ∃ n, broadcast_command srv h c = inr n) →
  ∀ d, d ∈ device_ids →
    let st' := run_calls st (CallStart device_ids session_name
                             :: replicate k (CallCapture (Some srv))) in
    capture_count st' !! d = Some k ∧
    (∃ rgb thermal,
       captured_images st' !! d = Some (rgb, thermal) ∧
       length rgb = k ∧ length thermal = k) ∧
    can_compute_calibration st' None !! d
    = Some (bool_decide (min_images st ≤ k)).
Proof.
  intros Hcap Hnodup Hdump Hsrv d Hd. cbv zeta.
  destruct (start_resets_listed_devices_store device_ids session_name st
              Hcap path_mkdir_ok Hdump)
    as (st1 & sess & Hstart & Hsess & Hids & Hin & _ & _ & Hcap1 & Hset1).
  unfold run_calls. cbn [foldl run_call]. rewrite Hstart. cbn [fst].
  assert (session_at sess 0 st1) as Hat.
  { split; [done|]. split; [done|]. rewrite Hids. intros d' Hd'.
    destruct (Hin d' Hd') as [Hc Hb]. split; [done|]. by exists [], []. }
  rewrite <- Hids in Hnodup.
  destruct (cycles_session_at srv sess k 0 st1 Hnodup Hsrv Hat)
    as [(Hsessk & _ & Hdev) Hsetk].
  unfold run_calls in Hsessk, Hdev, Hsetk. cbn [Nat.add] in Hdev.
  rewrite <- Hids in Hd. destruct (Hdev d Hd) as [Hc Hb].
  split; [done|]. split; [done|].
  unfold can_compute_calibration. rewrite Hsessk. cbn [devices_for].
  rewrite (readiness_fold
             (λ dev_id, bool_decide
                          (min_images _ ≤ default 0 (capture_count _ !! dev_id)))).
  rewrite decide_True by done. rewrite Hc. cbn [default].
  pose proof (f_equal (λ v, v.1.2) Hsetk) as Hmink.
  pose proof (f_equal (λ v, v.1.2) Hset1) as Hmin1.
  cbn in Hmink, Hmin1. by rewrite Hmink, Hmin1.
Qed.

End cycle.

Lemma ready_after_captures_witness :
  capture_count
    (@run_calls Bench.nominal Bench.fresh
       (CallStart ["A"; "B"] (Some "s")
        :: replicate 10 (CallCapture (Some Bench.server)))) !! "A"
  = Some 10.
Proof.
  refine (proj1 (ready_after_captures (C := Bench.nominal) (λ _ _, eq_refl)
                   (λ _ _ _, ex_intro _ true eq_refl)
                   Bench.server ["A"; "B"] (Some "s") Bench.fresh 10
                   eq_refl _ (λ _ _ _, eq_refl) (λ _ _, ex_intro _ 1 eq_refl)
                   "A" _)).
  - repeat constructor; set_solver.
  - set_solver.
Defined.

Lemma capture_cycle_witness :
  ∃ st' res,
    @capture_calibration_frame Bench.nominal (Some Bench.server) Bench.active
    = (st', inr res) ∧
    CaptureResults.success res = true.
Proof.
  destruct (capture_cycle (C := Bench.nominal) (λ _ _, eq_refl)
              (λ _ _ _, ex_intro _ true eq_refl)
              Bench.server Bench.active Bench.session_s)
    as (st' & res & H1 & H2 & _).
  - vm_compute. reflexivity.
  - reflexivity.
  - vm_compute. repeat constructor; set_solver.
  - intros d Hd. vm_compute in Hd.
    apply elem_of_cons in Hd as [->|Hd];
      [|apply elem_of_cons in Hd as [->|Hd%elem_of_nil]; [|done]];
      split; vm_compute; eauto.
  - intros h c. by exists 1.
  - exists st', res. split; [exact H1|exact H2].
Defined.

(** ** A session without a device server *)

Section serverless.
Context `{C : Collaborators}.

Lemma serverless_cycles k st :
  is_Some (current_session st) → is_capturing st = false →
  run_calls st (replicate k (CallCapture None)) = st.
Proof.
  intros Hsess Hcap. induction k as [|k IH]; [done|].
  cbn [replicate]. unfold run_calls in *. cbn [foldl run_call].
  by rewrite (serverless_cycle st Hsess Hcap).
Qed.

(** The iteration of a device whose buffers are empty and whose counter
    is zero: nothing can be solved, whatever [min_images] is. *)
Lemma calibrate_device_nothing_captured dev_id st sess :
  current_session st = Some sess →
  dev_id ∈ devices_for (Some dev_id) sess →
  captured_images st !! dev_id = Some ([], []) →
  capture_count st !! dev_id = Some 0 →
  ∃ entry,
    calibrate_device_guarded dev_id st = (st, inr entry) ∧
    DeviceResult.success entry = false ∧
    (0 < min_images st →
     entry = DeviceResult.plain false
               (MsgInsufficientImages 0 (min_images st))).
Proof.
  intros Hsess Hdev Hbuf Hcount.
  destruct (decide (0 < min_images st)) as [Hpos|Hzero].
  { rewrite (calibrate_device_not_ready _ _ _ Hsess Hdev)
      by (rewrite Hcount; exact Hpos).
    unfold not_ready_entry. rewrite Hcount. by eexists. }
  rewrite run_guarded. unfold calibrate_device.
  rewrite run_bind_get, run_bind_lift_exc.
  rewrite (can_compute_self _ _ _ Hsess Hdev).
  rewrite bool_decide_eq_true_2 by lia. cbn [negb].
  rewrite run_bind_lift_exc, (proj2 (getitem_inr _ _ _) Hbuf).
  cbn [fst snd]. rewrite run_bind.
  destruct (_compute_device_calibration dev_id [] [] st)
    as [st1 [e|r]] eqn:Hsolve;
    pose proof (compute_device_store _ _ _ _ _ _ Hsolve) as ->.
  { eexists. split; [reflexivity|]. split; [done|]. intros Hpos. lia. }
  apply compute_device_inv in Hsolve
    as (object_points & points & _ & _ & Hcases).
  destruct Hcases as [[_ ->] | (_ & rgb_size & rgb_ret & K & D & thermal_size
    & thermal_ret & K' & D' & r2 & r3 & Hsize & _)].
  - rewrite init_not_valid, run_ret.
    eexists. split; [reflexivity|]. split; [done|]. intros Hpos. lia.
  - discriminate Hsize.
Qed.

(** A loop of [compute_calibration] in which no iteration changes the
    store. *)
Lemma calibrate_devices_unchanged (P : string → DeviceResult.t → Prop)
    st devices :
  (∀ d, d ∈ devices →
     ∃ entry, calibrate_device_guarded d st = (st, inr entry) ∧ P d entry) →
  ∀ acc, ∃ results,
    calibrate_devices devices acc st = (st, inr results) ∧
    (∀ d, d ∈ devices → ∃ entry, results !! d = Some entry ∧ P d entry) ∧
    (∀ d, d ∉ devices → results !! d = acc !! d).
Proof.
  induction devices as [|x l IH]; intros Hall acc.
  { exists acc. split; [done|]. split; [by intros d Hd%elem_of_nil|done]. }
  destruct (Hall x ltac:(left)) as (entry & Hrun & HP).
  destruct (IH (λ d Hd, Hall d ltac:(by right)) (<[x := entry]> acc))
    as (results & Hloop & Hin & Hout).
  exists results. split; [|split].
  - by rewrite run_calibrate_devices_cons, Hrun.
  - intros d Hd. destruct (decide (d ∈ l)) as [Hl|Hl]; [by apply Hin|].
    apply elem_of_cons in Hd as [->|Hd]; [|done].
    exists entry. by rewrite (Hout x Hl), lookup_insert_eq.
  - intros d [Hne Hd]%not_elem_of_cons.
    by rewrite (Hout d Hd), lookup_insert_ne.
Qed.

(** X18: a session whose capture cycles are called without a device
    server, as the self-test at the end of the module does, captures
    nothing: however many cycles are called after the start, the
    computation that follows solves no device.  It changes nothing,
    answers with a failure entry for every device of the session, and
    fails as a whole unless the session has no device; the result map is
    the one held before the start.  When [min_images] is positive, the
    entry of every device reports insufficient images with a count of
    zero. *)
Theorem serverless_session device_ids session_name k st :
  is_capturing st = false →
  (∀ h path, path_mkdir h path = inr tt) →
  (∀ h path content, json_dump h path content = inr tt) →
  ∃ st1 res,
    run_calls st (CallStart device_ids session_name
                  :: replicate k (CallCapture None)) = st1 ∧
    compute_calibration None st1 = (st1, inr res) ∧
    (∀ d, d ∈ device_ids →
       ∃ entry,
         ComputationResults.device_results res !! d = Some entry ∧
         DeviceResult.success entry = false ∧
         (0 < min_images st →
          entry = DeviceResult.plain false
                    (MsgInsufficientImages 0 (min_images st)))) ∧
    (device_ids ≠ [] → ComputationResults.success res = false) ∧
    calibration_results st1 = calibration_results st.
Proof.
  intros Hcap Hmkdir Hdump.
  destruct (start_resets_listed_devices_store device_ids session_name st
              Hcap Hmkdir Hdump)
    as (st1 & sess & Hstart & Hsess & Hids & Hin & _ & Hres & Hcap1 & Hset1).
  assert (min_images st1 = min_images st) as Hmin1
    by exact (f_equal (λ v, v.1.2) Hset1).
  exists st1.
  destruct (run_compute_calibration None st1 sess Hsess)
    as (st' & results & Hloop & Hrun).
  destruct (calibrate_devices_unchanged
              (λ _ entry,
                 DeviceResult.success entry = false ∧
                 (0 < min_images st →
                  entry = DeviceResult.plain false
                            (MsgInsufficientImages 0 (min_images st))))
              st1 (devices_for None sess)) with (acc := ∅ : gmap string DeviceResult.t)
    as (results' & Hloop' & Hent & _).
  { cbn [devices_for]. rewrite Hids. intros d Hd.
    destruct (Hin d Hd) as [Hc Hb].
    destruct (calibrate_device_nothing_captured d st1 sess Hsess)
      as (entry & Hg & Hfail & Hmsg); [|done|done|].
    { apply (devices_for_self None). cbn [devices_for]. by rewrite Hids. }
    exists entry. rewrite <- Hmin1. done. }
  rewrite Hloop' in Hloop. injection Hloop as <- <-.
  eexists. split; [|split; [exact Hrun|split; [|split; [|done]]]].
  - unfold run_calls. cbn [foldl run_call]. rewrite Hstart. cbn [fst].
    apply serverless_cycles; [by eexists|done].
  - intros d Hd. cbn [ComputationResults.device_results].
    apply Hent. cbn [devices_for]. by rewrite Hids.
  - intros Hne. cbn [ComputationResults.success].
    apply not_true_is_false. rewrite all_successful_spec. intros Hok.
    destruct device_ids as [|x l]; [done|].
    destruct (Hent x) as (entry & Hlook & Hfail & _).
    { cbn [devices_for]. rewrite Hids. left. }
    specialize (Hok x entry Hlook). congruence.
Qed.

End serverless.

Lemma serverless_session_witness :
  ∃ st1 res,
    @run_calls Bench.nominal Bench.fresh
       (CallStart ["device_1"; "device_2"] (Some "test_session")
        :: replicate 12 (CallCapture None)) = st1 ∧
    @compute_calibration Bench.nominal None st1 = (st1, inr res).
Proof.
  destruct (serverless_session (C := Bench.nominal)
              ["device_1"; "device_2"] (Some "test_session") 12 Bench.fresh)
    as (st1 & res & H1 & H2 & _).
  - reflexivity.
  - reflexivity.
  - reflexivity.
  - exists st1, res. split; [exact H1|exact H2].
Defined.

(** ** A capture cycle that is interrupted *)

Section interrupted.
Context `{C : Collaborators}.

(** The simulated capture of a device whose folder cannot be created:
    the frames are buffered before the failure. *)
Lemma simulate_mkdir_fails device_id st sess rgb thermal e :
  current_session st = Some sess →
  captured_images st !! device_id = Some (rgb, thermal) →
  (∀ h path, path_mkdir h path = inl e) →
  ∃ st' rgb_image thermal_image,
    _simulate_image_capture device_id st = (st', inl e) ∧
    captured_images st'
    = <[device_id := (rgb ++ [rgb_image], thermal ++ [thermal_image])]>
        (captured_images st) ∧
    beyond_buffers st' = beyond_buffers st.
Proof.
  intros Hsess Hbuf Hmkdir.
  assert (∃ st', _simulate_image_capture device_id st = (st', inl e))
    as [st' Hrun].
  { unfold _simulate_image_capture.
    rewrite !run_bind_random, run_bind_get, run_bind_lift_exc.
    cbn [captured_images log_event].
    rewrite (proj2 (getitem_inr _ _ _) Hbuf).
    rewrite run_bind_modify, run_bind_get, run_bind_lift_exc.
    cbn [captured_images set_captured_images log_event fst snd].
    unfold getitem at 1. rewrite lookup_insert_eq.
    rewrite run_bind_modify. cbn [fst snd].
    rewrite run_bind.
    erewrite run_the_session by (cbn; exact Hsess).
    rewrite run_bind_io, Hmkdir. by eexists. }
  exists st'.
  destruct (simulate_effect _ _ _ _ Hrun)
    as [(Hnone & _) | (rgb' & th' & i1 & i2 & Hbuf' & Himg & Hrest)];
    [congruence|].
  rewrite Hbuf in Hbuf'. injection Hbuf' as <- <-.
  exists i1, i2. by repeat split.
Qed.

(** X19: a capture cycle interrupted after the frames were buffered.
    When the folder of the first device of the session cannot be
    created, the cycle answers with a failure that carries the exception
    and no device entry; yet one more frame pair is in the buffers of
    that device, without having been counted.  No counter moves, the
    other devices are not asked, and no capture is in flight
    afterwards. *)
Theorem capture_interrupted srv st sess device_id devices rgb thermal e :
  current_session st = Some sess → is_capturing st = false →
  Session.device_ids sess = device_id :: devices →
  captured_images st !! device_id = Some (rgb, thermal) →
  (∀ h c, ∃ n, broadcast_command srv h c = inr n) →
  (∀ h path, path_mkdir h path = inl e) →
  ∃ st' rgb_image thermal_image,
    capture_calibration_frame (Some srv) st
    = (st', inr (capture_failed e)) ∧
    captured_images st'
    = <[device_id := (rgb ++ [rgb_image], thermal ++ [thermal_image])]>
        (captured_images st) ∧
    capture_count st' = capture_count st ∧
    is_capturing st' = false.
Proof.
  intros Hsess Hcap Hids Hbuf Hsrv Hmkdir.
  unfold capture_calibration_frame.
  rewrite run_bind_get, Hsess, Hcap, run_bind_modify. cbv zeta.
  unfold try_finally, with_local. rewrite run_try_except.
  rewrite run_lift_self.
  erewrite run_the_session by (cbn; exact Hsess).
  rewrite run_lift_self. cbn [get]. cbv zeta.
  rewrite run_lift_self. unfold io, io_with.
  match goal with
  | |- context [broadcast_command srv ?h ?c] =>
      destruct (Hsrv h c) as [device_count ->]
  end.
  rewrite run_lift_self.
  erewrite run_the_session by (cbn; exact Hsess).
  rewrite Hids, run_bind. cbn [for_each].
  rewrite run_bind, run_lift_self.
  match goal with
  | |- context [_simulate_image_capture device_id ?s] =>
      destruct (simulate_mkdir_fails device_id s sess rgb thermal e)
        as (st1 & i1 & i2 & -> & Himg & Hrest); [exact Hsess|exact Hbuf|done|]
  end.
  exists (set_is_capturing false st1), i1, i2.
  split; [reflexivity|]. split; [exact Himg|].
  split; [|reflexivity].
  unfold beyond_buffers in Hrest. cbn in Hrest |- *. congruence.
Qed.

End interrupted.

Lemma capture_interrupted_witness :
  ∃ st' rgb_image thermal_image,
    @capture_calibration_frame Bench.no_directory (Some Bench.server)
      Bench.active
    = (st', inr (capture_failed Bench.permission_denied)) ∧
    captured_images st'
    = <["A" := ([] ++ [rgb_image], [] ++ [thermal_image])]>
        (captured_images Bench.active).
Proof.
  destruct (capture_interrupted (C := Bench.no_directory) Bench.server
              Bench.active Bench.session_s "A" ["B"] [] []
              Bench.permission_denied)
    as (st' & i1 & i2 & H1 & H2 & _).
  - vm_compute. reflexivity.
  - reflexivity.
  - reflexivity.
  - vm_compute. reflexivity.
  - intros h c. by exists 1.
  - reflexivity.
  - exists st', i1, i2. split; [exact H1|exact H2].
Defined.
